(** * TAPP: indicator computation and condition evaluation

    A shallow embedding of the numeric core of the TAPP back end:

    - [IndicatorsService.calculateManualEMA] and
      [IndicatorsService.calculateManualMACD] (indicators service),
    - the adaptive candle acquisition loop of [processAlertNormally],
    - the two [ConditionsService] classes (the three-rule one of
      [conditions.js] and the seven-rule one kept next to the Polygon
      service) with their comparators, running statistics and reports,
    - the indicators on candles ([calculateVWAP], [calculateLODHOD],
      [calculateAllIndicators]) and the EMA and MACD of the Polygon
      service,
    - the server: [processAlertNormally], [processAlert] and the route of
      processed alerts,
    - the handlers of the toplist service,
    - the checks of the last timestamps ([normalizeToTimeframe],
      [validateDataFreshness], [verifyTimeAlignment]), on dates as integer
      milliseconds and a time zone given by its offsets.

    JavaScript numbers are IEEE-754 binary64 values.  The code is embedded
    once, over an interface [JsNumber] of the arithmetic it uses, and read at
    two instances: [binary64] (Rocq's primitive floats, the arithmetic the
    program really runs) and [exact_real] (the real numbers, for the
    statements the specification makes "in exact arithmetic"). *)

From Stdlib Require Import Reals Lra ZArith PrimFloat Uint63.
From stdpp Require Import gmap strings list pretty sorting.

Set Warnings "-inexact-float".

(** ** JavaScript numbers *)

Declare Scope js_scope.
Delimit Scope js_scope with js.

(** The operations on numbers that the embedded code performs.  [num_nan] is
    what [undefined] coerces to in arithmetic, [num_falsy] is the truthiness
    test of [||] and [!] on a number (zero, negative zero and NaN are falsy),
    and the two literals are the default tolerances of the comparators. *)
Class JsNumber (T : Type) := {
  num_add : T → T → T;
  num_sub : T → T → T;
  num_mul : T → T → T;
  num_div : T → T → T;
  num_abs : T → T;
  num_gt : T → T → bool;
  num_of_nat : nat → T;
  num_nan : T;
  num_falsy : T → bool;
  lit_1e_10 : T;
  lit_0_0001 : T;
}.

Infix "+" := num_add : js_scope.
Infix "-" := num_sub : js_scope.
Infix "*" := num_mul : js_scope.
Infix "/" := num_div : js_scope.
Notation "# n" := (num_of_nat n) (at level 1, format "# n") : js_scope.

(** Doubles: the arithmetic of the running program. *)
#[export] Instance binary64 : JsNumber float := {
  num_add := PrimFloat.add;
  num_sub := PrimFloat.sub;
  num_mul := PrimFloat.mul;
  num_div := PrimFloat.div;
  num_abs := PrimFloat.abs;
  num_gt a b := PrimFloat.ltb b a;
  num_of_nat n := PrimFloat.of_uint63 (Uint63.of_Z (Z.of_nat n));
  num_nan := PrimFloat.nan;
  num_falsy x := PrimFloat.is_zero x || PrimFloat.is_nan x;
  lit_1e_10 := 1e-10%float;
  lit_0_0001 := 0.0001%float;
}.

(** Real numbers: the arithmetic without rounding, overflow or NaN (there
    [num_nan] is only a placeholder, read where the program would read
    [undefined]). *)
#[export] Instance exact_real : JsNumber R := {
  num_add := Rplus;
  num_sub := Rminus;
  num_mul := Rmult;
  num_div := Rdiv;
  num_abs := Rabs;
  num_gt a b := if Rlt_dec b a then true else false;
  num_of_nat := INR;
  num_nan := 0%R;
  num_falsy x := if Req_dec_T x 0%R then true else false;
  lit_1e_10 := 1e-10%R;
  lit_0_0001 := 0.0001%R;
}.

(** ** Loops and array reads *)

(** [for (let i = lo; i < hi; i++) s = body(i, s)]. *)
Definition for_range {S : Type} (lo hi : nat) (body : nat → S → S) (init : S) : S :=
  foldl (λ s i, body i s) init (seq lo (hi - lo)).

(** [values[i]] used as a number: an index past the end reads [undefined],
    which arithmetic turns into NaN. *)
Definition read `{JsNumber T} (values : list T) (i : nat) : T :=
  default num_nan (values !! i).

(** ** The indicators service *)

Module IndicatorsService.
Section WithNumbers.
Context {T : Type} `{JsNumber T}.
Local Open Scope js_scope.

(** [calculateManualEMA(values, period)]; [None] is [null].  [period] is a
    count of samples: every caller passes a literal (12, 18, 20, 26, 200
    or the MACD periods). *)
Definition calculateManualEMA (values : list T) (period : nat) : option T :=
  if bool_decide (length values = 0%nat) then None
  else if bool_decide (length values < period)%nat then None
  else
    let sum := for_range 0 period (λ i sum, sum + read values i) #0 in
    let ema := sum / #period in
    let multiplier := #2 / (#period + #1) in
    Some (for_range period (length values)
            (λ i ema, (read values i * multiplier) + (ema * (#1 - multiplier)))
            ema).

(** The object [{macd, signal, histogram}] returned by the MACD
    calculation. *)
Record macd_result := { macd : T; signal : T; histogram : T }.

(** An element read from an array of "number or null": [None] is an index
    past the end ([undefined]), [Some None] is [null]. *)
Definition not_null (e : option (option T)) : bool :=
  match e with Some None => false | _ => true end.

Definition elem_number (e : option (option T)) : T :=
  match e with
  | Some (Some x) => x
  | Some None => #0
  | None => num_nan
  end.

(** [calculateManualMACD(closes, fastPeriod, slowPeriod, signalPeriod)].
    The three arrays get one entry per close, a number or [null]. *)
Definition calculateManualMACD (closes : list T)
    (fastPeriod slowPeriod signalPeriod : nat) : option macd_result :=
  if bool_decide (length closes = 0%nat) then None
  else
    let minCandles := (slowPeriod + signalPeriod)%nat in
    if bool_decide (length closes < minCandles)%nat then None
    else
      let '(emaFastValues, emaSlowValues) :=
        for_range 0 (length closes)
          (λ i '(emaFastValues, emaSlowValues),
             let closesSubset := take (i + 1) closes in
             let emaFastValues :=
               if bool_decide (fastPeriod ≤ length closesSubset)%nat
               then emaFastValues ++ [calculateManualEMA closesSubset fastPeriod]
               else emaFastValues ++ [None] in
             let emaSlowValues :=
               if bool_decide (slowPeriod ≤ length closesSubset)%nat
               then emaSlowValues ++ [calculateManualEMA closesSubset slowPeriod]
               else emaSlowValues ++ [None] in
             (emaFastValues, emaSlowValues))
          ([], []) in
      let macdLineValues :=
        for_range 0 (length closes)
          (λ i macdLineValues,
             if not_null (emaFastValues !! i) && not_null (emaSlowValues !! i)
             then macdLineValues ++
                    [Some (elem_number (emaFastValues !! i)
                           - elem_number (emaSlowValues !! i))]
             else macdLineValues ++ [None])
          [] in
      let latestMacdLine := macdLineValues !! (length macdLineValues - 1)%nat in
      if negb (not_null latestMacdLine) then None
      else
        let validMacdValues := omap (λ val, val) macdLineValues in
        if bool_decide (length validMacdValues < signalPeriod)%nat then None
        else
          match calculateManualEMA validMacdValues signalPeriod with
          | None => None
          | Some signalLine =>
              Some {| macd := elem_number latestMacdLine;
                      signal := signalLine;
                      histogram := elem_number latestMacdLine - signalLine |}
          end.

(** *** The specification's reference definitions *)

(** "Seed with the simple average of the first [period] values". *)
Definition ema_seed (values : list T) (period : nat) : T :=
  foldl num_add #0 (take period values) / #period.

(** "[ema_i = value_i·α + ema_{i-1}·(1-α)] for indices [period..end]",
    with [α = 2/(period+1)]. *)
Definition ema_step (period : nat) (ema value : T) : T :=
  let α := #2 / (#period + #1) in
  (value * α) + (ema * (#1 - α)).

Definition ema_reference (values : list T) (period : nat) : T :=
  foldl (ema_step period) (ema_seed values period) (drop period values).

(** "For every index [i] where both a fast-period and slow-period EMA are
    computable over [closes[0..i]], line value =
    [emaFast(closes[0..i]) - emaSlow(closes[0..i])]". *)
Definition macd_line_entry (closes : list T) (fast slow i : nat) : option T :=
  match calculateManualEMA (take (S i) closes) fast,
        calculateManualEMA (take (S i) closes) slow with
  | Some emaFast, Some emaSlow => Some (emaFast - emaSlow)
  | _, _ => None
  end.

Definition macd_line_reference (closes : list T) (fast slow : nat) : list T :=
  omap (macd_line_entry closes fast slow) (seq 0 (length closes)).

End WithNumbers.
End IndicatorsService.

(** ** Candle acquisition in [processAlertNormally]

    The adaptive fetch of [processAlertNormally]: the [while] loop over the
    look-back windows (10, 15, 20, 30 days) and the sufficiency guard that
    follows it.  The two Polygon requests of one round are the parameter
    [provider], asked with the [hoursBack] the round passes to
    [getExtendedDateRange]. *)

Module Acquisition.
Section WithNumbers.
Context {T : Type}.

(** A candle as [fetchOHLCV] builds it; [timestamp] is the [Date] as
    milliseconds since the epoch. *)
Record candle := {
  timestamp : Z;
  open : T;
  high : T;
  low : T;
  close : T;
  volume : T;
}.

(** [new Date(t)] is a valid date only within 8.64e15 ms of the epoch;
    the getters of an invalid date return NaN, which fails every
    comparison. *)
Definition validDate (t : Z) : bool :=
  bool_decide (-8640000000000000 ≤ t ≤ 8640000000000000)%Z.

Definition getUTCHours (t : Z) : Z := ((t / 3600000) mod 24)%Z.
Definition getUTCMinutes (t : Z) : Z := ((t / 60000) mod 60)%Z.

Definition marketStartUTC : Z := (13 * 60 + 30)%Z.
Definition marketEndUTC : Z := (20 * 60)%Z.

(** The predicate of the two [filter] calls. *)
Definition inMarketHours (c : candle) : bool :=
  let utcHours := getUTCHours (timestamp c) in
  let utcMinutes := getUTCMinutes (timestamp c) in
  let utcTimeInMinutes := ((utcHours * 60) + utcMinutes)%Z in
  validDate (timestamp c)
  && bool_decide (marketStartUTC ≤ utcTimeInMinutes)%Z
  && bool_decide (utcTimeInMinutes < marketEndUTC)%Z.

(** One round of [Promise.all([fetch1MinuteCandles, fetch5MinuteCandles])]:
    [None] when a request rejects (the exception reaches the [catch] of
    [processAlertNormally], which returns [null]); otherwise the two
    results, each an array or [null]/[undefined]. *)
Definition response : Type :=
  option (option (list candle) * option (list candle)).

(** The variables [candles1m], [candles5m] and [usedMarketHoursOnly]. *)
Record dataset := {
  candles1m : option (list candle);
  candles5m : option (list candle);
  usedMarketHoursOnly : bool;
}.

Inductive loop_result :=
| ReturnedNull
| Exited (d : dataset)
| OutOfFuel.

Definition maxAttempts : nat := 4.

(** [daysToFetch === 10 ? 15 : daysToFetch === 15 ? 20 : 30]. *)
Definition nextDaysToFetch (daysToFetch : nat) : nat :=
  if bool_decide (daysToFetch = 10) then 15
  else if bool_decide (daysToFetch = 15) then 20
  else 30.

(** [while (attemptCount < maxAttempts) { ... }]. *)
Fixpoint acquisition_loop (provider : nat → response) (fuel : nat)
    (daysToFetch attemptCount : nat) (current : dataset) : loop_result :=
  if negb (bool_decide (attemptCount < maxAttempts)) then Exited current
  else
    match fuel with
    | O => OutOfFuel
    | S fuel =>
        let hoursBack := daysToFetch * 24 in
        match provider hoursBack with
        | None => ReturnedNull
        | Some (None, _) | Some (Some [], _) => ReturnedNull
        | Some (Some fetched1m, fetched5m) =>
            let marketHoursCandles1m := List.filter inMarketHours fetched1m in
            let marketHoursCandles5m :=
              match fetched5m with
              | Some fetched5m => List.filter inMarketHours fetched5m
              | None => []
              end in
            if bool_decide (200 ≤ length marketHoursCandles1m)
               && bool_decide (50 ≤ length marketHoursCandles5m)
            then Exited {| candles1m := Some marketHoursCandles1m;
                           candles5m := Some marketHoursCandles5m;
                           usedMarketHoursOnly := true |}
            else if bool_decide (200 ≤ length fetched1m)
                    && bool_decide (attemptCount = maxAttempts - 1)
            then Exited {| candles1m := Some fetched1m;
                           candles5m := fetched5m;
                           usedMarketHoursOnly := false |}
            else acquisition_loop provider fuel
                   (nextDaysToFetch daysToFetch) (S attemptCount)
                   {| candles1m := Some fetched1m;
                      candles5m := fetched5m;
                      usedMarketHoursOnly := usedMarketHoursOnly current |}
        end
    end.

(** The loop from its initial state, followed by the guard
    [!candles1m || candles1m.length < 200 || !candles5m ||
     candles5m.length < 50]; [None] is the [return null] of an
    unprocessable ticker, [Some] the data set handed to the indicators. *)
Definition acquireCandles (provider : nat → response)
    : option (list candle * list candle * bool) :=
  match acquisition_loop provider maxAttempts 10 0
          {| candles1m := None; candles5m := None;
             usedMarketHoursOnly := false |} with
  | Exited d =>
      match candles1m d, candles5m d with
      | Some c1, Some c5 =>
          if bool_decide (length c1 < 200) || bool_decide (length c5 < 50)
          then None
          else Some (c1, c5, usedMarketHoursOnly d)
      | _, _ => None
      end
  | ReturnedNull | OutOfFuel => None
  end.

(** *** The acceptance path of the final attempt, as the specification
    words it *)

(** The session-filtered acceptance test on one round's arrays. *)
Definition filtered_test (fetched1m : list candle)
    (fetched5m : option (list candle)) : bool :=
  bool_decide (200 ≤ length (List.filter inMarketHours fetched1m))
  && bool_decide (50 ≤ length (List.filter inMarketHours (default [] fetched5m))).

(** A round that neither ends the function nor is accepted, so that the
    loop goes on to the next window. *)
Definition round_retries (r : response) : Prop :=
  ∃ fetched1m fetched5m,
    r = Some (Some fetched1m, fetched5m)
    ∧ fetched1m ≠ []
    ∧ filtered_test fetched1m fetched5m = false.

(** The loop reaches its fourth round, and there the filtered test fails
    while the unfiltered one-minute array has at least 200 candles. *)
Definition final_attempt_unfiltered (provider : nat → response)
    (fetched1m : list candle) (fetched5m : option (list candle)) : Prop :=
  round_retries (provider (10 * 24))
  ∧ round_retries (provider (15 * 24))
  ∧ round_retries (provider (20 * 24))
  ∧ provider (30 * 24) = Some (Some fetched1m, fetched5m)
  ∧ filtered_test fetched1m fetched5m = false
  ∧ 200 ≤ length fetched1m.

(** The claim of unconditional acceptance on that path. *)
Definition unfiltered_acceptance_unconditional : Prop :=
  ∀ provider fetched1m fetched5m,
    final_attempt_unfiltered provider fetched1m fetched5m →
    ∃ accepted5m,
      acquireCandles provider = Some (fetched1m, accepted5m, false).

End WithNumbers.
End Acquisition.

(** ** The condition evaluator: what both [ConditionsService] classes share *)

(** A value that is a number, [null] or [undefined]. *)
Inductive jsnum (T : Type) : Type :=
| JNull
| JUndefined
| JNum (x : T).
Arguments JNull {T}.
Arguments JUndefined {T}.
Arguments JNum {T} x.

(** How a call completes: normally with a value, or by throwing. *)
Inductive js_error := TypeError.

Inductive completion (A : Type) : Type :=
| Normal (a : A)
| Throw (e : js_error).
Arguments Normal {A} a.
Arguments Throw {A} e.

Module Conditions.
Section WithNumbers.
Context {T : Type} `{JsNumber T}.
Local Open Scope js_scope.
Local Open Scope string_scope.
Local Open Scope list_scope.

(** [v === null || v === undefined]. *)
Definition is_nullish (v : jsnum T) : bool :=
  match v with JNum _ => false | _ => true end.

(** The number a value is in arithmetic. *)
Definition to_number (v : jsnum T) : T :=
  match v with
  | JNull => #0
  | JUndefined => num_nan
  | JNum x => x
  end.

Definition truthy (v : jsnum T) : bool :=
  match v with JNum x => negb (num_falsy x) | _ => false end.

(** [a || b]. *)
Definition or_else (a b : jsnum T) : jsnum T := if truthy a then a else b.

(** [this.EPSILON = 1e-10]. *)
Definition EPSILON : T := lit_1e_10.

(** [isGreaterThan(a, b, tolerance = this.EPSILON)]; an omitted third
    argument is [None]. *)
Definition isGreaterThan (a b : jsnum T) (tolerance : option T) : bool :=
  if is_nullish a || is_nullish b then false
  else num_gt (to_number a - to_number b) (default EPSILON tolerance).

(** [isGreaterThanWithTolerance(a, b, percentageTolerance = 0.0001)]. *)
Definition isGreaterThanWithTolerance (a b : jsnum T)
    (percentageTolerance : option T) : bool :=
  if is_nullish a || is_nullish b then false
  else
    let tolerance :=
      num_abs (to_number b) * default lit_0_0001 percentageTolerance in
    num_gt (to_number a - to_number b) tolerance.

(** The value of an indicator slot that holds a MACD result: [null],
    [undefined], a stray number, or an object whose three fields may each
    be missing. *)
Record macd_object := {
  macd : jsnum T;
  signal : jsnum T;
  histogram : jsnum T;
}.

Inductive macd_data :=
| MacdNull
| MacdUndefined
| MacdNumber (x : T)
| MacdObject (o : macd_object).

Definition macd_truthy (macdData : macd_data) : bool :=
  match macdData with
  | MacdNull | MacdUndefined => false
  | MacdNumber x => negb (num_falsy x)
  | MacdObject _ => true
  end.

(** [typeof macdData === 'object'] ([typeof null] is ['object'] too). *)
Definition typeof_object (macdData : macd_data) : bool :=
  match macdData with
  | MacdNull | MacdObject _ => true
  | MacdUndefined | MacdNumber _ => false
  end.

Definition macd_field (field : macd_object → jsnum T) (macdData : macd_data)
    : jsnum T :=
  match macdData with
  | MacdObject o => field o
  | _ => JUndefined
  end.

(** [getMACDHistogram] of [conditions.js]. *)
Definition getMACDHistogram (macdData : macd_data) : jsnum T :=
  if negb (macd_truthy macdData) || negb (typeof_object macdData) then JNull
  else or_else (macd_field histogram macdData) JNull.

(** [getMACDValue] of the seven-rule service. *)
Definition getMACDValue (macdData : macd_data) : jsnum T :=
  if negb (macd_truthy macdData) || negb (typeof_object macdData) then JNull
  else or_else (macd_field macd macdData) JNull.

(** The indicator slots the evaluators read. *)
Record IndicatorBundle := {
  ema1m18 : jsnum T;
  ema1m200 : jsnum T;
  ema5m18 : jsnum T;
  ema5m200 : jsnum T;
  macd1m : macd_data;
  macd5m : macd_data;
  vwap1m : jsnum T;
}.

(** [lastCandle]: [null], [undefined] or a candle, of which only [close]
    is read. *)
Inductive candle_ref :=
| CandleNull
| CandleUndefined
| CandleObject (close : jsnum T).

(** [lastCandle?.close]. *)
Definition optional_close (lastCandle : candle_ref) : jsnum T :=
  match lastCandle with
  | CandleObject close => close
  | _ => JUndefined
  end.

(** The argument of [evaluateConditions] (its [ticker] and [candleCounts]
    only reach the log). *)
Record IndicatorData := {
  indicators : IndicatorBundle;
  lastCandle : candle_ref;
  currentPrice : jsnum T;
}.

(** [currentPrice || lastCandle?.close]. *)
Definition closePrice_of (indicatorData : IndicatorData) : jsnum T :=
  or_else (currentPrice indicatorData) (optional_close (lastCandle indicatorData)).

(** The texts of a failure record are kept as the pieces of their template
    literals; rendering a number is left to the reader of the record. *)
Inductive fragment :=
| Lit (s : string)
| Val (v : jsnum T)
| Fixed6 (x : T).

(** [${v || 'N/A'}]. *)
Definition or_na (v : jsnum T) : fragment :=
  if truthy v then Val v else Lit "N/A".

Record failed_condition := {
  name : option string;
  expected : list fragment;
  actual : list fragment;
  condition : string;
}.

Record debug_info := {
  debug_values : list (string * jsnum T);
  allIndicatorValues : IndicatorBundle;
}.

Record Verdict := {
  conditions : list (string * bool);
  passedConditions : nat;
  totalConditions : nat;
  allConditionsMet : bool;
  failedConditions : list failed_condition;
  score : string;
  debugInfo : debug_info;
}.

(** [conditions.key = value; if (!conditions.key) failedConditions.push(failure)]. *)
Definition record_condition (key : string) (value : bool)
    (failure : failed_condition)
    (acc : list (string * bool) * list failed_condition)
    : list (string * bool) * list failed_condition :=
  (acc.1 ++ [(key, value)], if value then acc.2 else acc.2 ++ [failure]).

(** [conditions[key]], as a truth value. *)
Definition condition_value (conditions : list (string * bool)) (key : string)
    : bool :=
  match list_find (λ kv, kv.1 = key) conditions with
  | Some (_, (_, value)) => value
  | None => false
  end.

(** [Object.values(conditions).filter(Boolean).length]. *)
Definition count_passed (conditions : list (string * bool)) : nat :=
  length (List.filter (λ value : bool, value) (conditions.*2)).

(** [Object.keys(conditions).length]. *)
Definition count_total (conditions : list (string * bool)) : nat :=
  length (conditions.*1).

(** *** Running statistics *)

(** The counters are numbers that only [++] changes; they are natural
    numbers here (the increment of a double is exact below 2^53). *)
Record counts := { passed : nat; failed : nat }.

Record Statistics := {
  totalEvaluations : nat;
  totalPassed : nat;
  conditionCounts : gmap string counts;
}.

Definition zero_counts : counts := {| passed := 0; failed := 0 |}.

(** [counts.passed++] or [counts.failed++]. *)
Definition bump (value : bool) (c : counts) : counts :=
  if value then {| passed := S (passed c); failed := failed c |}
  else {| passed := passed c; failed := S (failed c) |}.

(** The [forEach] of [updateStatistics]: a key without an entry in
    [conditionCounts] reads [undefined], and the increment of its field
    throws a [TypeError]; what was written before stays written. *)
Fixpoint update_counts (keys : list string) (conditions : list (string * bool))
    (conditionCounts : gmap string counts)
    : gmap string counts * completion unit :=
  match keys with
  | [] => (conditionCounts, Normal ())
  | conditionKey :: keys =>
      match conditionCounts !! conditionKey with
      | None => (conditionCounts, Throw TypeError)
      | Some c =>
          update_counts keys conditions
            (<[conditionKey := bump (condition_value conditions conditionKey) c]>
               conditionCounts)
      end
  end.

(** [updateStatistics(conditions, allConditionsMet)]. *)
Definition updateStatistics (statistics : Statistics)
    (conditions : list (string * bool)) (allConditionsMet : bool)
    : Statistics * completion unit :=
  let totalEvaluations := S (totalEvaluations statistics) in
  let totalPassed :=
    if allConditionsMet then S (totalPassed statistics)
    else totalPassed statistics in
  let '(conditionCounts, outcome) :=
    update_counts (conditions.*1) conditions (conditionCounts statistics) in
  ({| totalEvaluations := totalEvaluations;
      totalPassed := totalPassed;
      conditionCounts := conditionCounts |}, outcome).

(** The counts taken after the last rule, and the object that
    [evaluateConditions] returns. *)
Definition make_verdict (acc : list (string * bool) * list failed_condition)
    (debugInfo : debug_info) : Verdict :=
  let conditions := acc.1 in
  let failedConditions := acc.2 in
  let passedConditions := count_passed conditions in
  let totalConditions := count_total conditions in
  let allConditionsMet := bool_decide (passedConditions = totalConditions) in
  {| conditions := conditions;
     passedConditions := passedConditions;
     totalConditions := totalConditions;
     allConditionsMet := allConditionsMet;
     failedConditions := failedConditions;
     score := pretty passedConditions +:+ "/" +:+ pretty totalConditions;
     debugInfo := debugInfo |}.

(** The end of [evaluateConditions]: the statistics update, which may
    throw, and the return of the verdict. *)
Definition conclude (statistics : Statistics)
    (acc : list (string * bool) * list failed_condition)
    (debugInfo : debug_info) : Statistics * completion Verdict :=
  let verdict := make_verdict acc debugInfo in
  let '(statistics, outcome) :=
    updateStatistics statistics (conditions verdict) (allConditionsMet verdict) in
  match outcome with
  | Throw e => (statistics, Throw e)
  | Normal _ => (statistics, Normal verdict)
  end.

(** What the service is asked to do between two observations of its
    statistics: an evaluation, or the reset of the statistics endpoint. *)
Inductive request :=
| Evaluate (indicatorData : IndicatorData)
| Reset.

(** The statistics after a sequence of requests, for a service with the
    given [evaluateConditions] and [resetStatistics] (an evaluation that
    throws is caught by its caller, and the service lives on). *)
Definition serve_with
    (evaluate : Statistics → IndicatorData → Statistics * completion Verdict)
    (reset : Statistics → Statistics)
    (statistics : Statistics) (requests : list request) : Statistics :=
  foldl (λ statistics r,
           match r with
           | Evaluate indicatorData => (evaluate statistics indicatorData).1
           | Reset => reset statistics
           end)
        statistics requests.

(** The statistics agree with themselves on the rules [keys]: each has a
    counter whose two fields add up to the number of evaluations, and no
    more evaluations passed than were made. *)
Definition consistent (keys : list string) (statistics : Statistics) : Prop :=
  (totalPassed statistics ≤ totalEvaluations statistics)%nat
  ∧ ∀ key, key ∈ keys →
      ∃ c, conditionCounts statistics !! key = Some c
           ∧ (passed c + failed c)%nat = totalEvaluations statistics.

(** The invariants of a verdict for the rules [keys] with the given
    operands: the keys of [conditions] are the rule keys; the passed count
    is the number of keys mapped to [true]; the total is the number of
    rules; all are met exactly when the two counts agree; and a rule with
    a [null] or [undefined] operand is false, has its failure record, and
    is not counted. *)
Definition verdict_invariant (keys : list string)
    (operands : list (string * (jsnum T * jsnum T))) (verdict : Verdict) : Prop :=
  (conditions verdict).*1 = keys
  ∧ passedConditions verdict
    = length (filter (λ key, condition_value (conditions verdict) key = true) keys)
  ∧ totalConditions verdict = length keys
  ∧ (allConditionsMet verdict = true
     ↔ passedConditions verdict = totalConditions verdict)
  ∧ ∀ key a b,
      (key, (a, b)) ∈ operands →
      is_nullish a || is_nullish b = true →
      condition_value (conditions verdict) key = false
      ∧ ((key, true) ∉ conditions verdict)
      ∧ key ∈ (condition <$> failedConditions verdict)
      ∧ (passedConditions verdict < totalConditions verdict)%nat
      ∧ allConditionsMet verdict = false.




(** The failure record of a rule [left > right] between two indicator
    slots, with its two labels. *)
Definition comparison_failure (name : option string) (key leftLabel rightLabel : string)
    (left right : jsnum T) : failed_condition :=
  {| name := name;
     expected := [Lit leftLabel; Lit " ("; Val left; Lit ") > ";
                  Lit rightLabel; Lit " ("; Val right; Lit ")"];
     actual := [or_na left; Lit " vs "; or_na right; Lit " (diff: ";
                Fixed6 (to_number left - to_number right); Lit ")"];
     condition := key |}.

(** The failure record of a rule [value > 0]. *)
Definition positive_failure (name : option string) (key : string)
    (value : jsnum T) : failed_condition :=
  {| name := name;
     expected := [Lit "> 0"];
     actual := [or_na value];
     condition := key |}.

End WithNumbers.
Arguments macd_object T : clear implicits.
Arguments macd_data T : clear implicits.
Arguments IndicatorBundle T : clear implicits.
Arguments candle_ref T : clear implicits.
Arguments IndicatorData T : clear implicits.
Arguments fragment T : clear implicits.
Arguments failed_condition T : clear implicits.
Arguments debug_info T : clear implicits.
Arguments Verdict T : clear implicits.
Arguments request T : clear implicits.
End Conditions.

(** ** The three-rule service of [conditions.js] *)

Module ConditionsService.
Import Conditions.
Section WithNumbers.
Context {T : Type} `{JsNumber T}.
Local Open Scope js_scope.
Local Open Scope string_scope.
Local Open Scope list_scope.

Definition conditionNames : gmap string string :=
  list_to_map
    [("macd5mPositive", "MACD Histogram (5m) > 0");
     ("ema18Above200_1m", "EMA 18 (1m) > EMA 200 (1m)");
     ("priceAboveVwap", "Precio > VWAP (1m)")].

(** The keys of the rules, in the order the evaluator assigns them. *)
Definition rule_keys : list string :=
  ["macd5mPositive"; "ema18Above200_1m"; "priceAboveVwap"].

(** [this.statistics] as the constructor leaves it. *)
Definition initial_statistics : Statistics :=
  {| totalEvaluations := 0;
     totalPassed := 0;
     conditionCounts :=
       list_to_map
         [("macd5mPositive", zero_counts);
          ("ema18Above200_1m", zero_counts);
          ("priceAboveVwap", zero_counts)] |}.

(** [resetStatistics()]: the object it installs lists the seven keys of
    the other service. *)
Definition resetStatistics (statistics : Statistics) : Statistics :=
  {| totalEvaluations := 0;
     totalPassed := 0;
     conditionCounts :=
       list_to_map
         [("macd5mPositive", zero_counts);
          ("macd1mPositive", zero_counts);
          ("ema18Above200_1m", zero_counts);
          ("ema18AboveVwap_1m", zero_counts);
          ("vwapAboveEma200_1m", zero_counts);
          ("closeAboveEma18_1m", zero_counts);
          ("ema200AboveEma18_5m", zero_counts)] |}.

(** The two operands each rule compares, by rule key. *)
Definition rule_operands (indicatorData : IndicatorData T)
    : list (string * (jsnum T * jsnum T)) :=
  let indicators := indicators indicatorData in
  [("macd5mPositive", (getMACDHistogram (macd5m indicators), JNum #0));
   ("ema18Above200_1m", (ema1m18 indicators, ema1m200 indicators));
   ("priceAboveVwap", (closePrice_of indicatorData, vwap1m indicators))].

(** [evaluateConditions(indicatorData)], threading [this.statistics]. *)
Definition evaluateConditions (statistics : Statistics)
    (indicatorData : IndicatorData T) : Statistics * completion (Verdict T) :=
  let indicators := indicators indicatorData in
  let macd5mHistogram := getMACDHistogram (macd5m indicators) in
  let closePrice := closePrice_of indicatorData in
  let acc := ([], []) in
  let acc :=
    record_condition "macd5mPositive"
      (isGreaterThan macd5mHistogram (JNum #0) None)
      (positive_failure (conditionNames !! "macd5mPositive")
         "macd5mPositive" macd5mHistogram) acc in
  let acc :=
    record_condition "ema18Above200_1m"
      (isGreaterThanWithTolerance (ema1m18 indicators) (ema1m200 indicators) None)
      (comparison_failure (conditionNames !! "ema18Above200_1m")
         "ema18Above200_1m" "EMA 18" "EMA 200"
         (ema1m18 indicators) (ema1m200 indicators)) acc in
  let acc :=
    record_condition "priceAboveVwap"
      (isGreaterThanWithTolerance closePrice (vwap1m indicators) None)
      (comparison_failure (conditionNames !! "priceAboveVwap")
         "priceAboveVwap" "Precio" "VWAP"
         closePrice (vwap1m indicators)) acc in
  conclude statistics acc
    {| debug_values := [("macd5mHistogram", macd5mHistogram);
                        ("closePrice", closePrice)];
       allIndicatorValues := indicators |}.

(** The [conditions] object the evaluator fills: each rule key with the
    result of its comparison. *)
Definition rule_values (indicatorData : IndicatorData T) : list (string * bool) :=
  let indicators := indicators indicatorData in
  [("macd5mPositive",
    isGreaterThan (getMACDHistogram (macd5m indicators)) (JNum #0) None);
   ("ema18Above200_1m",
    isGreaterThanWithTolerance (ema1m18 indicators) (ema1m200 indicators) None);
   ("priceAboveVwap",
    isGreaterThanWithTolerance (closePrice_of indicatorData) (vwap1m indicators) None)].

(** The statistics after a sequence of requests. *)
Definition serve : Statistics → list (request T) → Statistics :=
  serve_with evaluateConditions resetStatistics.

End WithNumbers.
End ConditionsService.

(** ** The seven-rule service kept with the Polygon service *)

Module PolygonConditionsService.
Import Conditions.
Section WithNumbers.
Context {T : Type} `{JsNumber T}.
Local Open Scope js_scope.
Local Open Scope string_scope.
Local Open Scope list_scope.

Definition conditionNames : gmap string string :=
  list_to_map
    [("macd5mPositive", "MACD (5m) > 0");
     ("macd1mPositive", "MACD (1m) > 0");
     ("ema18Above200_1m", "EMA 18 (1m) > EMA 200 (1m)");
     ("ema18AboveVwap_1m", "EMA 18 (1m) > VWAP (1m)");
     ("vwapAboveEma200_1m", "VWAP (1m) > EMA 200 (1m)");
     ("closeAboveEma18_1m", "Close > EMA 18 (1m)");
     ("ema200AboveEma18_5m", "EMA 200 (5m) > EMA 18 (5m)")].

Definition rule_keys : list string :=
  ["macd5mPositive"; "macd1mPositive"; "ema18Above200_1m";
   "ema18AboveVwap_1m"; "vwapAboveEma200_1m"; "closeAboveEma18_1m";
   "ema200AboveEma18_5m"].

(** [this.statistics] as the constructor leaves it. *)
Definition initial_statistics : Statistics :=
  {| totalEvaluations := 0;
     totalPassed := 0;
     conditionCounts :=
       list_to_map
         [("macd5mPositive", zero_counts);
          ("macd1mPositive", zero_counts);
          ("ema18Above200_1m", zero_counts);
          ("ema18AboveVwap_1m", zero_counts);
          ("vwapAboveEma200_1m", zero_counts);
          ("closeAboveEma18_1m", zero_counts);
          ("ema200AboveEma18_5m", zero_counts)] |}.

(** [resetStatistics()]. *)
Definition resetStatistics (statistics : Statistics) : Statistics :=
  initial_statistics.

Definition rule_operands (indicatorData : IndicatorData T)
    : list (string * (jsnum T * jsnum T)) :=
  let indicators := indicators indicatorData in
  [("macd5mPositive", (getMACDValue (macd5m indicators), JNum #0));
   ("macd1mPositive", (getMACDValue (macd1m indicators), JNum #0));
   ("ema18Above200_1m", (ema1m18 indicators, ema1m200 indicators));
   ("ema18AboveVwap_1m", (ema1m18 indicators, vwap1m indicators));
   ("vwapAboveEma200_1m", (vwap1m indicators, ema1m200 indicators));
   ("closeAboveEma18_1m", (closePrice_of indicatorData, ema1m18 indicators));
   ("ema200AboveEma18_5m", (ema5m200 indicators, ema5m18 indicators))].

(** [evaluateConditions(indicatorData)], threading [this.statistics]. *)
Definition evaluateConditions (statistics : Statistics)
    (indicatorData : IndicatorData T) : Statistics * completion (Verdict T) :=
  let indicators := indicators indicatorData in
  let macd1mValue := getMACDValue (macd1m indicators) in
  let macd5mValue := getMACDValue (macd5m indicators) in
  let closePrice := closePrice_of indicatorData in
  let acc := ([], []) in
  let acc :=
    record_condition "macd5mPositive"
      (isGreaterThan macd5mValue (JNum #0) None)
      (positive_failure (conditionNames !! "macd5mPositive")
         "macd5mPositive" macd5mValue) acc in
  let acc :=
    record_condition "macd1mPositive"
      (isGreaterThan macd1mValue (JNum #0) None)
      (positive_failure (conditionNames !! "macd1mPositive")
         "macd1mPositive" macd1mValue) acc in
  let acc :=
    record_condition "ema18Above200_1m"
      (isGreaterThanWithTolerance (ema1m18 indicators) (ema1m200 indicators) None)
      (comparison_failure (conditionNames !! "ema18Above200_1m")
         "ema18Above200_1m" "EMA 18" "EMA 200"
         (ema1m18 indicators) (ema1m200 indicators)) acc in
  let acc :=
    record_condition "ema18AboveVwap_1m"
      (isGreaterThanWithTolerance (ema1m18 indicators) (vwap1m indicators) None)
      (comparison_failure (conditionNames !! "ema18AboveVwap_1m")
         "ema18AboveVwap_1m" "EMA 18" "VWAP"
         (ema1m18 indicators) (vwap1m indicators)) acc in
  let acc :=
    record_condition "vwapAboveEma200_1m"
      (isGreaterThanWithTolerance (vwap1m indicators) (ema1m200 indicators) None)
      (comparison_failure (conditionNames !! "vwapAboveEma200_1m")
         "vwapAboveEma200_1m" "VWAP" "EMA 200"
         (vwap1m indicators) (ema1m200 indicators)) acc in
  let acc :=
    record_condition "closeAboveEma18_1m"
      (isGreaterThanWithTolerance closePrice (ema1m18 indicators) None)
      (comparison_failure (conditionNames !! "closeAboveEma18_1m")
         "closeAboveEma18_1m" "Close" "EMA 18"
         closePrice (ema1m18 indicators)) acc in
  let acc :=
    record_condition "ema200AboveEma18_5m"
      (isGreaterThanWithTolerance (ema5m200 indicators) (ema5m18 indicators) None)
      (comparison_failure (conditionNames !! "ema200AboveEma18_5m")
         "ema200AboveEma18_5m" "EMA 200" "EMA 18"
         (ema5m200 indicators) (ema5m18 indicators)) acc in
  conclude statistics acc
    {| debug_values := [("macd1mValue", macd1mValue);
                        ("macd5mValue", macd5mValue);
                        ("closePrice", closePrice)];
       allIndicatorValues := indicators |}.

Definition rule_values (indicatorData : IndicatorData T) : list (string * bool) :=
  let indicators := indicators indicatorData in
  [("macd5mPositive",
    isGreaterThan (getMACDValue (macd5m indicators)) (JNum #0) None);
   ("macd1mPositive",
    isGreaterThan (getMACDValue (macd1m indicators)) (JNum #0) None);
   ("ema18Above200_1m",
    isGreaterThanWithTolerance (ema1m18 indicators) (ema1m200 indicators) None);
   ("ema18AboveVwap_1m",
    isGreaterThanWithTolerance (ema1m18 indicators) (vwap1m indicators) None);
   ("vwapAboveEma200_1m",
    isGreaterThanWithTolerance (vwap1m indicators) (ema1m200 indicators) None);
   ("closeAboveEma18_1m",
    isGreaterThanWithTolerance (closePrice_of indicatorData) (ema1m18 indicators) None);
   ("ema200AboveEma18_5m",
    isGreaterThanWithTolerance (ema5m200 indicators) (ema5m18 indicators) None)].

Definition serve : Statistics → list (request T) → Statistics :=
  serve_with evaluateConditions resetStatistics.

End WithNumbers.
End PolygonConditionsService.

(** ** Scenario data, and three statements of the specification as worded *)

Module Scenarios.

(** [closes = [1, 2, ..., 40]] as doubles, and as real numbers. *)
Definition closes40 : list float := (λ i, num_of_nat (S i)) <$> seq 0 40.
Definition closes40_real : list R := (λ i, num_of_nat (S i)) <$> seq 0 40.

(** "[ema(values, period)] is undefined whenever [len(values) < period],
    and defined (a finite float) otherwise", at one input. *)
Definition ema_defined_finite (values : list float) (period : nat) : Prop :=
  (length values < period →
     IndicatorsService.calculateManualEMA values period = None)
  ∧ (¬ length values < period →
     ∃ ema, IndicatorsService.calculateManualEMA values period = Some ema
            ∧ PrimFloat.is_finite ema = true).



(** A one-minute candle [i] minutes after midnight UTC of the epoch day. *)
Definition candle_at_minute (i : nat) : Acquisition.candle (T := float) :=
  {| Acquisition.timestamp := (Z.of_nat i * 60000)%Z;
     Acquisition.open := 1%float;
     Acquisition.high := 1%float;
     Acquisition.low := 1%float;
     Acquisition.close := 1%float;
     Acquisition.volume := 100%float |}.

(** 200 one-minute candles from 00:00 to 03:19 UTC (all outside the
    session), and ten five-minute candles over the first fifty minutes. *)
Definition night1m : list Acquisition.candle := candle_at_minute <$> seq 0 200.
Definition night5m : list Acquisition.candle :=
  (λ i, candle_at_minute (5 * i)) <$> seq 0 10.

(** A provider that answers every window with those two arrays. *)
Definition night_provider (hoursBack : nat) : Acquisition.response :=
  Some (Some night1m, Some night5m).

(** The same with fifty five-minute candles, still outside the session. *)
Definition night5m_fifty : list Acquisition.candle :=
  (λ i, candle_at_minute (5 * i)) <$> seq 0 50.

Definition night_provider_fifty (hoursBack : nat) : Acquisition.response :=
  Some (Some night1m, Some night5m_fifty).

(** A bundle whose VWAP is 4, evaluated with a last close of 5. *)
Definition bundle_vwap4 : Conditions.IndicatorBundle float :=
  {| Conditions.ema1m18 := JNum 3%float;
     Conditions.ema1m200 := JNum 2%float;
     Conditions.ema5m18 := JNum 2%float;
     Conditions.ema5m200 := JNum 3%float;
     Conditions.macd1m :=
       Conditions.MacdObject
         {| Conditions.macd := JNum 0.5%float;
            Conditions.signal := JNum 0.25%float;
            Conditions.histogram := JNum 0.25%float |};
     Conditions.macd5m :=
       Conditions.MacdObject
         {| Conditions.macd := JNum 0.5%float;
            Conditions.signal := JNum 0.25%float;
            Conditions.histogram := JNum 0.25%float |};
     Conditions.vwap1m := JNum 4%float |}.

Definition data_with_price (price : jsnum float) : Conditions.IndicatorData float :=
  {| Conditions.indicators := bundle_vwap4;
     Conditions.lastCandle := Conditions.CandleObject (JNum 5%float);
     Conditions.currentPrice := price |}.

End Scenarios.

(** ** The windows of the acquisition *)

(** The look-back window, in days, that [processAlertNormally] asks for
    in each attempt (10, then 15, 20 and 30). *)
Definition window_of_attempt (attemptCount : nat) : nat :=
  match attemptCount with
  | 0 => 10
  | 1 => 15
  | 2 => 20
  | _ => 30
  end.

(** ** The indicators service on candles

    The methods of [IndicatorsService] that take candles: the two wrappers
    [calculateEMA] and [calculateMACD], [calculateVWAP], [calculateLODHOD]
    and [calculateAllIndicators]. *)

Module CandleIndicators.
Section WithNumbers.
Context {T : Type} `{JsNumber T}.
Local Open Scope js_scope.

(** [calculateEMA(candles, period, timeframe)]; the time frame only
    reaches the log. *)
Definition calculateEMA (candles : list (Acquisition.candle (T := T)))
    (period : nat) : option T :=
  if bool_decide (length candles = 0%nat) then None
  else
    let closes := Acquisition.close <$> candles in
    if bool_decide (length closes < period)%nat then None
    else
      match IndicatorsService.calculateManualEMA closes period with
      | None => None
      | Some result => Some result
      end.

(** [calculateMACD(candles, timeframe, fastPeriod, slowPeriod, signalPeriod)]. *)
Definition calculateMACD (candles : list (Acquisition.candle (T := T)))
    (fastPeriod slowPeriod signalPeriod : nat)
    : option (IndicatorsService.macd_result (T := T)) :=
  if bool_decide (length candles = 0%nat) then None
  else
    let closes := Acquisition.close <$> candles in
    let minCandles := (slowPeriod + signalPeriod)%nat in
    if bool_decide (length closes < minCandles)%nat then None
    else
      match IndicatorsService.calculateManualMACD closes
              fastPeriod slowPeriod signalPeriod with
      | None => None
      | Some result => Some result
      end.

(** [(candle.high + candle.low + candle.close) / 3]. *)
Definition typicalPrice (candle : Acquisition.candle (T := T)) : T :=
  (Acquisition.high candle + Acquisition.low candle + Acquisition.close candle)
  / #3.

(** [candle.volume || 0]. *)
Definition volume_or_zero (candle : Acquisition.candle (T := T)) : T :=
  if num_falsy (Acquisition.volume candle) then #0
  else Acquisition.volume candle.

(** [volume > 0], the test that lets a candle count. *)
Definition has_volume (candle : Acquisition.candle (T := T)) : bool :=
  num_gt (volume_or_zero candle) #0.

(** The three accumulators of the loop of [calculateVWAP]. *)
Record vwap_sums := {
  totalVolume : T;
  totalVWAP : T;
  validCandles : nat;
}.

(** One turn of [for (const candle of candles)]. *)
Definition vwap_step (sums : vwap_sums) (candle : Acquisition.candle (T := T))
    : vwap_sums :=
  let typicalPrice := typicalPrice candle in
  let volume := volume_or_zero candle in
  if num_gt volume #0
  then {| totalVWAP := totalVWAP sums + typicalPrice * volume;
          totalVolume := totalVolume sums + volume;
          validCandles := S (validCandles sums) |}
  else sums.

(** [calculateVWAP(candles, timeframe)]. *)
Definition calculateVWAP (candles : list (Acquisition.candle (T := T)))
    : option T :=
  if bool_decide (length candles = 0%nat) then None
  else
    let sums :=
      foldl vwap_step
        {| totalVolume := #0; totalVWAP := #0; validCandles := 0 |} candles in
    if num_gt (totalVolume sums) #0
    then Some (totalVWAP sums / totalVolume sums)
    else None.

(** One turn of the loop of [calculateLODHOD], on the pair [(lod, hod)]. *)
Definition lodhod_step (extremes : T * T) (candle : Acquisition.candle (T := T))
    : T * T :=
  let lod :=
    if num_gt extremes.1 (Acquisition.low candle)
    then Acquisition.low candle else extremes.1 in
  let hod :=
    if num_gt (Acquisition.high candle) extremes.2
    then Acquisition.high candle else extremes.2 in
  (lod, hod).

(** [calculateLODHOD(candles)]: the object [{lod, hod}], as a pair. *)
Definition calculateLODHOD (candles : list (Acquisition.candle (T := T)))
    : option T * option T :=
  match candles with
  | [] => (None, None)
  | first :: _ =>
      let extremes :=
        foldl lodhod_step (Acquisition.low first, Acquisition.high first)
          candles in
      (Some extremes.1, Some extremes.2)
  end.

(** A result that is a number or [null], as a slot of the indicators
    object. *)
Definition number_or_null (result : option T) : jsnum T :=
  match result with
  | Some x => JNum x
  | None => JNull
  end.

Definition macd_or_null (result : option (IndicatorsService.macd_result (T := T)))
    : Conditions.macd_data T :=
  match result with
  | Some result =>
      Conditions.MacdObject
        {| Conditions.macd := JNum (IndicatorsService.macd result);
           Conditions.signal := JNum (IndicatorsService.signal result);
           Conditions.histogram := JNum (IndicatorsService.histogram result) |}
  | None => Conditions.MacdNull
  end.

(** The [indicators] object: fifteen slots. *)
Record indicator_values := {
  ema1m12 : jsnum T;
  ema1m18 : jsnum T;
  ema1m20 : jsnum T;
  ema1m26 : jsnum T;
  ema1m200 : jsnum T;
  ema5m12 : jsnum T;
  ema5m18 : jsnum T;
  ema5m20 : jsnum T;
  ema5m26 : jsnum T;
  ema5m200 : jsnum T;
  macd1m : Conditions.macd_data T;
  macd5m : Conditions.macd_data T;
  vwap1m : jsnum T;
  lod : jsnum T;
  hod : jsnum T;
}.

(** What [calculateAllIndicators] returns ([ticker], [timestamp] and
    [manualCalculation] label the result). *)
Record indicator_results := {
  indicators : indicator_values;
  lastCandle : option (Acquisition.candle (T := T));
  candleCounts : nat * nat;
}.

(** [calculateAllIndicators(ticker, candles1m, candles5m)].  Its two checks
    of the last timestamps, [validateDataFreshness] and
    [verifyTimeAlignment], only write to the log. *)
Definition calculateAllIndicators
    (candles1m candles5m : list (Acquisition.candle (T := T)))
    : indicator_results :=
  let ema1m12 := calculateEMA candles1m 12 in
  let ema1m18 := calculateEMA candles1m 18 in
  let ema1m20 := calculateEMA candles1m 20 in
  let ema1m26 := calculateEMA candles1m 26 in
  let ema1m200 := calculateEMA candles1m 200 in
  let macd1m := calculateMACD candles1m 12 26 9 in
  let vwap1m := calculateVWAP candles1m in
  let ema5m12 := calculateEMA candles5m 12 in
  let ema5m18 := calculateEMA candles5m 18 in
  let ema5m20 := calculateEMA candles5m 20 in
  let ema5m26 := calculateEMA candles5m 26 in
  let ema5m200 := calculateEMA candles5m 200 in
  let macd5m := calculateMACD candles5m 12 26 9 in
  let '(lod, hod) := calculateLODHOD candles1m in
  {| indicators :=
       {| ema1m12 := number_or_null ema1m12;
          ema1m18 := number_or_null ema1m18;
          ema1m20 := number_or_null ema1m20;
          ema1m26 := number_or_null ema1m26;
          ema1m200 := number_or_null ema1m200;
          ema5m12 := number_or_null ema5m12;
          ema5m18 := number_or_null ema5m18;
          ema5m20 := number_or_null ema5m20;
          ema5m26 := number_or_null ema5m26;
          ema5m200 := number_or_null ema5m200;
          macd1m := macd_or_null macd1m;
          macd5m := macd_or_null macd5m;
          vwap1m := number_or_null vwap1m;
          lod := number_or_null lod;
          hod := number_or_null hod |};
     lastCandle :=
       if bool_decide (0 < length candles1m)%nat
       then candles1m !! (length candles1m - 1)%nat
       else None;
     candleCounts := (length candles1m, length candles5m) |}.

(** The seven slots that the evaluators read. *)
Definition evaluator_bundle (values : indicator_values)
    : Conditions.IndicatorBundle T :=
  {| Conditions.ema1m18 := ema1m18 values;
     Conditions.ema1m200 := ema1m200 values;
     Conditions.ema5m18 := ema5m18 values;
     Conditions.ema5m200 := ema5m200 values;
     Conditions.macd1m := macd1m values;
     Conditions.macd5m := macd5m values;
     Conditions.vwap1m := vwap1m values |}.

(** [lastCandle] as the evaluators read it. *)
Definition candle_reference (lastCandle : option (Acquisition.candle (T := T)))
    : Conditions.candle_ref T :=
  match lastCandle with
  | Some candle => Conditions.CandleObject (JNum (Acquisition.close candle))
  | None => Conditions.CandleNull
  end.

(** [indicatorData.currentPrice = currentPrice]: the argument that
    [processAlertNormally] hands to [evaluateConditions]. *)
Definition indicatorData_of (results : indicator_results)
    (currentPrice : jsnum T) : Conditions.IndicatorData T :=
  {| Conditions.indicators := evaluator_bundle (indicators results);
     Conditions.lastCandle := candle_reference (lastCandle results);
     Conditions.currentPrice := currentPrice |}.

End WithNumbers.
Arguments vwap_sums T : clear implicits.
Arguments indicator_values T : clear implicits.
Arguments indicator_results T : clear implicits.
End CandleIndicators.

(** ** The Polygon service: its own EMA and MACD *)

Module PolygonService.
Section WithNumbers.
Context {T : Type} `{JsNumber T}.
Local Open Scope js_scope.

(** [calculateEMA(values, span, adjust)]: seeded with the first value;
    [adjust] is not read. *)
Definition calculateEMA (values : list T) (span : nat) : option T :=
  if bool_decide (length values = 0%nat) then None
  else if bool_decide (length values < span)%nat then None
  else
    let alpha := #2 / (#span + #1) in
    let ema := read values 0 in
    Some (for_range 1 (length values)
            (λ i ema, (alpha * read values i) + ((#1 - alpha) * ema))
            ema).

(** The three arrays that the loop of [calculateMACDWithEMA] fills. *)
Record macd_arrays := {
  macdLine_of : list T;
  fastEMAs : list T;
  slowEMAs : list T;
}.

(** The object that [calculateMACDWithEMA] returns ([timestamp] is the
    time of the call). *)
Record macd_with_ema := {
  macd : T;
  signal : T;
  histogram : T;
  lastClose : T;
  candleCount : nat;
  fastEMA : T;
  slowEMA : T;
  macdLine : list T;
  signalLine : T;
}.

(** [calculateMACDWithEMA(candles, timeframe, fastPeriod, slowPeriod,
    signalPeriod)].  The loop starts at [slowPeriod - 1]; for a slow period
    of 0 the source also runs the index -1, on the empty slice, which adds
    nothing. *)
Definition calculateMACDWithEMA (candles : list (Acquisition.candle (T := T)))
    (fastPeriod slowPeriod signalPeriod : nat) : option macd_with_ema :=
  if bool_decide (length candles = 0%nat) then None
  else
    let closes := Acquisition.close <$> candles in
    let minCandles := (slowPeriod + signalPeriod)%nat in
    if bool_decide (length closes < minCandles)%nat then None
    else
      let arrays :=
        for_range (slowPeriod - 1) (length closes)
          (λ i arrays,
             let fastEMA := calculateEMA (take (i + 1) closes) fastPeriod in
             let slowEMA := calculateEMA (take (i + 1) closes) slowPeriod in
             match fastEMA, slowEMA with
             | Some fastEMA, Some slowEMA =>
                 {| fastEMAs := fastEMAs arrays ++ [fastEMA];
                    slowEMAs := slowEMAs arrays ++ [slowEMA];
                    macdLine_of := macdLine_of arrays ++ [fastEMA - slowEMA] |}
             | _, _ => arrays
             end)
          {| macdLine_of := []; fastEMAs := []; slowEMAs := [] |} in
      let macdLine := macdLine_of arrays in
      if bool_decide (length macdLine = 0%nat) then None
      else
        match calculateEMA macdLine signalPeriod with
        | None => None
        | Some signalLine =>
            let latestMACD := read macdLine (length macdLine - 1) in
            let latestSignal := signalLine in
            let histogram := latestMACD - latestSignal in
            Some {| macd := latestMACD;
                    signal := latestSignal;
                    histogram := histogram;
                    lastClose := read closes (length closes - 1);
                    candleCount := length closes;
                    fastEMA := read (fastEMAs arrays) (length (fastEMAs arrays) - 1);
                    slowEMA := read (slowEMAs arrays) (length (slowEMAs arrays) - 1);
                    macdLine := macdLine;
                    signalLine := signalLine |}
        end.

(** The recursion of [calculateEMA] as a fold: from [ema], one step per
    later value. *)
Definition ema_first_step (span : nat) (ema value : T) : T :=
  let alpha := #2 / (#span + #1) in
  (alpha * value) + ((#1 - alpha) * ema).

Definition ema_first_seeded (values : list T) (span : nat) : T :=
  foldl (ema_first_step span) (read values 0) (drop 1 values).

(** The entry of the MACD line for the prefix that ends at index [i]. *)
Definition macd_entry (closes : list T) (fast slow i : nat) : T :=
  ema_first_seeded (take (S i) closes) fast
  - ema_first_seeded (take (S i) closes) slow.

End WithNumbers.
Arguments macd_arrays T : clear implicits.
Arguments macd_with_ema T : clear implicits.
End PolygonService.

(** ** The statistics report of the condition services *)

Module StatisticsReport.
Import Conditions.
Section WithNumbers.
Context {T : Type} `{JsNumber T}.
Local Open Scope js_scope.
Local Open Scope string_scope.
Local Open Scope list_scope.

(** A rate of the report: the number [0], or the text that [toFixed(1)]
    makes of a percentage (the rendering is left to the reader). *)
Inductive rate :=
| RateZero
| Fixed1 (x : T).

(** [total > 0 ? (part / total * 100).toFixed(1) : 0]. *)
Definition percentage (part total : nat) : rate :=
  if bool_decide (0 < total)%nat then Fixed1 (#part / #total * #100)
  else RateZero.

Record condition_report := {
  name : option string;
  passed : nat;
  failed : nat;
  total : nat;
  passRate : rate;
  failureRate : rate;
}.

Record report := {
  totalEvaluations : nat;
  totalPassed : nat;
  totalFailed : Z;
  overallPassRate : rate;
  conditions : list (string * condition_report);
}.

(** [Object.keys(this.statistics.conditionCounts)]: the keys that have a
    counter, in the order of the object literal that created the counters;
    [literals] lists the keys of the literals of the class in that
    order. *)
Definition counter_keys (literals : list string) (statistics : Statistics)
    : list string :=
  filter (λ key, key ∈ dom (conditionCounts statistics)) literals.

(** The entry that the [forEach] of [getStatistics] writes for one key. *)
Definition condition_entry (conditionNames : gmap string string)
    (statistics : Statistics) (conditionKey : string)
    : option (string * condition_report) :=
  counts ← conditionCounts statistics !! conditionKey;
  let total := (Conditions.passed counts + Conditions.failed counts)%nat in
  Some (conditionKey,
        {| name := conditionNames !! conditionKey;
           passed := Conditions.passed counts;
           failed := Conditions.failed counts;
           total := total;
           passRate := percentage (Conditions.passed counts) total;
           failureRate := percentage (Conditions.failed counts) total |}).

(** [getStatistics()]. *)
Definition getStatistics (conditionNames : gmap string string)
    (literals : list string) (statistics : Statistics) : report :=
  {| totalEvaluations := Conditions.totalEvaluations statistics;
     totalPassed := Conditions.totalPassed statistics;
     totalFailed :=
       (Z.of_nat (Conditions.totalEvaluations statistics)
        - Z.of_nat (Conditions.totalPassed statistics))%Z;
     overallPassRate :=
       percentage (Conditions.totalPassed statistics)
         (Conditions.totalEvaluations statistics);
     conditions :=
       omap (condition_entry conditionNames statistics)
         (counter_keys literals statistics) |}.

(** [sort((a, b) => b.failed - a.failed)]: the sort is stable, so an entry
    moves behind exactly the later entries that failed more often. *)
Fixpoint insert_by_failed (entry : condition_report)
    (sorted : list condition_report) : list condition_report :=
  match sorted with
  | [] => [entry]
  | next :: sorted =>
      if bool_decide (failed entry < failed next)%nat
      then next :: insert_by_failed entry sorted
      else entry :: next :: sorted
  end.

Definition sort_by_failed (entries : list condition_report)
    : list condition_report :=
  foldr insert_by_failed [] entries.

(** [getTopFailingConditions(limit)]. *)
Definition getTopFailingConditions (conditionNames : gmap string string)
    (literals : list string) (statistics : Statistics) (limit : nat)
    : list condition_report :=
  let stats := getStatistics conditionNames literals statistics in
  take limit (sort_by_failed (conditions stats).*2).

(** What the statistics are expected to say of a sequence of evaluated
    inputs, for a service whose rules give the results [values]: for one
    rule, the numbers of inputs on which it was true and false; overall,
    whether an input met all rules. *)
Definition rule_tally (values : IndicatorData T → list (string * bool))
    (key : string) (inputs : list (IndicatorData T)) : counts :=
  {| Conditions.passed :=
       length (filter (λ d, condition_value (values d) key = true) inputs);
     Conditions.failed :=
       length (filter (λ d, condition_value (values d) key = false) inputs) |}.

Definition all_rules_met (values : IndicatorData T → list (string * bool))
    (d : IndicatorData T) : bool :=
  bool_decide (count_passed (values d) = count_total (values d)).

(** The entry of the report for one rule after those inputs. *)
Definition tally_entry (conditionNames : gmap string string)
    (values : IndicatorData T → list (string * bool))
    (inputs : list (IndicatorData T)) (key : string)
    : string * condition_report :=
  let tally := rule_tally values key inputs in
  (key,
   {| name := conditionNames !! key;
      passed := Conditions.passed tally;
      failed := Conditions.failed tally;
      total := length inputs;
      passRate := percentage (Conditions.passed tally) (length inputs);
      failureRate := percentage (Conditions.failed tally) (length inputs) |}).

(** The object that [getConditionSummary] returns. *)
Record summary := {
  summary_score : string;
  allMet : bool;
  failedCount : nat;
  summary_failedConditions : list (failed_condition T);
}.

(** [getConditionSummary(evaluation)]. *)
Definition getConditionSummary (evaluation : Verdict T) : summary :=
  {| summary_score := score evaluation;
     allMet := allConditionsMet evaluation;
     failedCount := length (failedConditions evaluation);
     summary_failedConditions := failedConditions evaluation |}.

End WithNumbers.
Arguments rate T : clear implicits.
Arguments condition_report T : clear implicits.
Arguments report T : clear implicits.
Arguments summary T : clear implicits.

(** The keys of the counter literals of [conditions.js], constructor and
    [resetStatistics], in an order that agrees with both. *)
Definition simplified_literals : list string :=
  ["macd5mPositive"; "macd1mPositive"; "ema18Above200_1m";
   "ema18AboveVwap_1m"; "vwapAboveEma200_1m"; "closeAboveEma18_1m";
   "ema200AboveEma18_5m"; "priceAboveVwap"].

End StatisticsReport.

(** ** The server: processing one alert, and the route of processed alerts *)

Module Server.
Import Conditions.
Section WithNumbers.
Context {T : Type} `{JsNumber T}.
Local Open Scope js_scope.
Local Open Scope string_scope.
Local Open Scope list_scope.

(** The fields of an alert that decide how it is processed; the others
    are copied into the result. *)
Record alert := {
  close : jsnum T;
  price : jsnum T;
  alert_type : option string;
}.

(** A decimal literal with [digits] decimals.  The quotient of two
    integers is correctly rounded in doubles, so it is the double that the
    literal denotes. *)
Definition decimal (mantissa digits : nat) : T := #mantissa / #(10 ^ digits).

(** The [evaluation] of a processed alert: the verdict of
    [evaluateConditions], or one of the two literals that report 7/7. *)
Inductive evaluation :=
| Evaluated (verdict : Verdict T)
| ForcedValid
| ExampleValid.

(** [evaluation.allConditionsMet]. *)
Definition evaluation_allConditionsMet (evaluation : evaluation) : bool :=
  match evaluation with
  | Evaluated verdict => allConditionsMet verdict
  | ForcedValid | ExampleValid => true
  end.

(** [evaluation.score]. *)
Definition evaluation_score (evaluation : evaluation) : string :=
  match evaluation with
  | Evaluated verdict => score verdict
  | ForcedValid | ExampleValid => "7/7"
  end.

(** A processed alert. *)
Record processed := {
  processed_price : jsnum T;
  indicators : CandleIndicators.indicator_values T;
  processed_evaluation : evaluation;
  lastCandle : candle_ref T;
}.

(** [createValidExampleAlert(alert)]. *)
Definition createValidExampleAlert (alert : alert) : processed :=
  let currentPrice := to_number (price alert) in
  {| processed_price := price alert;
     indicators :=
       {| CandleIndicators.ema1m12 := JNum (currentPrice * decimal 99 2);
          CandleIndicators.ema1m18 := JNum (currentPrice * decimal 98 2);
          CandleIndicators.ema1m20 := JNum (currentPrice * decimal 97 2);
          CandleIndicators.ema1m26 := JNum (currentPrice * decimal 96 2);
          CandleIndicators.ema1m200 := JNum (currentPrice * decimal 85 2);
          CandleIndicators.ema5m12 := JUndefined;
          CandleIndicators.ema5m18 := JNum (currentPrice * decimal 99 2);
          CandleIndicators.ema5m20 := JNum (currentPrice * decimal 98 2);
          CandleIndicators.ema5m26 := JUndefined;
          CandleIndicators.ema5m200 := JNum (currentPrice * decimal 90 2);
          CandleIndicators.macd1m :=
            MacdObject {| macd := JNum (decimal 15 2);
                          signal := JNum (decimal 12 2);
                          histogram := JNum (decimal 3 2) |};
          CandleIndicators.macd5m :=
            MacdObject {| macd := JNum (decimal 25 2);
                          signal := JNum (decimal 20 2);
                          histogram := JNum (decimal 5 2) |};
          CandleIndicators.vwap1m := JNum (currentPrice * decimal 95 2);
          CandleIndicators.lod := JNum (currentPrice * decimal 92 2);
          CandleIndicators.hod := JNum (currentPrice * decimal 108 2) |};
     processed_evaluation := ExampleValid;
     lastCandle := CandleObject (price alert) |}.

(** What one run of [processAlertNormally] meets outside the program:
    whether [extractTicker] and [extractTimestamp] of the ChartsWatcher
    service return, whether [validateNASDAQ] resolves, what Polygon answers
    for each window, and whether the [toISOString] calls that log the last
    timestamps complete (they throw on an invalid date). *)
Record run := {
  extracts : bool;
  nasdaq_listed : bool;
  provider : nat → Acquisition.response (T := T);
  timestamps_print : bool;
}.

(** The second argument of [processAlert] and [processAlertNormally]:
    callers pass a boolean, and [batch.map(processAlert)] passes the index
    of the alert in its batch. *)
Inductive js_flag :=
| FlagBoolean (b : bool)
| FlagNumber (n : nat).

Definition flag_truthy (flag : js_flag) : bool :=
  match flag with
  | FlagBoolean b => b
  | FlagNumber n => negb (bool_decide (n = 0%nat))
  end.

(** [alert.close || alert.price || null]. *)
Definition alert_currentPrice (alert : alert) : jsnum T :=
  or_else (or_else (close alert) (price alert)) JNull.

(** [processAlertNormally(alert, validateNASDAQ)], threading the
    statistics of the conditions service; [None] is [null], which every
    exception also ends in. *)
Definition processAlertNormally (statistics : Statistics) (run : run)
    (alert : alert) (validateNASDAQ : js_flag) : Statistics * option processed :=
  if negb (extracts run) then (statistics, None)
  else
    let currentPrice := alert_currentPrice alert in
    if flag_truthy validateNASDAQ && negb (nasdaq_listed run)
    then (statistics, None)
    else
      match Acquisition.acquireCandles (provider run) with
      | None => (statistics, None)
      | Some (candles1m, candles5m, usedMarketHoursOnly) =>
          if negb (timestamps_print run) then (statistics, None)
          else
            let indicatorData :=
              CandleIndicators.calculateAllIndicators candles1m candles5m in
            let '(statistics, outcome) :=
              ConditionsService.evaluateConditions statistics
                (CandleIndicators.indicatorData_of indicatorData currentPrice) in
            match outcome with
            | Throw _ => (statistics, None)
            | Normal evaluation =>
                (statistics,
                 Some {| processed_price := currentPrice;
                         indicators := CandleIndicators.indicators indicatorData;
                         processed_evaluation := Evaluated evaluation;
                         lastCandle :=
                           CandleIndicators.candle_reference
                             (CandleIndicators.lastCandle indicatorData) |})
            end
      end.

(** [result.evaluation = {...}]: the literal of a forced valid alert. *)
Definition force_valid (result : processed) : processed :=
  {| processed_price := processed_price result;
     indicators := indicators result;
     processed_evaluation := ForcedValid;
     lastCandle := lastCandle result |}.

Definition is_type (alert : alert) (type : string) : bool :=
  bool_decide (alert_type alert = Some type).

(** [processAlert(alert, validateNASDAQ)].  [extracts0] says whether its
    own calls of [extractTicker] and [extractTimestamp] return; [first] and
    [second] are what the first and a second run of [processAlertNormally]
    meet. *)
Definition processAlert (statistics : Statistics) (extracts0 : bool)
    (first second : run) (alert : alert) (validateNASDAQ : js_flag)
    : Statistics * option processed :=
  if negb extracts0 then (statistics, None)
  else if is_type alert "valid_example_alert"
  then (statistics, Some (createValidExampleAlert alert))
  else if is_type alert "forced_valid_alert"
          || is_type alert "forced_valid_alert_fallback"
  then
    let '(statistics, result) :=
      processAlertNormally statistics first alert validateNASDAQ in
    match result with
    | Some result => (statistics, Some (force_valid result))
    | None => processAlertNormally statistics second alert validateNASDAQ
    end
  else processAlertNormally statistics first alert validateNASDAQ.

(** *** The route [/api/alerts/processed] *)

Definition BATCH_SIZE : nat := 5.

(** The [data] of the response. *)
Record processed_response := {
  valid : list processed;
  filtered : list processed;
  total : nat;
  processed_count : nat;
  skipped : Z;
}.

Section Route.

(** The result of the call [processAlert(alert, flag)] that the route makes
    for the alert at a position of [alertsToProcess] (the calls of a batch
    run concurrently; each position is processed once). *)
Variable processAlert_at : nat → alert → js_flag → option processed.

(** [batch.map(processAlert)]: [map] calls its function with the element
    and its index in [batch]. *)
Definition map_processAlert (i : nat) (batch : list alert)
    : list (option processed) :=
  imap (λ index alert, processAlert_at (i + index) alert (FlagNumber index)) batch.

(** [for (let i = 0; i < alertsToProcess.length; i += BATCH_SIZE)]. *)
Fixpoint batch_loop (fuel i : nat) (alertsToProcess : list alert)
    (results : list processed) : option (list processed) :=
  if negb (bool_decide (i < length alertsToProcess)%nat) then Some results
  else
    match fuel with
    | O => None
    | S fuel =>
        let batch := take BATCH_SIZE (drop i alertsToProcess) in
        let batchResults := map_processAlert i batch in
        batch_loop fuel (i + BATCH_SIZE) alertsToProcess
          (results ++ omap (λ result, result) batchResults)
    end.

(** The handler from [alertsToProcess] on; [None] would be a loop that
    does not end. *)
Definition processed_route (alertsToProcess : list alert)
    : option processed_response :=
  if bool_decide (length alertsToProcess = 0%nat)
  then Some {| valid := []; filtered := []; total := 0; processed_count := 0;
               skipped := 0 |}
  else
    results ← batch_loop (length alertsToProcess) 0 alertsToProcess [];
    let validAlerts :=
      List.filter (λ result, evaluation_allConditionsMet (processed_evaluation result))
        results in
    let filteredAlerts :=
      List.filter
        (λ result, negb (evaluation_allConditionsMet (processed_evaluation result)))
        results in
    Some {| valid := validAlerts;
            filtered := filteredAlerts;
            total := length results;
            processed_count := length results;
            skipped :=
              (Z.of_nat (length alertsToProcess) - Z.of_nat (length results))%Z |}.

(** What the route is expected to collect: the results that are not
    [null], in the order of [alertsToProcess], the alert at each position
    processed with its index in its batch of five as second argument. *)
Definition route_results (alertsToProcess : list alert) : list processed :=
  omap (λ result, result)
    (imap (λ position alert,
             processAlert_at position alert
               (FlagNumber (position mod BATCH_SIZE)))
          alertsToProcess).

End Route.

(** The same run with another answer of the NASDAQ check. *)
Definition with_nasdaq_listed (listed : bool) (r : run) : run :=
  {| extracts := extracts r;
     nasdaq_listed := listed;
     provider := provider r;
     timestamps_print := timestamps_print r |}.

(** The object that [createValidExampleAlert] returns, read as an
    argument of [evaluateConditions]: it has [indicators] and [lastCandle]
    and no [currentPrice]. *)
Definition example_data (alert : alert) : IndicatorData T :=
  let example := createValidExampleAlert alert in
  {| Conditions.indicators := CandleIndicators.evaluator_bundle (indicators example);
     Conditions.lastCandle := lastCandle example;
     Conditions.currentPrice := JUndefined |}.

End WithNumbers.
Arguments alert T : clear implicits.
Arguments evaluation T : clear implicits.
Arguments processed T : clear implicits.
Arguments run T : clear implicits.
Arguments processed_response T : clear implicits.
End Server.

(** ** The toplist service *)

Module ToplistService.
Section WithRows.

(** A row of the toplist, as ChartsWatcher sends it. *)
Context {row : Type}.

Definition configID : string := "68a9bbebb2c5294077710db4"%string.
Definition maxReconnectAttempts : nat := 5.

(** The fields of the service that its handlers change. *)
Record service := {
  ws : bool;
  toplistData : list row;
  isConnected : bool;
  reconnectAttempts : nat;
}.

(** The service as the constructor leaves it. *)
Definition new_service : service :=
  {| ws := false; toplistData := []; isConnected := false;
     reconnectAttempts := 0 |}.

(** A frame of the socket: text that [JSON.parse] rejects (or that has no
    ['@type'] to read), or a message by its type; an update carries its
    [config_id] and [rows], each possibly missing. *)
Inductive message :=
| Unparsable
| ToplistConfirm
| ToplistUpdate (config_id : option string) (rows : option (list row))
| UnknownType.

(** What happens to the service: the calls [connect()] and [disconnect()]
    and the events of the socket.  [disconnect()] first sends the
    unsubscription when the service counts as connected; [sent] says
    whether that [send] returns (it throws on a socket that is no longer
    open, and the exception leaves [disconnect()]). *)
Inductive event :=
| Connect
| Open
| Message (data : message)
| Close
| SocketError
| Disconnect (sent : bool).

(** [handleToplistUpdate(message)]; the listeners are called with the
    message, each inside a [try]. *)
Definition handleToplistUpdate (s : service) (config_id : option string)
    (rows : option (list row)) : service :=
  if negb (bool_decide (config_id = Some configID)) then s
  else {| ws := ws s; toplistData := default [] rows;
          isConnected := isConnected s;
          reconnectAttempts := reconnectAttempts s |}.

(** [handleMessage(message)] inside the [try] of the message handler. *)
Definition handleMessage (s : service) (data : message) : service :=
  match data with
  | ToplistUpdate config_id rows => handleToplistUpdate s config_id rows
  | Unparsable | ToplistConfirm | UnknownType => s
  end.

(** [handleReconnect()]: the new state, and whether a [connect()] was
    scheduled. *)
Definition handleReconnect (s : service) : service * bool :=
  if bool_decide (maxReconnectAttempts ≤ reconnectAttempts s) then (s, false)
  else ({| ws := ws s; toplistData := toplistData s;
           isConnected := isConnected s;
           reconnectAttempts := S (reconnectAttempts s) |}, true).

(** One event; the boolean says whether a reconnection was scheduled. *)
Definition handle (s : service) (e : event) : service * bool :=
  match e with
  | Connect =>
      ({| ws := true; toplistData := toplistData s;
          isConnected := isConnected s;
          reconnectAttempts := reconnectAttempts s |}, false)
  | Open =>
      ({| ws := ws s; toplistData := toplistData s; isConnected := true;
          reconnectAttempts := 0 |}, false)
  | Message data => (handleMessage s data, false)
  | Close =>
      handleReconnect
        {| ws := ws s; toplistData := toplistData s; isConnected := false;
           reconnectAttempts := reconnectAttempts s |}
  | SocketError => (s, false)
  | Disconnect sent =>
      if ws s
      then
        if isConnected s && negb sent then (s, false)
        else ({| ws := false; toplistData := toplistData s;
                 isConnected := false;
                 reconnectAttempts := reconnectAttempts s |}, false)
      else (s, false)
  end.

(** The service after a sequence of events, with the number of
    reconnections scheduled on the way. *)
Definition run (s : service) (events : list event) : service * nat :=
  foldl (λ '(s, scheduled) e,
           let '(s, again) := handle s e in
           (s, if again then S scheduled else scheduled))
        (s, 0) events.

(** An update that the service takes: one with its own [config_id]. *)
Definition is_own_update (e : event) : bool :=
  match e with
  | Message (ToplistUpdate config_id _) => bool_decide (config_id = Some configID)
  | _ => false
  end.

End WithRows.
Arguments service row : clear implicits.
Arguments message row : clear implicits.
Arguments event row : clear implicits.
End ToplistService.

(** ** The checks of the last timestamps

    [normalizeToTimeframe], [validateDataFreshness] and
    [verifyTimeAlignment] of the indicators service.  The two checks
    return nothing; what is kept here is which messages they log, and
    whether a [toISOString] of theirs throws. *)
Module DataChecks.

(** A [Date]: its time value in milliseconds, [None] when it is invalid. *)
Definition date : Type := option Z.

(** [new Date(t)]. *)
Definition new_Date (t : Z) : date :=
  if Acquisition.validDate t then Some t else None.

(** The time zone of the host: the offset of local time from UTC in
    milliseconds, found from a UTC time and from a local time. *)
Record zone := {
  local_offset : Z → Z;
  utc_offset : Z → Z;
}.

(** What [validateDataFreshness] logs: that it cannot validate, or for
    each series whether it warns that the data is old. *)
Inductive freshness :=
| CannotValidate
| Checked (stale1m stale5m : bool).

(** What [verifyTimeAlignment] logs. *)
Inductive alignment :=
| CannotVerify
| AlignmentIssue
| AlignmentVerified.

(** [Math.round((now - t) / (1000 * 60 * 60))]: the age in whole hours,
    halves rounded upwards. *)
Definition hoursSince (now t : Z) : Z :=
  ((2 * (now - t) + 1000 * 60 * 60) / (2 * (1000 * 60 * 60)))%Z.

Definition maxStaleHours : Z := 24.

(** The local time that [normalizeToTimeframe] reaches from the local
    time [local]: the start of the local hour plus the floored minutes. *)
Definition floored_local (local timeframe : Z) : Z :=
  (local - local mod 3600000
   + (local / 60000) mod 60 / timeframe * timeframe * 60000)%Z.

Section WithZone.
Context {T : Type} (host : zone).
Local Open Scope Z_scope.

Definition LocalTime (t : Z) : Z := t + local_offset host t.
Definition UTC (t : Z) : Z := t - utc_offset host t.

(** [date.getMinutes()] of a valid date. *)
Definition getMinutes (t : Z) : Z := (LocalTime t / 60000) mod 60.

(** [date.setMinutes(min, 0, 0)] on a valid date: the hour of the local
    day is kept, and the result is clipped to the range of dates. *)
Definition setMinutes (t min : Z) : date :=
  let local := LocalTime t in
  new_Date (UTC (local - local mod 3600000 + min * 60000)).

(** [normalizeToTimeframe(timestamp, timeframeMinutes)].  With a
    timeframe of 0 the floored minutes are [NaN]. *)
Definition normalizeToTimeframe (timestamp : date) (timeframeMinutes : nat)
    : date :=
  match timestamp with
  | None => None
  | Some t =>
      if bool_decide (timeframeMinutes = 0%nat) then None
      else
        let minutes := getMinutes t in
        let flooredMinutes :=
          minutes / Z.of_nat timeframeMinutes * Z.of_nat timeframeMinutes in
        setMinutes t flooredMinutes
  end.

(** [validateDataFreshness(ticker, candles1m, candles5m)] at the time
    [now]; [None] when [toISOString] throws on an invalid date. *)
Definition validateDataFreshness (now : Z)
    (candles1m candles5m : list (Acquisition.candle (T := T)))
    : option freshness :=
  match last candles1m, last candles5m with
  | Some c1, Some c5 =>
      match new_Date (Acquisition.timestamp c1),
            new_Date (Acquisition.timestamp c5) with
      | Some last1mTime, Some last5mTime =>
          let hoursSinceLast1m := hoursSince now last1mTime in
          let hoursSinceLast5m := hoursSince now last5mTime in
          Some (Checked (bool_decide (maxStaleHours < hoursSinceLast1m))
                        (bool_decide (maxStaleHours < hoursSinceLast5m)))
      | _, _ => None
      end
  | _, _ => Some CannotValidate
  end.

(** [verifyTimeAlignment(candles1m, candles5m)]; [None] when
    [toISOString] throws on an invalid date. *)
Definition verifyTimeAlignment
    (candles1m candles5m : list (Acquisition.candle (T := T)))
    : option alignment :=
  match last candles1m, last candles5m with
  | Some c1, Some c5 =>
      let last1mTime := new_Date (Acquisition.timestamp c1) in
      let last5mTime := new_Date (Acquisition.timestamp c5) in
      let normalized1mTime := normalizeToTimeframe last1mTime 5 in
      let normalized5mTime := normalizeToTimeframe last5mTime 5 in
      match last1mTime, last5mTime, normalized1mTime, normalized5mTime with
      | Some _, Some _, Some time1m, Some time5m =>
          let timeDiff := Z.abs (time1m - time5m) in
          let maxAllowedDiff := 60 * 1000 in
          if bool_decide (maxAllowedDiff < timeDiff)
          then Some AlignmentIssue
          else Some AlignmentVerified
      | _, _, _, _ => None
      end
  | _, _ => Some CannotVerify
  end.
End WithZone.

(** A zone at a fixed offset from UTC. *)
Definition fixed_zone (offset : Z) : zone :=
  {| local_offset := λ _, offset; utc_offset := λ _, offset |}.
End DataChecks.

Module TimeScenarios.
(** A candle of price 1 and volume 1 at the time [t]. *)
Definition flat_candle (t : Z) : Acquisition.candle (T := float) :=
  {| Acquisition.timestamp := t; Acquisition.open := 1%float;
     Acquisition.high := 1%float; Acquisition.low := 1%float;
     Acquisition.close := 1%float; Acquisition.volume := 1%float |}.
End TimeScenarios.

(** * Proofs *)

(** ** Loops *)

Section Loops.
Context {T : Type} `{JsNumber T}.

(** A loop that reads [values[i]] at each index of a range inside the
    array is a left fold over that slice. *)
Lemma foldl_seq_read {S : Type} (g : S → T → S) (values : list T) n :
  ∀ lo init, lo + n ≤ length values →
    foldl (λ s i, g s (read values i)) init (seq lo n)
    = foldl g init (take n (drop lo values)).
Proof.
  induction n as [|n IH]; intros lo init Hlen; [done|].
  destruct (lookup_lt_is_Some_2 values lo) as [x Hx]; [lia|].
  rewrite (drop_S _ _ _ Hx). cbn [seq foldl take].
  rewrite IH by lia. unfold read. by rewrite Hx.
Qed.

Lemma for_range_read {S : Type} (g : S → T → S) (values : list T) lo hi init :
  hi ≤ length values →
  for_range lo hi (λ i s, g s (read values i)) init
  = foldl g init (take (hi - lo) (drop lo values)).
Proof.
  intros Hhi. unfold for_range.
  destruct (decide (lo ≤ hi)) as [Hle|Hgt].
  - apply foldl_seq_read. lia.
  - by replace (hi - lo) with 0 by lia.
Qed.

(** A loop that pushes one element per index onto two arrays builds the
    two images of the index range. *)
Lemma foldl_push_pair {A B : Type} (f : nat → A) (g : nat → B)
    (body : nat → list A * list B → list A * list B) :
  (∀ i acc, body i acc = (acc.1 ++ [f i], acc.2 ++ [g i])) →
  ∀ l init,
    foldl (λ s i, body i s) init l = (init.1 ++ (f <$> l), init.2 ++ (g <$> l)).
Proof.
  intros Hbody l. induction l as [|i l IH]; intros [fs gs]; cbn.
  - by rewrite !app_nil_r.
  - rewrite IH, Hbody. cbn. by rewrite <- !app_assoc.
Qed.

Lemma foldl_push {A : Type} (f : nat → A) (body : nat → list A → list A) l :
  (∀ i, i ∈ l → ∀ acc, body i acc = acc ++ [f i]) →
  ∀ init, foldl (λ s i, body i s) init l = init ++ (f <$> l).
Proof.
  induction l as [|i l IH]; intros Hbody init; cbn.
  - by rewrite app_nil_r.
  - rewrite Hbody by set_solver.
    rewrite IH; [by rewrite <- app_assoc|].
    intros j Hj. apply Hbody. set_solver.
Qed.
End Loops.

(** ** The exponential moving average *)

Section Ema.
Context {T : Type} `{JsNumber T}.
Import IndicatorsService.
Local Open Scope js_scope.

(** The null results of [calculateManualEMA]. *)
Lemma calculateManualEMA_null (values : list T) period :
  length values = 0%nat ∨ (length values < period)%nat →
  calculateManualEMA values period = None.
Proof.
  intros Hnull. unfold calculateManualEMA.
  repeat case_bool_decide; try done; lia.
Qed.

(** On a non-empty array of at least [period] values the function runs
    its two loops, which compute the seeded recursion. *)
Lemma calculateManualEMA_value (values : list T) period :
  length values ≠ 0%nat → (period ≤ length values)%nat →
  calculateManualEMA values period = Some (ema_reference values period).
Proof.
  intros Hne Hlen. unfold calculateManualEMA.
  rewrite bool_decide_eq_false_2 by done.
  rewrite bool_decide_eq_false_2 by lia.
  f_equal. unfold ema_reference, ema_seed.
  rewrite (for_range_read (λ sum v, sum + v)) by done.
  rewrite (for_range_read (λ ema v, (v * (#2 / (#period + #1)))
                                    + (ema * (#1 - #2 / (#period + #1))))) by done.
  rewrite Nat.sub_0_r, drop_0.
  rewrite (take_ge (drop period values)) by (rewrite length_drop; lia).
  reflexivity.
Qed.

Lemma calculateManualEMA_is_Some (values : list T) period :
  is_Some (calculateManualEMA values period)
  ↔ length values ≠ 0%nat ∧ (period ≤ length values)%nat.
Proof.
  split.
  - intros [ema Hema]. unfold calculateManualEMA in Hema.
    repeat case_bool_decide; try done. lia.
  - intros [Hne Hlen]. rewrite calculateManualEMA_value by done. eauto.
Qed.

End Ema.

Section EmaClaims.
Import IndicatorsService Scenarios.

(** The scenario in exact arithmetic: the seed is 13/2 and every step
    moves the average up by one, to 69/2 after the fortieth close. *)
Lemma ema_seed_closes40_real : ema_seed closes40_real 12 = 6.5%R.
Proof.
  unfold ema_seed, closes40_real.
  cbn -[INR Rplus Rdiv]. rewrite !S_INR. cbn [INR]. lra.
Qed.

Lemma ema_reference_closes40_real : ema_reference closes40_real 12 = 34.5%R.
Proof.
  unfold ema_reference. rewrite ema_seed_closes40_real.
  unfold closes40_real, ema_step.
  cbn -[INR Rplus Rdiv Rmult Rminus]. rewrite !S_INR. cbn [INR]. lra.
Qed.

(** C1. For every array of numbers and every period >= 1 that the array
    covers, [calculateManualEMA] returns the reference value: the seed is
    the mean of the first [period] values and each later value makes one
    step [ema = value*a + ema*(1-a)] with [a = 2/(period+1)].  This holds
    in any arithmetic, so exactly in doubles; for [1, 2, ..., 40] and
    period 12 the seed is 6.5 and the result is within 1e-9 of the
    reference recursion: it is 34.5, the value of the recursion in real
    arithmetic. *)
Theorem calculateManualEMA_seeded_recursion :
  (∀ (T : Type) (N : JsNumber T) (values : list T) (period : nat),
     1 ≤ period → period ≤ length values →
     calculateManualEMA values period = Some (ema_reference values period))
  ∧ ema_seed closes40 12 = 6.5%float
  ∧ (∃ ema, calculateManualEMA closes40 12 = Some ema
            ∧ (PrimFloat.abs (ema - ema_reference closes40 12) <=? 1e-9)%float = true)
  ∧ calculateManualEMA closes40 12 = Some 34.5%float
  ∧ ema_seed closes40_real 12 = 6.5%R
  ∧ calculateManualEMA closes40_real 12 = Some 34.5%R.
Proof.
  split; [|split; [|split; [|split; [|split]]]].
  - intros T N values period Hperiod Hlen.
    apply calculateManualEMA_value; lia.
  - by vm_compute.
  - exists 34.5%float. by vm_compute.
  - by vm_compute.
  - apply ema_seed_closes40_real.
  - rewrite calculateManualEMA_value by (cbn; lia).
    f_equal. apply ema_reference_closes40_real.
Qed.

Lemma calculateManualEMA_seeded_recursion_witness :
  1 ≤ 2 ∧ 2 ≤ length [1; 2; 3]%float
  ∧ calculateManualEMA [1; 2; 3]%float 2
    = Some (ema_reference [1; 2; 3]%float 2).
Proof.
  split; [lia|]. split; [simpl; lia|].
  apply (proj1 calculateManualEMA_seeded_recursion); simpl; lia.
Defined.

(** C6, as worded, fails: the empty array with period 0 is [null] although
    its length is not below the period; two values of 1e308 overflow to
    Infinity; and period 0 on a non-empty array gives NaN. *)
Lemma ema_defined_finite_fails :
  ¬ ema_defined_finite [] 0
  ∧ ¬ ema_defined_finite [1e308; 1e308]%float 2
  ∧ ¬ ema_defined_finite [1]%float 0.
Proof.
  split; [|split]; intros [_ Hdefined];
    destruct Hdefined as (ema & Hema & Hfinite); cbn; try lia;
    vm_compute in Hema; try discriminate;
    injection Hema as <-; vm_compute in Hfinite; discriminate.
Qed.

(** C6, amended.  [calculateManualEMA] is [null] whenever the array is
    empty or shorter than the period, and in every other case it is
    defined and equal to the seeded recursion.  The value need not be
    finite in doubles: Infinity for two values of 1e308 with period 2,
    NaN for period 0. *)
Theorem calculateManualEMA_defined :
  (∀ (T : Type) (N : JsNumber T) (values : list T) (period : nat),
     (length values = 0 ∨ length values < period →
        calculateManualEMA values period = None)
     ∧ (length values ≠ 0 → period ≤ length values →
        calculateManualEMA values period = Some (ema_reference values period)))
  ∧ calculateManualEMA [1e308; 1e308]%float 2 = Some PrimFloat.infinity
  ∧ (∃ ema, calculateManualEMA [1]%float 0 = Some ema
            ∧ PrimFloat.is_nan ema = true).
Proof.
  split; [|split].
  - intros T N values period. split.
    + apply calculateManualEMA_null.
    + apply calculateManualEMA_value.
  - by vm_compute.
  - eexists. split; by vm_compute.
Qed.

Lemma calculateManualEMA_defined_witness :
  (length [1; 2]%float < 3
   ∧ calculateManualEMA [1; 2]%float 3 = None)
  ∧ (length [1; 2; 3]%float ≠ 0 ∧ 2 ≤ length [1; 2; 3]%float
     ∧ calculateManualEMA [1; 2; 3]%float 2
       = Some (ema_reference [1; 2; 3]%float 2)).
Proof.
  split.
  - split; [simpl; lia|].
    apply (proj1 calculateManualEMA_defined); simpl; lia.
  - split; [simpl; lia|]. split; [simpl; lia|].
    apply (proj1 calculateManualEMA_defined); simpl; lia.
Defined.



End EmaClaims.

(** ** MACD *)

Section OmapSeq.
Context {A : Type}.

Lemma omap_fmap_self (f : nat → option A) (l : list nat) :
  omap (λ val, val) (f <$> l) = omap f l.
Proof. induction l as [|i l IH]; cbn; [done|]. by rewrite IH. Qed.

(** Where [f] is defined exactly from index [k] on, [omap f] keeps the
    entries [k .. n-1]. *)
Lemma length_omap_from (f : nat → option A) k n :
  (∀ i, i < n → is_Some (f i) ↔ k ≤ i) →
  length (omap f (seq 0 n)) = n - k.
Proof.
  induction n as [|n IH]; intros Hf; [done|].
  rewrite seq_S, omap_app, length_app, IH by (intros; apply Hf; lia).
  cbn. destruct (f n) as [x|] eqn:Hfn; cbn.
  - assert (k ≤ n) by (apply Hf; [lia|]; by rewrite Hfn). lia.
  - assert (¬ k ≤ n); [|lia].
    intros Hk. apply Hf in Hk; [|lia]. rewrite Hfn in Hk. by destruct Hk.
Qed.

Lemma last_omap_seq (f : nat → option A) n x :
  f n = Some x → last (omap f (seq 0 (S n))) = Some x.
Proof.
  intros Hf. rewrite seq_S, omap_app. cbn. rewrite Hf. cbn.
  apply last_snoc.
Qed.

End OmapSeq.

Section Macd.
Context {T : Type} `{JsNumber T}.
Import IndicatorsService.

(** An entry of the MACD line is defined from the index at which the
    slower average has its [slow] values. *)
Lemma macd_line_entry_is_Some (closes : list T) fast slow i :
  1 ≤ fast → fast ≤ slow → i < length closes →
  is_Some (macd_line_entry closes fast slow i) ↔ slow - 1 ≤ i.
Proof.
  intros Hfast Hslow Hi. unfold macd_line_entry.
  pose proof (calculateManualEMA_is_Some (take (S i) closes) fast) as Hf.
  pose proof (calculateManualEMA_is_Some (take (S i) closes) slow) as Hs.
  rewrite length_take in Hf, Hs.
  destruct (calculateManualEMA (take (S i) closes) fast) as [emaFast|];
    destruct (calculateManualEMA (take (S i) closes) slow) as [emaSlow|].
  - split; [intros _|by eauto].
    destruct Hs as [Hs _]. destruct Hs; [by eauto|]. lia.
  - split; [by intros [? ?]|]. intros Hge.
    destruct Hs as [_ Hs]. destruct Hs as [? ?]; [lia|done].
  - split; [by intros [? ?]|]. intros Hge.
    destruct Hf as [_ Hf]. destruct Hf as [? ?]; [lia|done].
  - split; [by intros [? ?]|]. intros Hge.
    destruct Hs as [_ Hs]. destruct Hs as [? ?]; [lia|done].
Qed.

Lemma macd_line_entry_last (closes : list T) fast slow :
  1 ≤ fast → fast ≤ slow → slow ≤ length closes →
  macd_line_entry closes fast slow (length closes - 1)
  = Some (ema_reference closes fast - ema_reference closes slow)%js.
Proof.
  intros Hfast Hslow Hlen. unfold macd_line_entry.
  rewrite take_ge by lia.
  by rewrite !calculateManualEMA_value by lia.
Qed.

Lemma length_macd_line_reference (closes : list T) fast slow :
  1 ≤ fast → fast ≤ slow →
  length (macd_line_reference closes fast slow) = length closes - (slow - 1).
Proof.
  intros Hfast Hslow. apply length_omap_from.
  intros i Hi. by apply macd_line_entry_is_Some.
Qed.

(** The two arrays of prefix averages and the MACD line that the three
    loops of [calculateManualMACD] build. *)
Lemma macd_loops (closes : list T) fast slow :
  let arrays :=
    for_range 0 (length closes)
      (λ i '(emaFastValues, emaSlowValues),
         let closesSubset := take (i + 1) closes in
         let emaFastValues :=
           if bool_decide (fast ≤ length closesSubset)
           then emaFastValues ++ [calculateManualEMA closesSubset fast]
           else emaFastValues ++ [None] in
         let emaSlowValues :=
           if bool_decide (slow ≤ length closesSubset)
           then emaSlowValues ++ [calculateManualEMA closesSubset slow]
           else emaSlowValues ++ [None] in
         (emaFastValues, emaSlowValues))
      ([], []) in
  arrays = ((λ i, calculateManualEMA (take (S i) closes) fast) <$> seq 0 (length closes),
            (λ i, calculateManualEMA (take (S i) closes) slow) <$> seq 0 (length closes))
  ∧ for_range 0 (length closes)
      (λ i macdLineValues,
         if not_null (arrays.1 !! i) && not_null (arrays.2 !! i)
         then macdLineValues ++
                [Some (elem_number (arrays.1 !! i) - elem_number (arrays.2 !! i))%js]
         else macdLineValues ++ [None])
      []
    = macd_line_entry closes fast slow <$> seq 0 (length closes).
Proof.
  intros arrays.
  assert (arrays =
    ((λ i, calculateManualEMA (take (S i) closes) fast) <$> seq 0 (length closes),
     (λ i, calculateManualEMA (take (S i) closes) slow) <$> seq 0 (length closes)))
    as Harrays.
  { unfold arrays, for_range. rewrite Nat.sub_0_r.
    erewrite foldl_push_pair; [reflexivity|].
    intros i [fs ss]. rewrite Nat.add_1_r. cbn.
    repeat case_bool_decide; try done.
    all: rewrite ?(calculateManualEMA_null _ fast) by lia.
    all: rewrite ?(calculateManualEMA_null _ slow) by lia.
    all: done. }
  split; [done|]. rewrite Harrays. cbn [fst snd].
  unfold for_range. rewrite Nat.sub_0_r.
  erewrite foldl_push; [reflexivity|].
  intros i Hi acc. apply elem_of_seq in Hi.
  rewrite !list_lookup_fmap, lookup_seq_lt by lia. cbn.
  unfold macd_line_entry.
  by destruct (calculateManualEMA (take (S i) closes) fast),
              (calculateManualEMA (take (S i) closes) slow).
Qed.

(** [calculateManualMACD] on enough closes, for any periods with
    [1 <= fast <= slow]. *)
Lemma calculateManualMACD_value (closes : list T) fast slow signal :
  1 ≤ fast → fast ≤ slow → slow + signal ≤ length closes →
  calculateManualMACD closes fast slow signal
  = Some {| macd := (ema_reference closes fast - ema_reference closes slow)%js;
            signal := ema_reference (macd_line_reference closes fast slow) signal;
            histogram := ((ema_reference closes fast - ema_reference closes slow)
                          - ema_reference (macd_line_reference closes fast slow) signal)%js |}.
Proof.
  intros Hfast Hslow Hlen. unfold calculateManualMACD.
  rewrite bool_decide_eq_false_2 by lia.
  rewrite bool_decide_eq_false_2 by lia.
  destruct (macd_loops closes fast slow) as [Harrays Hline].
  cbv zeta in Harrays, Hline. rewrite Harrays in Hline |- *.
  cbn [fst snd] in Hline. rewrite Hline.
  rewrite length_fmap, length_seq, list_lookup_fmap, lookup_seq_lt by lia.
  cbn [fmap option_fmap option_map Nat.add].
  rewrite macd_line_entry_last by lia. cbn [not_null negb elem_number].
  rewrite omap_fmap_self. fold (macd_line_reference closes fast slow).
  rewrite bool_decide_eq_false_2
    by (rewrite length_macd_line_reference by done; lia).
  rewrite calculateManualEMA_value
    by (rewrite length_macd_line_reference by done; lia).
  reflexivity.
Qed.

Lemma calculateManualMACD_null (closes : list T) fast slow signal :
  length closes = 0 ∨ length closes < slow + signal →
  calculateManualMACD closes fast slow signal = None.
Proof.
  intros Hnull. unfold calculateManualMACD.
  repeat case_bool_decide; try done; lia.
Qed.
End Macd.

Section MacdClaims.
Import IndicatorsService.

(** C2. With the default periods 12, 26 and 9, [calculateManualMACD]
    returns [null] exactly when there are fewer than 35 closes.
    Otherwise it returns an object whose [macd] is the last entry of the
    MACD line (the entry at index [i] being [emaFast(closes[0..i]) -
    emaSlow(closes[0..i])] where both prefix averages exist), whose
    [signal] is the seeded 9-period EMA of the defined entries of the
    line, and whose [histogram] is [macd - signal]. *)
Theorem calculateManualMACD_default_periods :
  ∀ (T : Type) (N : JsNumber T) (closes : list T),
    (calculateManualMACD closes 12 26 9 = None ↔ length closes < 35)
    ∧ (35 ≤ length closes →
       ∃ macdLine signalLine,
         calculateManualMACD closes 12 26 9
         = Some {| macd := macdLine;
                   signal := signalLine;
                   histogram := (macdLine - signalLine)%js |}
         ∧ last (macd_line_reference closes 12 26) = Some macdLine
         ∧ macd_line_entry closes 12 26 (length closes - 1) = Some macdLine
         ∧ calculateManualEMA (macd_line_reference closes 12 26) 9
           = Some signalLine
         ∧ signalLine = ema_reference (macd_line_reference closes 12 26) 9).
Proof.
  intros T N closes.
  assert (35 ≤ length closes →
          ∃ macdLine signalLine,
            calculateManualMACD closes 12 26 9
            = Some {| macd := macdLine;
                      signal := signalLine;
                      histogram := (macdLine - signalLine)%js |}
            ∧ last (macd_line_reference closes 12 26) = Some macdLine
            ∧ macd_line_entry closes 12 26 (length closes - 1) = Some macdLine
            ∧ calculateManualEMA (macd_line_reference closes 12 26) 9
              = Some signalLine
            ∧ signalLine = ema_reference (macd_line_reference closes 12 26) 9)
    as Hvalue.
  { intros Hlen.
    pose proof (macd_line_entry_last closes 12 26) as Hlast.
    eexists _, _. split; [apply calculateManualMACD_value; lia|].
    repeat split.
    - unfold macd_line_reference.
      destruct (length closes) as [|n] eqn:Hn; [lia|].
      apply last_omap_seq. rewrite <- Hlast by lia. f_equal. lia.
    - apply Hlast; lia.
    - apply calculateManualEMA_value;
        rewrite length_macd_line_reference by lia; lia. }
  split; [|exact Hvalue]. split.
  - intros Hnull. destruct (decide (length closes < 35)) as [|Hge]; [done|].
    destruct Hvalue as (? & ? & Hsome & _); [lia|]. congruence.
  - intros Hlt. apply calculateManualMACD_null. lia.
Qed.

Lemma calculateManualMACD_default_periods_witness :
  35 ≤ length Scenarios.closes40
  ∧ ∃ macdLine signalLine,
      calculateManualMACD Scenarios.closes40 12 26 9
      = Some {| macd := macdLine;
                signal := signalLine;
                histogram := (macdLine - signalLine)%js |}
      ∧ last (macd_line_reference Scenarios.closes40 12 26) = Some macdLine
      ∧ macd_line_entry Scenarios.closes40 12 26
          (length Scenarios.closes40 - 1) = Some macdLine
      ∧ calculateManualEMA (macd_line_reference Scenarios.closes40 12 26) 9
        = Some signalLine
      ∧ signalLine
        = ema_reference (macd_line_reference Scenarios.closes40 12 26) 9.
Proof.
  split; [vm_compute; lia|].
  apply (proj2 (calculateManualMACD_default_periods _ _ Scenarios.closes40)).
  vm_compute; lia.
Defined.
End MacdClaims.

(** ** The two comparators *)

Section Comparators.
Import Conditions.

(** A missing operand makes either comparison false, in any arithmetic. *)
Lemma comparators_nullish {T : Type} `{JsNumber T} (a b : jsnum T) tolerance :
  is_nullish a || is_nullish b = true →
  isGreaterThan a b tolerance = false
  ∧ isGreaterThanWithTolerance a b tolerance = false.
Proof.
  intros Hnull. unfold isGreaterThan, isGreaterThanWithTolerance.
  by rewrite Hnull.
Qed.

(** In real arithmetic the strict comparison is the test [a - b > 1e-10]
    and the tolerant one the test [a - b > |b| p]. *)
Lemma isGreaterThan_real (a b : R) :
  isGreaterThan (JNum a) (JNum b) None = true ↔ (a - b > 1e-10)%R.
Proof.
  unfold isGreaterThan, EPSILON.
  cbn [is_nullish orb to_number default num_gt num_sub lit_1e_10 exact_real].
  destruct (Rlt_dec _ _); split; (done || lra).
Qed.




End Comparators.

(** ** Running statistics *)

Section StatisticsUpdate.
Import Conditions.

(** When every key has its counter, the [forEach] completes, and bumps the
    counter of each key once. *)
Lemma update_counts_normal keys conditions :
  NoDup keys →
  ∀ conditionCounts : gmap string counts,
    (∀ key, key ∈ keys → is_Some (conditionCounts !! key)) →
    ∃ conditionCounts',
      update_counts keys conditions conditionCounts
      = (conditionCounts', Normal ())
      ∧ ∀ key, conditionCounts' !! key
               = if decide (key ∈ keys)
                 then bump (condition_value conditions key)
                        <$> conditionCounts !! key
                 else conditionCounts !! key.
Proof.
  induction 1 as [|key0 keys Hfresh Hnodup IH]; intros cc Hready.
  - exists cc. split; [done|]. intros key. by rewrite decide_False by set_solver.
  - destruct (Hready key0) as [c Hc]; [set_solver|]. cbn. rewrite Hc.
    destruct (IH (<[key0 := bump (condition_value conditions key0) c]> cc))
      as (cc' & Hrun & Hlookup).
    { intros key Hkey. rewrite lookup_insert_ne by set_solver.
      apply Hready. set_solver. }
    exists cc'. split; [done|]. intros key. rewrite Hlookup.
    destruct (decide (key = key0)) as [->|Hne].
    + rewrite decide_False by done. rewrite decide_True by set_solver.
      by rewrite lookup_insert_eq, Hc.
    + rewrite lookup_insert_ne by done.
      destruct (decide (key ∈ keys)) as [Hin|Hout].
      * by rewrite decide_True by (by right).
      * by rewrite decide_False by (by intros [?|?]%elem_of_cons).
Qed.

(** The [forEach] never adds or removes a counter. *)
Lemma update_counts_dom keys conditions :
  ∀ conditionCounts : gmap string counts,
    dom (update_counts keys conditions conditionCounts).1 = dom conditionCounts.
Proof.
  induction keys as [|key0 keys IH]; intros cc; [done|]. cbn.
  destruct (cc !! key0) as [c|] eqn:Hc; [|done].
  rewrite IH, dom_insert_L.
  apply subseteq_union_1_L, singleton_subseteq_l, elem_of_dom. eauto.
Qed.

(** Whether it throws depends on which counters exist, not on their
    values nor on the results recorded. *)
Lemma update_counts_completion keys conditions conditions' :
  ∀ cc cc' : gmap string counts,
    dom cc = dom cc' →
    (update_counts keys conditions cc).2
    = (update_counts keys conditions' cc').2.
Proof.
  induction keys as [|key0 keys IH]; intros cc cc' Hdom; [done|]. cbn.
  destruct (cc !! key0) as [c|] eqn:Hc.
  - assert (key0 ∈ dom cc') as [c' Hc']%elem_of_dom
      by (rewrite <- Hdom; apply elem_of_dom; eauto).
    rewrite Hc'. apply IH. by rewrite !dom_insert_L, Hdom.
  - assert (cc' !! key0 = None) as ->; [|done].
    apply not_elem_of_dom. rewrite <- Hdom. by apply not_elem_of_dom.
Qed.

Lemma count_passed_le (conditions : list (string * bool)) :
  count_passed conditions ≤ count_total conditions.
Proof.
  unfold count_passed, count_total. rewrite !length_fmap.
  rewrite <- (length_fmap snd conditions). apply List.filter_length_le.
Qed.

Lemma count_passed_lt (conditions : list (string * bool)) key :
  (key, false) ∈ conditions →
  count_passed conditions < count_total conditions.
Proof.
  unfold count_passed, count_total. rewrite !length_fmap.
  induction conditions as [|[k v] conditions IH]; intros Hin; [set_solver|].
  apply elem_of_cons in Hin as [Heq|Hin].
  - injection Heq as <- <-. cbn.
    pose proof (List.filter_length_le (λ value : bool, value) conditions.*2) as Hle.
    rewrite length_fmap in Hle. lia.
  - specialize (IH Hin). cbn. destruct v; cbn; lia.
Qed.
End StatisticsUpdate.

(** ** The end of an evaluation *)

Section Conclude.
Import Conditions.
Context {T : Type} `{JsNumber T}.

Lemma filter_ext_elem {A : Type} (P Q : A → Prop)
    `{!∀ x, Decision (P x)} `{!∀ x, Decision (Q x)} (l : list A) :
  (∀ x, x ∈ l → P x ↔ Q x) → filter P l = filter Q l.
Proof.
  induction l as [|x l IH]; intros Hext; [done|].
  rewrite !filter_cons, IH by (intros y Hy; apply Hext; by right).
  destruct (decide (P x)) as [HP|HP], (decide (Q x)) as [HQ|HQ]; try done;
    exfalso.
  - apply HQ, Hext; [by left|done].
  - apply HP, Hext; [by left|done].
Qed.

Lemma condition_value_cons key value (conditions : list (string * bool)) key' :
  condition_value ((key, value) :: conditions) key'
  = if decide (key = key') then value else condition_value conditions key'.
Proof.
  unfold condition_value. cbn.
  destruct (decide (key = key')); [done|].
  destruct (list_find _ conditions) as [[i [k v]]|]; by cbn.
Qed.

Lemma condition_value_elem (conditions : list (string * bool)) key value :
  NoDup conditions.*1 → (key, value) ∈ conditions →
  condition_value conditions key = value.
Proof.
  induction conditions as [|[k v] conditions IH]; intros Hnodup Hin;
    [set_solver|].
  apply NoDup_cons in Hnodup as [Hfresh Hnodup].
  rewrite condition_value_cons.
  apply elem_of_cons in Hin as [Heq|Hin].
  - injection Heq as <- <-. by rewrite decide_True.
  - rewrite decide_False; [by apply IH|].
    intros <-. apply Hfresh. apply list_elem_of_fmap. by exists (k, value).
Qed.

(** The number of passed conditions is the number of keys that the
    [conditions] object maps to [true]. *)
Lemma count_passed_keys (conditions : list (string * bool)) :
  NoDup conditions.*1 →
  count_passed conditions
  = length (filter (λ key, condition_value conditions key = true) conditions.*1).
Proof.
  unfold count_passed.
  induction conditions as [|[k v] conditions IH]; intros Hnodup; [done|].
  apply NoDup_cons in Hnodup as [Hfresh Hnodup]. cbn in Hfresh.
  assert (filter (λ key, condition_value ((k, v) :: conditions) key = true)
            conditions.*1
          = filter (λ key, condition_value conditions key = true) conditions.*1)
    as Hsame.
  { apply filter_ext_elem. intros key Hkey.
    rewrite condition_value_cons, decide_False; [done|]. by intros <-. }
  cbn [fmap list_fmap snd fst List.filter].
  rewrite filter_cons, Hsame.
  assert (condition_value ((k, v) :: conditions) k = v) as Hk
    by (rewrite condition_value_cons; by rewrite decide_True).
  destruct (decide (condition_value ((k, v) :: conditions) k = true)) as [Hv|Hv];
    rewrite Hk in Hv; destruct v; try done; cbn; by rewrite IH.
Qed.

(** Each rule block keeps the failure records in step with the false
    conditions. *)
Lemma record_condition_failed key value failure
    (acc : list (string * bool) * list (failed_condition T)) :
  condition failure = key →
  condition <$> acc.2 = (filter (λ kv, kv.2 = false) acc.1).*1 →
  condition <$> (record_condition key value failure acc).2
  = (filter (λ kv, kv.2 = false) (record_condition key value failure acc).1).*1.
Proof.
  intros Hkey Hacc. unfold record_condition. cbn [fst snd].
  rewrite filter_app, fmap_app, <- Hacc.
  destruct value.
  - by rewrite app_nil_r.
  - rewrite fmap_app. cbn. by rewrite Hkey.
Qed.

(** With a counter for every key, the evaluation ends normally: it
    returns the verdict and has counted once everywhere. *)
Lemma conclude_normal (statistics : Statistics)
    (acc : list (string * bool) * list (failed_condition T)) debugInfo :
  NoDup acc.1.*1 →
  (∀ key, key ∈ acc.1.*1 → is_Some (conditionCounts statistics !! key)) →
  ∃ conditionCounts',
    conclude statistics acc debugInfo
    = ({| totalEvaluations := S (totalEvaluations statistics);
          totalPassed :=
            if allConditionsMet (make_verdict acc debugInfo)
            then S (totalPassed statistics) else totalPassed statistics;
          conditionCounts := conditionCounts' |},
       Normal (make_verdict acc debugInfo))
    ∧ ∀ key, conditionCounts' !! key
             = if decide (key ∈ acc.1.*1)
               then bump (condition_value acc.1 key)
                      <$> conditionCounts statistics !! key
               else conditionCounts statistics !! key.
Proof.
  intros Hnodup Hready.
  destruct (update_counts_normal acc.1.*1 acc.1 Hnodup _ Hready)
    as (cc' & Hrun & Hlookup).
  exists cc'. split; [|done].
  unfold conclude, updateStatistics. cbn [conditions allConditionsMet make_verdict].
  by rewrite Hrun.
Qed.

(** In any state, an evaluation counts itself, also when it throws, and
    keeps the set of counters. *)
Lemma conclude_counts (statistics : Statistics)
    (acc : list (string * bool) * list (failed_condition T)) debugInfo :
  totalEvaluations (conclude statistics acc debugInfo).1
  = S (totalEvaluations statistics)
  ∧ totalPassed (conclude statistics acc debugInfo).1
    = (if bool_decide (count_passed acc.1 = count_total acc.1)
       then S (totalPassed statistics) else totalPassed statistics)
  ∧ dom (conditionCounts (conclude statistics acc debugInfo).1)
    = dom (conditionCounts statistics).
Proof.
  unfold conclude, updateStatistics.
  pose proof (update_counts_dom
                (conditions (make_verdict acc debugInfo)).*1
                (conditions (make_verdict acc debugInfo))
                (conditionCounts statistics)) as Hdom.
  destruct (update_counts _ _ _) as [cc' outcome].
  by destruct outcome.
Qed.

(** How an evaluation completes depends on the statistics only through
    the set of counters. *)
Lemma conclude_completion (statistics statistics' : Statistics)
    (acc : list (string * bool) * list (failed_condition T)) debugInfo :
  dom (conditionCounts statistics) = dom (conditionCounts statistics') →
  (conclude statistics acc debugInfo).2 = (conclude statistics' acc debugInfo).2.
Proof.
  intros Hdom. unfold conclude, updateStatistics.
  pose proof (update_counts_completion
                (conditions (make_verdict acc debugInfo)).*1
                (conditions (make_verdict acc debugInfo))
                (conditions (make_verdict acc debugInfo))
                _ _ Hdom) as Hsame.
  destruct (update_counts _ _ (conditionCounts statistics)) as [cc1 o1],
           (update_counts _ _ (conditionCounts statistics')) as [cc2 o2].
  cbn in Hsame. subst o2. by destruct o1.
Qed.
End Conclude.

(** ** A service: rules followed by the common end *)

Section Service.
Import Conditions.
Context {T : Type} `{JsNumber T}.

Variable evaluate :
  Statistics → IndicatorData T → Statistics * completion (Verdict T).
Variable reset : Statistics → Statistics.
Variable values : IndicatorData T → list (string * bool).
Variable operands : IndicatorData T → list (string * (jsnum T * jsnum T)).
Variable keys : list string.

Hypothesis evaluate_conclude :
  ∀ d, ∃ failed debugInfo,
    (∀ st, evaluate st d = conclude st (values d, failed) debugInfo)
    ∧ condition <$> failed = (filter (λ kv, kv.2 = false) (values d)).*1.
Hypothesis values_keys : ∀ d, (values d).*1 = keys.
Hypothesis keys_nodup : NoDup keys.
Hypothesis operands_values :
  ∀ d key a b,
    (key, (a, b)) ∈ operands d →
    is_nullish a || is_nullish b = true →
    (key, false) ∈ values d.

Lemma make_verdict_invariant d failed debugInfo :
  condition <$> failed = (filter (λ kv, kv.2 = false) (values d)).*1 →
  verdict_invariant keys (operands d) (make_verdict (values d, failed) debugInfo).
Proof.
  intros Hfailed. unfold verdict_invariant.
  cbn [make_verdict conditions passedConditions totalConditions
       allConditionsMet failedConditions fst snd].
  assert (NoDup (values d).*1) as Hnodup by (by rewrite values_keys).
  split; [apply values_keys|].
  split; [by rewrite count_passed_keys, values_keys|].
  split; [unfold count_total; by rewrite values_keys|].
  split; [apply bool_decide_eq_true|].
  intros key a b Hin Hnull.
  pose proof (operands_values d key a b Hin Hnull) as Hfalse.
  pose proof (count_passed_lt _ _ Hfalse) as Hlt.
  split; [by apply condition_value_elem|].
  split.
  { intros Htrue.
    pose proof (condition_value_elem _ _ _ Hnodup Hfalse).
    pose proof (condition_value_elem _ _ _ Hnodup Htrue). congruence. }
  split.
  { rewrite Hfailed. apply list_elem_of_fmap. exists (key, false).
    split; [done|]. by apply list_elem_of_filter. }
  split; [done|]. apply bool_decide_eq_false. lia.
Qed.

(** In a state with a counter for every rule the evaluation returns. *)
Lemma service_returns st d :
  (∀ key, key ∈ keys → is_Some (conditionCounts st !! key)) →
  ∃ st' v,
    evaluate st d = (st', Normal v)
    ∧ verdict_invariant keys (operands d) v
    ∧ totalEvaluations st' = S (totalEvaluations st)
    ∧ totalPassed st'
      = (if allConditionsMet v then S (totalPassed st) else totalPassed st)
    ∧ (∀ key, key ∈ keys →
         ∃ c, conditionCounts st !! key = Some c
              ∧ conditionCounts st' !! key
                = Some (bump (condition_value (conditions v) key) c))
    ∧ ∀ st0 st0' v0, evaluate st0 d = (st0', Normal v0) → v0 = v.
Proof.
  intros Hready.
  destruct (evaluate_conclude d) as (failed & debugInfo & Heval & Hfailed).
  destruct (conclude_normal st (values d, failed) debugInfo)
    as (cc' & Hrun & Hlookup).
  { cbn. by rewrite values_keys. }
  { cbn. by rewrite values_keys. }
  eexists _, _. split; [by rewrite Heval, Hrun|].
  split; [by apply make_verdict_invariant|].
  split; [done|]. split; [done|]. split.
  - intros key Hkey. destruct (Hready key Hkey) as [c Hc].
    exists c. split; [done|]. cbn [conditionCounts]. rewrite Hlookup. cbn.
    by rewrite decide_True, Hc by (by rewrite values_keys).
  - intros st0 st0' v0 Hv0. rewrite Heval in Hv0.
    unfold conclude in Hv0.
    destruct (updateStatistics _ _ _) as [? []]; congruence.
Qed.


(** An evaluation keeps the statistics consistent. *)
Lemma service_consistent st d :
  consistent keys st → consistent keys (evaluate st d).1.
Proof.
  intros [Hpassed Hcounts].
  destruct (service_returns st d) as (st' & v & Heval & _ & Hte & Htp & Hcc & _).
  { intros key Hkey. destruct (Hcounts key Hkey) as (c & Hc & _). eauto. }
  rewrite Heval. cbn. split.
  - rewrite Hte, Htp. destruct (allConditionsMet v); lia.
  - intros key Hkey. destruct (Hcc key Hkey) as (c & Hc & Hc').
    destruct (Hcounts key Hkey) as (c0 & Hc0 & Hsum).
    assert (c0 = c) as -> by congruence.
    eexists. split; [done|]. rewrite Hte.
    destruct (condition_value (conditions v) key); cbn; lia.
Qed.

Lemma consistent_ready st :
  consistent keys st →
  ∀ key, key ∈ keys → is_Some (conditionCounts st !! key).
Proof. intros [_ Hcounts] key Hkey. destruct (Hcounts key Hkey) as (c & Hc & _). eauto. Qed.

(** Consistency along any sequence of requests, when a reset also
    leaves consistent statistics. *)
Lemma serve_consistent requests :
  (Reset ∈ requests → ∀ st, consistent keys (reset st)) →
  ∀ st, consistent keys st →
        consistent keys (serve_with evaluate reset st requests).
Proof.
  induction requests as [|r requests IH]; intros Hreset st Hst; [done|].
  cbn. apply IH; [intros; apply Hreset; set_solver|].
  destruct r as [d|]; [by apply service_consistent|].
  apply Hreset. set_solver.
Qed.

Lemma serve_evaluations (inputs : list (IndicatorData T)) :
  ∀ st, totalEvaluations (serve_with evaluate reset st (Evaluate <$> inputs))
        = totalEvaluations st + length inputs.
Proof.
  induction inputs as [|d inputs IH]; intros st; [cbn; lia|].
  change (serve_with evaluate reset st (Evaluate <$> d :: inputs))
    with (serve_with evaluate reset (evaluate st d).1 (Evaluate <$> inputs)).
  rewrite IH.
  destruct (evaluate_conclude d) as (failed & debugInfo & Heval & _).
  rewrite Heval. cbn [length].
  destruct (conclude_counts st (values d, failed) debugInfo) as [-> _]. lia.
Qed.

(** Whenever a verdict is returned it has the invariants. *)
Lemma service_verdict st d st' v :
  evaluate st d = (st', Normal v) → verdict_invariant keys (operands d) v.
Proof.
  destruct (evaluate_conclude d) as (failed & debugInfo & Heval & Hfailed).
  rewrite Heval. unfold conclude.
  destruct (updateStatistics _ _ _) as [? []]; [|done].
  intros [= _ <-]. by apply make_verdict_invariant.
Qed.


End Service.

(** ** The two services *)

Ltac by_rule H :=
  repeat (apply elem_of_cons in H as [H|H]); [..|by apply elem_of_nil in H].

Section Services.
Import Conditions.
Context {T : Type} `{JsNumber T}.

Lemma simplified_conclude (d : IndicatorData T) :
  ∃ failed debugInfo,
    (∀ st, ConditionsService.evaluateConditions st d
           = conclude st (ConditionsService.rule_values d, failed) debugInfo)
    ∧ condition <$> failed
      = (filter (λ kv, kv.2 = false) (ConditionsService.rule_values d)).*1.
Proof.
  eexists _, _. split; [intros st; reflexivity|].
  unfold ConditionsService.rule_values. cbv [record_condition fst snd].
  repeat match goal with
         | |- context [if ?value then _ else _] => destruct value
         end; reflexivity.
Qed.

Lemma full_conclude (d : IndicatorData T) :
  ∃ failed debugInfo,
    (∀ st, PolygonConditionsService.evaluateConditions st d
           = conclude st (PolygonConditionsService.rule_values d, failed) debugInfo)
    ∧ condition <$> failed
      = (filter (λ kv, kv.2 = false) (PolygonConditionsService.rule_values d)).*1.
Proof.
  eexists _, _. split; [intros st; reflexivity|].
  unfold PolygonConditionsService.rule_values. cbv [record_condition fst snd].
  repeat match goal with
         | |- context [if ?value then _ else _] => destruct value
         end; reflexivity.
Qed.

Lemma simplified_keys (d : IndicatorData T) :
  (ConditionsService.rule_values d).*1 = ConditionsService.rule_keys.
Proof. reflexivity. Qed.

Lemma full_keys (d : IndicatorData T) :
  (PolygonConditionsService.rule_values d).*1 = PolygonConditionsService.rule_keys.
Proof. reflexivity. Qed.

Lemma simplified_keys_nodup : NoDup ConditionsService.rule_keys.
Proof. apply (bool_decide_unpack _). by vm_compute. Qed.

Lemma full_keys_nodup : NoDup PolygonConditionsService.rule_keys.
Proof. apply (bool_decide_unpack _). by vm_compute. Qed.

Lemma simplified_operands (d : IndicatorData T) key a b :
  (key, (a, b)) ∈ ConditionsService.rule_operands d →
  is_nullish a || is_nullish b = true →
  (key, false) ∈ ConditionsService.rule_values d.
Proof.
  intros Hin Hnull. unfold ConditionsService.rule_operands in Hin.
  destruct (comparators_nullish a b None Hnull) as [Hstrict Htolerant].
  unfold ConditionsService.rule_values.
  by_rule Hin; injection Hin as -> -> ->;
    rewrite ?Hstrict, ?Htolerant; set_solver.
Qed.

Lemma full_operands (d : IndicatorData T) key a b :
  (key, (a, b)) ∈ PolygonConditionsService.rule_operands d →
  is_nullish a || is_nullish b = true →
  (key, false) ∈ PolygonConditionsService.rule_values d.
Proof.
  intros Hin Hnull. unfold PolygonConditionsService.rule_operands in Hin.
  destruct (comparators_nullish a b None Hnull) as [Hstrict Htolerant].
  unfold PolygonConditionsService.rule_values.
  by_rule Hin; injection Hin as -> -> ->;
    rewrite ?Hstrict, ?Htolerant; set_solver.
Qed.

Lemma simplified_initial_consistent :
  consistent ConditionsService.rule_keys ConditionsService.initial_statistics.
Proof.
  split; [done|]. intros key Hkey. exists zero_counts.
  by_rule Hkey; subst key; split; done || by vm_compute.
Qed.

Lemma full_initial_consistent :
  consistent PolygonConditionsService.rule_keys
    PolygonConditionsService.initial_statistics.
Proof.
  split; [done|]. intros key Hkey. exists zero_counts.
  by_rule Hkey; subst key; split; done || by vm_compute.
Qed.

(** The statistics of the three-rule service are consistent after any
    evaluations, as long as no reset intervenes. *)
Lemma simplified_serve_consistent (inputs : list (IndicatorData T)) :
  consistent ConditionsService.rule_keys
    (ConditionsService.serve ConditionsService.initial_statistics
       (Evaluate <$> inputs)).
Proof.
  apply (serve_consistent _ _ _ ConditionsService.rule_operands _
           simplified_conclude simplified_keys simplified_keys_nodup
           simplified_operands).
  - intros Hreset. apply list_elem_of_fmap in Hreset as (d & Hd & _). done.
  - apply simplified_initial_consistent.
Qed.

(** Those of the seven-rule service are consistent after any requests. *)
Lemma full_serve_consistent (requests : list (request T)) :
  consistent PolygonConditionsService.rule_keys
    (PolygonConditionsService.serve PolygonConditionsService.initial_statistics
       requests).
Proof.
  apply (serve_consistent _ _ _ PolygonConditionsService.rule_operands _
           full_conclude full_keys full_keys_nodup full_operands).
  - intros _ st. apply full_initial_consistent.
  - apply full_initial_consistent.
Qed.

(** The slip in [resetStatistics] of [conditions.js]: it installs the
    counters of the seven-rule service, so [priceAboveVwap] has none, and
    every evaluation after a reset throws in [updateStatistics]. *)
Lemma simplified_reset_then_throws (st : Statistics) (d : IndicatorData T) :
  (ConditionsService.evaluateConditions (ConditionsService.resetStatistics st) d).2
  = Throw TypeError.
Proof.
  destruct (simplified_conclude d) as (failed & debugInfo & Heval & _).
  rewrite Heval. unfold conclude, updateStatistics.
  cbn [make_verdict conditions allConditionsMet fst snd].
  unfold ConditionsService.rule_values, ConditionsService.resetStatistics.
  cbn [fmap list_fmap fst conditionCounts].
  generalize (condition_value
    [("macd5mPositive",
      isGreaterThan (getMACDHistogram (macd5m (indicators d))) (JNum #0%js) None);
     ("ema18Above200_1m",
      isGreaterThanWithTolerance (ema1m18 (indicators d))
        (ema1m200 (indicators d)) None);
     ("priceAboveVwap",
      isGreaterThanWithTolerance (closePrice_of d) (vwap1m (indicators d)) None)]).
  intros value. by vm_compute.
Qed.
End Services.

Section EvaluatorClaims.
Import Conditions.

(** C4. Whatever the indicator bundle and price, the verdict that
    [evaluateConditions] returns has [passedConditions] equal to the number
    of rule keys that [conditions] maps to [true], [totalConditions] equal
    to the number of rules of the service (three, or seven),
    [allConditionsMet] true exactly when the two are equal, and every rule
    with a [null] or missing operand false, with its failure record, and
    not counted.  This holds of every verdict returned, in any state; and a
    verdict is returned by the three-rule service after any evaluations
    since its construction, by the seven-rule one after any evaluations and
    resets. *)
Theorem evaluateConditions_verdict_invariant :
  ∀ (T : Type) (N : JsNumber T) (d : IndicatorData T),
    (∀ st st' v,
       ConditionsService.evaluateConditions st d = (st', Normal v) →
       verdict_invariant ConditionsService.rule_keys
         (ConditionsService.rule_operands d) v
       ∧ totalConditions v = 3)
    ∧ (∀ st st' v,
         PolygonConditionsService.evaluateConditions st d = (st', Normal v) →
         verdict_invariant PolygonConditionsService.rule_keys
           (PolygonConditionsService.rule_operands d) v
         ∧ totalConditions v = 7)
    ∧ (∀ inputs : list (IndicatorData T),
         ∃ st' v,
           ConditionsService.evaluateConditions
             (ConditionsService.serve ConditionsService.initial_statistics
                (Evaluate <$> inputs)) d
           = (st', Normal v))
    ∧ (∀ requests : list (request T),
         ∃ st' v,
           PolygonConditionsService.evaluateConditions
             (PolygonConditionsService.serve
                PolygonConditionsService.initial_statistics requests) d
           = (st', Normal v)).
Proof.
  intros T N d. split; [|split; [|split]].
  - intros st st' v Heval.
    pose proof (service_verdict _ _ ConditionsService.rule_operands _
                  simplified_conclude simplified_keys simplified_keys_nodup
                  simplified_operands st d st' v Heval) as Hv.
    split; [done|]. by destruct Hv as (_ & _ & -> & _).
  - intros st st' v Heval.
    pose proof (service_verdict _ _ PolygonConditionsService.rule_operands _
                  full_conclude full_keys full_keys_nodup full_operands
                  st d st' v Heval) as Hv.
    split; [done|]. by destruct Hv as (_ & _ & -> & _).
  - intros inputs.
    destruct (service_returns _ _ ConditionsService.rule_operands _
                simplified_conclude simplified_keys simplified_keys_nodup
                simplified_operands
                (ConditionsService.serve ConditionsService.initial_statistics
                   (Evaluate <$> inputs)) d)
      as (st' & v & Heval & _).
    { apply consistent_ready, simplified_serve_consistent. }
    by exists st', v.
  - intros requests.
    destruct (service_returns _ _ PolygonConditionsService.rule_operands _
                full_conclude full_keys full_keys_nodup full_operands
                (PolygonConditionsService.serve
                   PolygonConditionsService.initial_statistics requests) d)
      as (st' & v & Heval & _).
    { apply consistent_ready, full_serve_consistent. }
    by exists st', v.
Qed.

Lemma evaluateConditions_verdict_invariant_witness :
  ∃ st' v,
    ConditionsService.evaluateConditions ConditionsService.initial_statistics
      (Scenarios.data_with_price JNull) = (st', Normal v)
    ∧ verdict_invariant ConditionsService.rule_keys
        (ConditionsService.rule_operands (Scenarios.data_with_price JNull)) v
    ∧ totalConditions v = 3.
Proof.
  pose proof (evaluateConditions_verdict_invariant float binary64
                (Scenarios.data_with_price JNull))
    as (Hinvariant & _ & Hreturns & _).
  destruct (Hreturns []) as (st' & v & Heval).
  exists st', v. split; [exact Heval|].
  exact (Hinvariant _ _ _ Heval).
Defined.


(** C9. From a new service and after any sequence of evaluations without
    a reset, every rule has a counter whose [passed] and [failed] add up
    to [totalEvaluations], [totalPassed] does not exceed
    [totalEvaluations], and one more evaluation returns and bumps the
    counter of every rule exactly once, on the side of its result. *)
Theorem statistics_consistent :
  ∀ (T : Type) (N : JsNumber T) (inputs : list (IndicatorData T)),
    (let st := ConditionsService.serve ConditionsService.initial_statistics
                 (Evaluate <$> inputs) in
     totalEvaluations st = length inputs
     ∧ totalPassed st ≤ totalEvaluations st
     ∧ (∀ key, key ∈ ConditionsService.rule_keys →
          ∃ c, conditionCounts st !! key = Some c
               ∧ passed c + failed c = totalEvaluations st)
     ∧ ∀ d, ∃ st' v,
         ConditionsService.evaluateConditions st d = (st', Normal v)
         ∧ ∀ key, key ∈ ConditionsService.rule_keys →
             ∃ c, conditionCounts st !! key = Some c
                  ∧ conditionCounts st' !! key
                    = Some (bump (condition_value (conditions v) key) c))
    ∧ (let st := PolygonConditionsService.serve
                   PolygonConditionsService.initial_statistics
                   (Evaluate <$> inputs) in
       totalEvaluations st = length inputs
       ∧ totalPassed st ≤ totalEvaluations st
       ∧ (∀ key, key ∈ PolygonConditionsService.rule_keys →
            ∃ c, conditionCounts st !! key = Some c
                 ∧ passed c + failed c = totalEvaluations st)
       ∧ ∀ d, ∃ st' v,
           PolygonConditionsService.evaluateConditions st d = (st', Normal v)
           ∧ ∀ key, key ∈ PolygonConditionsService.rule_keys →
               ∃ c, conditionCounts st !! key = Some c
                    ∧ conditionCounts st' !! key
                      = Some (bump (condition_value (conditions v) key) c)).
Proof.
  intros T N inputs. split.
  - pose proof (simplified_serve_consistent inputs) as Hconsistent.
    pose proof Hconsistent as [Hpassed Hcounts].
    split.
    { unfold ConditionsService.serve.
      by rewrite (serve_evaluations _ _ ConditionsService.rule_values
                    simplified_conclude). }
    split; [done|]. split; [done|]. intros d.
    destruct (service_returns _ _ ConditionsService.rule_operands _
                simplified_conclude simplified_keys simplified_keys_nodup
                simplified_operands _ d
                (consistent_ready _ _ Hconsistent))
      as (st' & v & Heval & _ & _ & _ & Hbump & _).
    by exists st', v.
  - pose proof (full_serve_consistent (Evaluate <$> inputs)) as Hconsistent.
    pose proof Hconsistent as [Hpassed Hcounts].
    split.
    { unfold PolygonConditionsService.serve.
      by rewrite (serve_evaluations _ _ PolygonConditionsService.rule_values
                    full_conclude). }
    split; [done|]. split; [done|]. intros d.
    destruct (service_returns _ _ PolygonConditionsService.rule_operands _
                full_conclude full_keys full_keys_nodup full_operands _ d
                (consistent_ready _ _ Hconsistent))
      as (st' & v & Heval & _ & _ & _ & Hbump & _).
    by exists st', v.
Qed.
Lemma statistics_consistent_witness :
  "priceAboveVwap" ∈ ConditionsService.rule_keys
  ∧ ∃ c,
      conditionCounts
        (ConditionsService.serve ConditionsService.initial_statistics
           (Evaluate <$> [Scenarios.data_with_price JNull]))
      !! "priceAboveVwap" = Some c
      ∧ passed c + failed c
        = totalEvaluations
            (ConditionsService.serve ConditionsService.initial_statistics
               (Evaluate <$> [Scenarios.data_with_price JNull])).
Proof.
  assert ("priceAboveVwap" ∈ ConditionsService.rule_keys) as Hkey
    by (unfold ConditionsService.rule_keys; do 2 right; left).
  split; [exact Hkey|].
  pose proof (proj1 (statistics_consistent float binary64
                       [Scenarios.data_with_price JNull]))
    as (_ & _ & Hcounts & _).
  exact (Hcounts _ Hkey).
Defined.
End EvaluatorClaims.

Section PriceClaims.
Import Conditions.



End PriceClaims.

(** ** Candle acquisition *)

Section AcquisitionLoop.
Import Acquisition.
Context {T : Type}.

(** One round of the loop that fetched a non-empty one-minute array. *)
Lemma acquisition_loop_round (provider : nat → response (T := T))
    fuel daysToFetch attemptCount current fetched1m fetched5m :
  attemptCount < maxAttempts →
  provider (daysToFetch * 24) = Some (Some fetched1m, fetched5m) →
  fetched1m ≠ [] →
  acquisition_loop provider (S fuel) daysToFetch attemptCount current
  = if filtered_test fetched1m fetched5m
    then Exited {| candles1m := Some (List.filter inMarketHours fetched1m);
                   candles5m :=
                     Some (List.filter inMarketHours (default [] fetched5m));
                   usedMarketHoursOnly := true |}
    else if bool_decide (200 ≤ length fetched1m)
            && bool_decide (attemptCount = maxAttempts - 1)
    then Exited {| candles1m := Some fetched1m;
                   candles5m := fetched5m;
                   usedMarketHoursOnly := false |}
    else acquisition_loop provider fuel
           (nextDaysToFetch daysToFetch) (S attemptCount)
           {| candles1m := Some fetched1m;
              candles5m := fetched5m;
              usedMarketHoursOnly := usedMarketHoursOnly current |}.
Proof.
  intros Hattempt Hfetch Hne. cbn [acquisition_loop].
  rewrite bool_decide_eq_true_2 by done. cbn [negb].
  rewrite Hfetch. destruct fetched1m as [|c fetched1m]; [done|].
  unfold filtered_test. by destruct fetched5m.
Qed.

(** The loop stops within its four attempts. *)
Lemma acquisition_loop_fuel (provider : nat → response (T := T)) fuel :
  ∀ daysToFetch attemptCount current,
    maxAttempts ≤ fuel + attemptCount →
    acquisition_loop provider fuel daysToFetch attemptCount current ≠ OutOfFuel.
Proof.
  induction fuel as [|fuel IH]; intros days attempt current Hfuel;
    unfold maxAttempts in *.
  - cbn [acquisition_loop]. unfold maxAttempts.
    by rewrite bool_decide_eq_false_2 by lia.
  - cbn [acquisition_loop]. destruct (bool_decide (attempt < maxAttempts)); [|done].
    unfold maxAttempts in *.
    cbn [negb].
    destruct (provider (days * 24)) as [[[[|c fetched1m]|] fetched5m]|]; try done.
    destruct (_ && _); [done|]. destruct (_ && _); [done|].
    apply IH. lia.
Qed.

Lemma acquisition_loop_terminates (provider : nat → response (T := T)) :
  acquisition_loop provider maxAttempts 10 0
    {| candles1m := None; candles5m := None; usedMarketHoursOnly := false |}
  ≠ OutOfFuel.
Proof. apply acquisition_loop_fuel. lia. Qed.

(** On the path of the claim the loop leaves with the unfiltered arrays
    of the fourth round. *)
Lemma acquisition_loop_final (provider : nat → response (T := T))
    fetched1m fetched5m :
  final_attempt_unfiltered provider fetched1m fetched5m →
  acquisition_loop provider maxAttempts 10 0
    {| candles1m := None; candles5m := None; usedMarketHoursOnly := false |}
  = Exited {| candles1m := Some fetched1m;
              candles5m := fetched5m;
              usedMarketHoursOnly := false |}.
Proof.
  intros ((a1 & a5 & Ha & Hane & Hatest) & (b1 & b5 & Hb & Hbne & Hbtest)
          & (c1 & c5 & Hc & Hcne & Hctest) & Hlast & Htest & Hlen).
  assert (fetched1m ≠ []) as Hne by (intros ->; cbn in Hlen; lia).
  assert (0 < maxAttempts ∧ 1 < maxAttempts ∧ 2 < maxAttempts ∧ 3 < maxAttempts)
    as (H0 & H1 & H2 & H3) by (unfold maxAttempts; lia).
  change maxAttempts with 4 at 1.
  rewrite (acquisition_loop_round provider 3 10 0 _ a1 a5 H0 Ha Hane).
  rewrite Hatest, andb_false_r.
  change (nextDaysToFetch 10) with 15.
  rewrite (acquisition_loop_round provider 2 15 1 _ b1 b5 H1 Hb Hbne).
  rewrite Hbtest, andb_false_r.
  change (nextDaysToFetch 15) with 20.
  rewrite (acquisition_loop_round provider 1 20 2 _ c1 c5 H2 Hc Hcne).
  rewrite Hctest, andb_false_r.
  change (nextDaysToFetch 20) with 30.
  rewrite (acquisition_loop_round provider 0 30 3 _ fetched1m fetched5m H3 Hlast Hne).
  by rewrite Htest, bool_decide_eq_true_2 by done.
Qed.
End AcquisitionLoop.

Section AcquisitionClaims.
Import Acquisition Scenarios.

Lemma night_final_attempt :
  final_attempt_unfiltered night_provider night1m (Some night5m).
Proof.
  assert (round_retries (night_provider 0)) as Hround.
  { exists night1m, (Some night5m). split; [done|]. split; by vm_compute. }
  repeat split; try exact Hround; by vm_compute.
Qed.

(** C3, as worded, fails: 200 one-minute candles outside the session on
    every attempt are enough for the unfiltered path of the fourth
    attempt, yet with ten five-minute candles the guard after the loop
    returns [null]. *)
Lemma unfiltered_acceptance_unconditional_fails :
  ¬ unfiltered_acceptance_unconditional (T := float).
Proof.
  intros Hclaim.
  destruct (Hclaim night_provider night1m (Some night5m) night_final_attempt)
    as [accepted5m Haccepted].
  vm_compute in Haccepted. discriminate.
Qed.

(** C3, amended.  If on the fourth attempt the session-filtered test fails
    and the unfiltered one-minute array has at least 200 candles, the
    unfiltered arrays are accepted exactly when the unfiltered
    five-minute array exists and has at least 50 candles; otherwise the
    ticker is reported unprocessable. *)
Theorem unfiltered_acceptance_needs_coarse :
  ∀ (T : Type) (provider : nat → response (T := T)) fetched1m fetched5m,
    final_attempt_unfiltered provider fetched1m fetched5m →
    (∀ accepted5m,
       fetched5m = Some accepted5m → 50 ≤ length accepted5m →
       acquireCandles provider = Some (fetched1m, accepted5m, false))
    ∧ (fetched5m = None ∨ (∃ short5m, fetched5m = Some short5m ∧ length short5m < 50) →
       acquireCandles provider = None).
Proof.
  intros T provider fetched1m fetched5m Hfinal.
  pose proof Hfinal as (_ & _ & _ & _ & _ & Hlen).
  unfold acquireCandles. rewrite (acquisition_loop_final _ _ _ Hfinal).
  cbn [candles1m candles5m usedMarketHoursOnly]. split.
  - intros accepted5m -> Hcoarse.
    by rewrite !bool_decide_eq_false_2 by lia.
  - intros [->|(short5m & -> & Hshort)]; [done|].
    rewrite (bool_decide_eq_true_2 (length short5m < 50)) by done.
    by rewrite orb_true_r.
Qed.

Lemma night_fifty_final_attempt :
  final_attempt_unfiltered night_provider_fifty night1m (Some night5m_fifty).
Proof.
  assert (round_retries (night_provider_fifty 0)) as Hround.
  { exists night1m, (Some night5m_fifty). split; [done|]. split; by vm_compute. }
  repeat split; try exact Hround; by vm_compute.
Qed.

Lemma unfiltered_acceptance_needs_coarse_witness :
  final_attempt_unfiltered night_provider_fifty night1m (Some night5m_fifty)
  ∧ 50 ≤ length night5m_fifty
  ∧ acquireCandles night_provider_fifty = Some (night1m, night5m_fifty, false).
Proof.
  split; [exact night_fifty_final_attempt|].
  split; [vm_compute; lia|].
  apply (proj1 (unfiltered_acceptance_needs_coarse _ _ _ _
                  night_fifty_final_attempt));
    [reflexivity | vm_compute; lia].
Defined.
End AcquisitionClaims.

(** ** The indicators on candles *)

Section CandleIndicatorsFacts.
Import CandleIndicators.
Context {T : Type} `{JsNumber T}.

(** The two wrappers add nothing to the manual calculations on the
    closes. *)
Lemma calculateEMA_manual (candles : list (Acquisition.candle (T := T))) period :
  calculateEMA candles period
  = IndicatorsService.calculateManualEMA (Acquisition.close <$> candles) period.
Proof.
  unfold calculateEMA.
  repeat case_bool_decide.
  - symmetry. apply calculateManualEMA_null. left. by rewrite length_fmap.
  - symmetry. apply calculateManualEMA_null. by right.
  - by destruct (IndicatorsService.calculateManualEMA _ _).
Qed.


(** The loop of [calculateVWAP] passes over a candle without volume. *)
Lemma foldl_vwap_step_filter (candles : list (Acquisition.candle (T := T))) :
  ∀ sums, foldl vwap_step sums candles
          = foldl vwap_step sums (List.filter has_volume candles).
Proof.
  induction candles as [|c candles IH]; intros sums; [done|].
  cbn [foldl List.filter]. rewrite IH.
  destruct (has_volume c) eqn:Hc; [done|].
  unfold has_volume in Hc. unfold vwap_step at 2. by rewrite Hc.
Qed.

(** So it computes the VWAP of the candles that have volume, in an
    arithmetic where 0 is not above 0. *)
Lemma calculateVWAP_filter (candles : list (Acquisition.candle (T := T))) :
  num_gt #0%js #0%js = false →
  calculateVWAP candles = calculateVWAP (List.filter has_volume candles).
Proof.
  intros Hzero. unfold calculateVWAP.
  rewrite <- foldl_vwap_step_filter.
  destruct (List.filter has_volume candles) as [|c kept] eqn:Hkept.
  - rewrite (foldl_vwap_step_filter candles), Hkept. cbn [foldl totalVolume].
    rewrite Hzero. by case_bool_decide.
  - assert (length candles ≠ 0) as Hne.
    { intros Hlen. destruct candles; [done|]. done. }
    by rewrite !bool_decide_eq_false_2 by done.
Qed.

(** [calculateLODHOD] picks its two values among the lows and the highs. *)
Lemma foldl_lodhod_step_elem (candles : list (Acquisition.candle (T := T))) :
  ∀ lod hod,
    let extremes := foldl lodhod_step (lod, hod) candles in
    (extremes.1 = lod ∨ extremes.1 ∈ (Acquisition.low <$> candles))
    ∧ (extremes.2 = hod ∨ extremes.2 ∈ (Acquisition.high <$> candles)).
Proof.
  induction candles as [|c candles IH]; intros lod hod; [by split; left|].
  cbn [foldl].
  assert (((lodhod_step (lod, hod) c).1 = lod
           ∨ (lodhod_step (lod, hod) c).1 = Acquisition.low c)
          ∧ ((lodhod_step (lod, hod) c).2 = hod
             ∨ (lodhod_step (lod, hod) c).2 = Acquisition.high c))
    as [Hlow Hhigh].
  { unfold lodhod_step. cbn [fst snd].
    destruct (num_gt lod _), (num_gt _ hod); auto. }
  destruct (lodhod_step (lod, hod) c) as [lod' hod'].
  cbn [fst snd] in Hlow, Hhigh.
  destruct (IH lod' hod') as [Hlod Hhod].
  cbv zeta in Hlod, Hhod |- *. rewrite !fmap_cons. split.
  - destruct Hlod as [->|Hlod]; [|by right; right].
    destruct Hlow as [->| ->]; [by left|right; left].
  - destruct Hhod as [->|Hhod]; [|by right; right].
    destruct Hhigh as [->| ->]; [by left|right; left].
Qed.
End CandleIndicatorsFacts.

Section CandleIndicatorsReal.
Import CandleIndicators.
Local Open Scope R_scope.

(** In real arithmetic a candle counts exactly when its volume is
    positive. *)
Lemma has_volume_real (c : Acquisition.candle (T := R)) :
  has_volume c = true ↔ 0 < Acquisition.volume c.
Proof.
  unfold has_volume, volume_or_zero.
  cbn [num_falsy num_gt num_of_nat exact_real INR].
  destruct (Req_dec_T (Acquisition.volume c) 0) as [Hzero|Hnonzero];
    destruct (Rlt_dec 0 _) as [Hlt|Hge]; split; try done; lra.
Qed.

Lemma volume_or_zero_real (c : Acquisition.candle (T := R)) :
  has_volume c = true → volume_or_zero c = Acquisition.volume c.
Proof.
  intros Hc%has_volume_real. unfold volume_or_zero.
  cbn [num_falsy exact_real]. destruct (Req_dec_T _ 0); [lra|done].
Qed.

Lemma positive_volume_dec (candles : list (Acquisition.candle (T := R))) :
  (∃ c, c ∈ candles ∧ 0 < Acquisition.volume c)
  ∨ (∀ c, c ∈ candles → ¬ 0 < Acquisition.volume c).
Proof.
  induction candles as [|c candles [(c' & Hc' & Hpositive)|Hnone]].
  - right. intros c Hc. by apply elem_of_nil in Hc.
  - left. exists c'. split; [by right|done].
  - destruct (Rlt_dec 0 (Acquisition.volume c)) as [Hpositive|Hnot].
    + left. exists c. split; [by left|done].
    + right. intros c' [->|Hc']%elem_of_cons; [done|by apply Hnone].
Qed.

(** One turn of the loop in real arithmetic. *)
Lemma vwap_step_real (sums : vwap_sums R) (c : Acquisition.candle (T := R)) :
  vwap_step sums c
  = if has_volume c
    then {| totalVWAP := totalVWAP sums + typicalPrice c * Acquisition.volume c;
            totalVolume := totalVolume sums + Acquisition.volume c;
            validCandles := S (validCandles sums) |}
    else sums.
Proof.
  unfold vwap_step. fold (has_volume c).
  destruct (has_volume c) eqn:Hc; [|done].
  by rewrite (volume_or_zero_real c Hc).
Qed.

(** The total volume only grows, and grows when a candle has volume. *)
Lemma foldl_vwap_step_volume (candles : list (Acquisition.candle (T := R))) :
  ∀ sums,
    let sums' := foldl vwap_step sums candles in
    totalVolume sums <= totalVolume sums'
    ∧ ((∃ c, c ∈ candles ∧ 0 < Acquisition.volume c) →
       totalVolume sums < totalVolume sums')
    ∧ ((∀ c, c ∈ candles → ¬ 0 < Acquisition.volume c) → sums' = sums).
Proof.
  induction candles as [|c candles IH]; intros sums.
  - cbn. split; [lra|]. split; [|done].
    intros (c & Hc & _). by apply elem_of_nil in Hc.
  - cbn [foldl]. rewrite vwap_step_real.
    destruct (has_volume c) eqn:Hc.
    + apply has_volume_real in Hc as Hpositive.
      destruct (IH {| totalVWAP := totalVWAP sums
                                   + typicalPrice c * Acquisition.volume c;
                      totalVolume := totalVolume sums + Acquisition.volume c;
                      validCandles := S (validCandles sums) |})
        as (Hgrow & _ & _).
      cbn [totalVolume] in Hgrow. cbv zeta.
      split; [lra|]. split; [intros _; lra|].
      intros Hnone. exfalso. apply (Hnone c); [by left|done].
    + destruct (IH sums) as (Hgrow & Hsome & Hnone).
      cbv zeta. split; [done|]. split.
      * intros (c' & [->|Hc']%elem_of_cons & Hpositive).
        -- apply has_volume_real in Hpositive. congruence.
        -- apply Hsome. by exists c'.
      * intros Hall. apply Hnone. intros c' Hc'. apply Hall. by right.
Qed.

(** The weighted sum stays between the bounds of the typical prices times
    the total volume. *)
Lemma foldl_vwap_step_bounds (candles : list (Acquisition.candle (T := R))) lo hi :
  (∀ c, c ∈ candles → 0 < Acquisition.volume c →
        lo <= typicalPrice c <= hi) →
  ∀ sums,
    lo * totalVolume sums <= totalVWAP sums <= hi * totalVolume sums →
    let sums' := foldl vwap_step sums candles in
    lo * totalVolume sums' <= totalVWAP sums' <= hi * totalVolume sums'.
Proof.
  induction candles as [|c candles IH]; intros Hbounds sums Hsums; [done|].
  cbn [foldl]. rewrite vwap_step_real.
  assert (∀ c', c' ∈ candles → 0 < Acquisition.volume c' →
                lo <= typicalPrice c' <= hi) as Hrest
    by (intros c' Hc'; apply Hbounds; by right).
  destruct (has_volume c) eqn:Hc; [|by apply IH].
  apply has_volume_real in Hc as Hpositive.
  destruct (Hbounds c) as [Hlo Hhi]; [by left|done|].
  apply IH; [done|]. cbn [totalVWAP totalVolume]. nra.
Qed.

(** The extremes of the loop of [calculateLODHOD] in real arithmetic. *)
Lemma foldl_lodhod_step_real (candles : list (Acquisition.candle (T := R))) :
  ∀ lod hod,
    let extremes := foldl lodhod_step (lod, hod) candles in
    extremes.1 <= lod ∧ hod <= extremes.2
    ∧ ∀ c, c ∈ candles →
           extremes.1 <= Acquisition.low c ∧ Acquisition.high c <= extremes.2.
Proof.
  induction candles as [|c candles IH]; intros lod hod.
  - cbn. split; [lra|]. split; [lra|]. intros c Hc. by apply elem_of_nil in Hc.
  - cbn [foldl].
    assert ((lodhod_step (lod, hod) c).1 <= lod
            ∧ (lodhod_step (lod, hod) c).1 <= Acquisition.low c
            ∧ hod <= (lodhod_step (lod, hod) c).2
            ∧ Acquisition.high c <= (lodhod_step (lod, hod) c).2)
      as (Hlod & Hlow & Hhod & Hhigh).
    { unfold lodhod_step. cbn [fst snd num_gt exact_real].
      destruct (Rlt_dec (Acquisition.low c) lod),
               (Rlt_dec hod (Acquisition.high c)); lra. }
    destruct (lodhod_step (lod, hod) c) as [lod' hod'].
    cbn [fst snd] in Hlod, Hlow, Hhod, Hhigh.
    destruct (IH lod' hod') as (Hlod' & Hhod' & Hall). cbv zeta in *.
    split; [lra|]. split; [lra|].
    intros c' [->|Hc']%elem_of_cons; [lra|by apply Hall].
Qed.
End CandleIndicatorsReal.

Section CandleIndicatorsTheorems.
Import CandleIndicators.

(** X1. [calculateVWAP] passes over every candle whose volume fails the
    test [volume > 0] (a volume of 0, a negative one, NaN): the result is
    the one computed from the other candles alone, and [null] when there
    are none.  In doubles and in real arithmetic. *)
Theorem calculateVWAP_skips_volumeless :
  (∀ candles : list (Acquisition.candle (T := float)),
     calculateVWAP candles = calculateVWAP (List.filter has_volume candles))
  ∧ (∀ candles : list (Acquisition.candle (T := R)),
       calculateVWAP candles = calculateVWAP (List.filter has_volume candles))
  ∧ (∀ (T : Type) (N : JsNumber T) (candles : list (Acquisition.candle (T := T))),
       List.filter has_volume candles = [] → num_gt #0%js #0%js = false →
       calculateVWAP candles = None).
Proof.
  split; [|split].
  - intros candles. apply calculateVWAP_filter. by vm_compute.
  - intros candles. apply calculateVWAP_filter.
    cbn [num_gt num_of_nat exact_real INR]. destruct (Rlt_dec 0 0); [lra|done].
  - intros T N candles Hnone Hzero.
    by rewrite (calculateVWAP_filter candles Hzero), Hnone.
Qed.

Lemma calculateVWAP_skips_volumeless_witness :
  let quiet : Acquisition.candle (T := float) :=
    {| Acquisition.timestamp := 0; Acquisition.open := 1%float;
       Acquisition.high := 2%float; Acquisition.low := 1%float;
       Acquisition.close := 1%float; Acquisition.volume := 0%float |} in
  List.filter has_volume [quiet; quiet] = []
  ∧ num_gt (T := float) #0%js #0%js = false
  ∧ calculateVWAP [quiet; quiet] = None.
Proof.
  intros quiet.
  split; [by vm_compute|]. split; [by vm_compute|].
  apply (proj2 (proj2 calculateVWAP_skips_volumeless)); by vm_compute.
Defined.

(** X2. In real arithmetic [calculateVWAP] returns a value exactly when
    some candle has a positive volume, and the value lies between any two
    bounds of the typical prices of the candles with positive volume. *)
Theorem calculateVWAP_between_typical_prices :
  ∀ candles : list (Acquisition.candle (T := R)),
    (is_Some (calculateVWAP candles)
     ↔ ∃ c, c ∈ candles ∧ (0 < Acquisition.volume c)%R)
    ∧ ∀ lo hi vwap,
        (∀ c, c ∈ candles → (0 < Acquisition.volume c)%R →
              (lo <= typicalPrice c <= hi)%R) →
        calculateVWAP candles = Some vwap →
        (lo <= vwap <= hi)%R.
Proof.
  intros candles.
  set (start := {| totalVolume := 0%R; totalVWAP := 0%R; validCandles := 0 |}).
  assert (calculateVWAP candles
          = if bool_decide (length candles = 0) then None
            else if Rlt_dec 0 (totalVolume (foldl vwap_step start candles))
                 then Some (totalVWAP (foldl vwap_step start candles)
                            / totalVolume (foldl vwap_step start candles))%R
                 else None) as Hunfold.
  { unfold calculateVWAP. cbn [num_gt num_of_nat exact_real INR].
    case_bool_decide; [done|]. by destruct (Rlt_dec _ _). }
  destruct (foldl_vwap_step_volume candles start) as (Hgrow & Hsome & Hnone).
  cbv zeta in Hgrow, Hsome, Hnone. cbn [start totalVolume] in Hgrow, Hsome.
  split.
  - rewrite Hunfold. split.
    + intros Hdefined.
      destruct (positive_volume_dec candles) as [|Hall]; [done|].
      rewrite (Hnone Hall) in Hdefined.
      cbn [start totalVolume] in Hdefined.
      case_bool_decide; [by destruct Hdefined|].
      destruct (Rlt_dec 0 0); [lra|by destruct Hdefined].
    + intros Hpositive. pose proof Hpositive as (c & Hc & _).
      rewrite bool_decide_eq_false_2 by (by destruct candles; [apply elem_of_nil in Hc|]).
      specialize (Hsome Hpositive).
      destruct (Rlt_dec _ _); [by eexists|lra].
  - intros lo hi vwap Hbounds. rewrite Hunfold.
    case_bool_decide; [done|].
    destruct (Rlt_dec _ _) as [Hpositive|]; [|done]. intros [= <-].
    pose proof (foldl_vwap_step_bounds candles lo hi Hbounds start) as Hkeep.
    cbv zeta in Hkeep.
    destruct Hkeep as [Hlo Hhi]; [cbn; lra|].
    remember (foldl vwap_step start candles) as sums eqn:Hsums.
    clear Hsums Hunfold Hgrow Hsome Hnone.
    split.
    + apply Rmult_le_reg_r with (totalVolume sums); [exact Hpositive|].
      unfold Rdiv. rewrite Rmult_assoc, Rinv_l by lra. lra.
    + apply Rmult_le_reg_r with (totalVolume sums); [exact Hpositive|].
      unfold Rdiv. rewrite Rmult_assoc, Rinv_l by lra. lra.
Qed.

Lemma calculateVWAP_between_typical_prices_witness :
  let busy : Acquisition.candle (T := R) :=
    {| Acquisition.timestamp := 0; Acquisition.open := 2%R;
       Acquisition.high := 3%R; Acquisition.low := 1%R;
       Acquisition.close := 2%R; Acquisition.volume := 10%R |} in
  ∃ vwap, calculateVWAP [busy] = Some vwap ∧ (2 <= vwap <= 2)%R.
Proof.
  intros busy.
  pose proof (calculateVWAP_between_typical_prices [busy]) as [Hdefined Hbounds].
  assert (is_Some (calculateVWAP [busy])) as [vwap Hvwap].
  { apply Hdefined. exists busy. split; [by left|]. cbn. lra. }
  exists vwap. split; [exact Hvwap|].
  apply (Hbounds 2%R 2%R vwap); [|exact Hvwap].
  intros c Hc%list_elem_of_singleton _. subst c.
  unfold typicalPrice.
  cbn [num_add num_div num_of_nat exact_real INR busy
       Acquisition.high Acquisition.low Acquisition.close].
  lra.
Defined.

(** X3. [calculateLODHOD] returns [{lod: null, hod: null}] for no candles;
    otherwise [lod] is the low of one of the candles and [hod] the high of
    one of them, in any arithmetic, and in real arithmetic no candle has a
    lower low than [lod] or a higher high than [hod]. *)
Theorem calculateLODHOD_extremes :
  (∀ (T : Type) (N : JsNumber T) (candles : list (Acquisition.candle (T := T))),
     calculateLODHOD (@nil (Acquisition.candle (T := T))) = (None, None)
     ∧ (candles ≠ [] →
        ∃ lod hod,
          calculateLODHOD candles = (Some lod, Some hod)
          ∧ lod ∈ (Acquisition.low <$> candles)
          ∧ hod ∈ (Acquisition.high <$> candles)))
  ∧ (∀ (candles : list (Acquisition.candle (T := R))) lod hod,
       calculateLODHOD candles = (Some lod, Some hod) →
       ∀ c, c ∈ candles →
            (lod <= Acquisition.low c)%R ∧ (Acquisition.high c <= hod)%R).
Proof.
  split.
  - intros T N candles. split; [done|]. intros Hne.
    destruct candles as [|first candles]; [done|].
    eexists _, _. split; [reflexivity|].
    destruct (foldl_lodhod_step_elem (first :: candles)
                (Acquisition.low first) (Acquisition.high first))
      as [Hlod Hhod].
    cbv zeta in Hlod, Hhod. split.
    + destruct Hlod as [->|Hlod]; [|done]. rewrite fmap_cons. by left.
    + destruct Hhod as [->|Hhod]; [|done]. rewrite fmap_cons. by left.
  - intros candles lod hod Hresult c Hc.
    destruct candles as [|first candles]; [done|].
    injection Hresult as <- <-.
    destruct (foldl_lodhod_step_real (first :: candles)
                (Acquisition.low first) (Acquisition.high first))
      as (_ & _ & Hall).
    by apply Hall.
Qed.

Lemma calculateLODHOD_extremes_witness :
  Scenarios.night1m ≠ []
  ∧ ∃ lod hod,
      calculateLODHOD Scenarios.night1m = (Some lod, Some hod)
      ∧ lod ∈ (Acquisition.low <$> Scenarios.night1m)
      ∧ hod ∈ (Acquisition.high <$> Scenarios.night1m).
Proof.
  assert (Scenarios.night1m ≠ []) as Hne by (by vm_compute).
  split; [exact Hne|].
  exact (proj2 (proj1 calculateLODHOD_extremes float binary64 Scenarios.night1m) Hne).
Defined.
End CandleIndicatorsTheorems.

(** ** What the acquisition accepts *)

Section AcquisitionAccepts.
Import Acquisition.
Context {T : Type}.

Lemma nextDaysToFetch_window attemptCount :
  nextDaysToFetch (window_of_attempt attemptCount)
  = window_of_attempt (S attemptCount).
Proof. by destruct attemptCount as [|[|[|[|?]]]]. Qed.

(** How the loop can be left: without a round, with the filtered arrays
    of a round, with the unfiltered arrays of the fourth round, or after a
    fourth round with fewer than 200 one-minute candles. *)
Lemma acquisition_loop_exit (provider : nat → response (T := T)) fuel :
  ∀ attemptCount current d,
    acquisition_loop provider fuel (window_of_attempt attemptCount)
      attemptCount current = Exited d →
    (d = current ∧ ¬ attemptCount < maxAttempts)
    ∨ (∃ attempt fetched1m fetched5m,
         attempt < maxAttempts
         ∧ provider (window_of_attempt attempt * 24)
           = Some (Some fetched1m, fetched5m)
         ∧ filtered_test fetched1m fetched5m = true
         ∧ d = {| candles1m := Some (List.filter inMarketHours fetched1m);
                  candles5m :=
                    Some (List.filter inMarketHours (default [] fetched5m));
                  usedMarketHoursOnly := true |})
    ∨ (∃ fetched1m fetched5m,
         provider (30 * 24) = Some (Some fetched1m, fetched5m)
         ∧ 200 ≤ length fetched1m
         ∧ d = {| candles1m := Some fetched1m;
                  candles5m := fetched5m;
                  usedMarketHoursOnly := false |})
    ∨ (∃ fetched1m, candles1m d = Some fetched1m ∧ length fetched1m < 200).
Proof.
  induction fuel as [|fuel IH]; intros attempt current d.
  - cbn [acquisition_loop]. case_bool_decide; [done|].
    intros [= <-]. by left.
  - cbn [acquisition_loop]. case_bool_decide as Hattempt; cbn [negb]; [|intros [= <-]; by left].
    destruct (provider (window_of_attempt attempt * 24))
      as [[[fetched1m|] fetched5m]|] eqn:Hfetch; [|done..].
    destruct fetched1m as [|c fetched1m]; [done|].
    pose proof (acquisition_loop_round provider fuel (window_of_attempt attempt)
                  attempt current (c :: fetched1m) fetched5m Hattempt Hfetch)
      as Hround.
    cbn [acquisition_loop] in Hround.
    rewrite bool_decide_eq_true_2 in Hround by done. cbn [negb] in Hround.
    rewrite Hfetch in Hround. rewrite Hround by done. clear Hround.
    destruct (filtered_test (c :: fetched1m) fetched5m) eqn:Htest.
    { intros [= <-]. right; left. by exists attempt, (c :: fetched1m), fetched5m. }
    destruct (bool_decide (200 ≤ length (c :: fetched1m))) eqn:Hlen;
      destruct (bool_decide (attempt = maxAttempts - 1)) eqn:Hlast;
      cbn [andb].
    + intros [= <-]. right; right; left.
      apply bool_decide_eq_true in Hlast. unfold maxAttempts in Hlast.
      subst attempt. exists (c :: fetched1m), fetched5m.
      split; [done|]. split; [by apply bool_decide_eq_true in Hlen|done].
    + rewrite nextDaysToFetch_window. intros Hexit.
      apply IH in Hexit as [[-> Hdone]|[Hfiltered|[Hunfiltered|Hshort]]].
      * apply bool_decide_eq_false in Hlast. unfold maxAttempts in *. lia.
      * by right; left.
      * by right; right; left.
      * by right; right; right.
    + rewrite nextDaysToFetch_window. intros Hexit.
      apply IH in Hexit as [[-> Hdone]|[Hfiltered|[Hunfiltered|Hshort]]].
      * right; right; right. exists (c :: fetched1m). split; [done|].
        apply bool_decide_eq_false in Hlen. lia.
      * by right; left.
      * by right; right; left.
      * by right; right; right.
    + rewrite nextDaysToFetch_window. intros Hexit.
      apply IH in Hexit as [[-> Hdone]|[Hfiltered|[Hunfiltered|Hshort]]].
      * right; right; right. exists (c :: fetched1m). split; [done|].
        apply bool_decide_eq_false in Hlen. lia.
      * by right; left.
      * by right; right; left.
      * by right; right; right.
Qed.

(** The data set that [acquireCandles] hands on. *)
Lemma acquireCandles_accepted (provider : nat → response (T := T))
    accepted1m accepted5m marketHoursOnly :
  acquireCandles provider = Some (accepted1m, accepted5m, marketHoursOnly) →
  200 ≤ length accepted1m ∧ 50 ≤ length accepted5m
  ∧ ((marketHoursOnly = true
      ∧ ∃ attempt fetched1m fetched5m,
          attempt < maxAttempts
          ∧ provider (window_of_attempt attempt * 24)
            = Some (Some fetched1m, fetched5m)
          ∧ accepted1m = List.filter inMarketHours fetched1m
          ∧ accepted5m = List.filter inMarketHours (default [] fetched5m))
     ∨ (marketHoursOnly = false
        ∧ provider (30 * 24) = Some (Some accepted1m, Some accepted5m))).
Proof.
  unfold acquireCandles.
  destruct (acquisition_loop _ _ _ _ _) as [|d|] eqn:Hloop; [done| |done].
  destruct (candles1m d) as [c1|] eqn:H1; [|done].
  destruct (candles5m d) as [c5|] eqn:H5; [|done].
  destruct (bool_decide (length c1 < 200)) eqn:Hlen1; [done|].
  destruct (bool_decide (length c5 < 50)) eqn:Hlen5; [done|].
  cbn [orb]. intros [= <- <- <-].
  apply bool_decide_eq_false in Hlen1, Hlen5.
  split; [lia|]. split; [lia|].
  apply (acquisition_loop_exit provider maxAttempts 0) in Hloop
    as [[-> _]|[Hfiltered|[Hunfiltered|Hshort]]].
  - done.
  - destruct Hfiltered as (attempt & f1 & f5 & Hattempt & Hfetch & _ & ->).
    cbn in H1, H5. injection H1 as <-. injection H5 as <-.
    left. split; [done|]. by exists attempt, f1, f5.
  - destruct Hunfiltered as (f1 & f5 & Hfetch & _ & ->).
    cbn in H1, H5. injection H1 as <-. subst f5.
    right. by split.
  - destruct Hshort as (f1 & Hf1 & Hshort). rewrite H1 in Hf1.
    injection Hf1 as <-. lia.
Qed.
End AcquisitionAccepts.

Section AcquisitionTheorems.
Import Acquisition.

(** X4. Whenever [processAlertNormally] gets past its acquisition, the
    data set has at least 200 one-minute and 50 five-minute candles and
    comes from one round: either it is the in-session part of what one of
    the four windows (10, 15, 20, 30 days) returned, and then every candle
    lies in the session 13:30-20:00 UTC, or it is exactly what the 30-day
    window returned, unfiltered. *)
Theorem acquireCandles_guarantee :
  ∀ (T : Type) (provider : nat → response (T := T))
    accepted1m accepted5m marketHoursOnly,
    acquireCandles provider = Some (accepted1m, accepted5m, marketHoursOnly) →
    200 ≤ length accepted1m ∧ 50 ≤ length accepted5m
    ∧ ((marketHoursOnly = true
        ∧ (∀ c, c ∈ accepted1m ++ accepted5m → inMarketHours c = true)
        ∧ ∃ attempt fetched1m fetched5m,
            attempt < maxAttempts
            ∧ provider (window_of_attempt attempt * 24)
              = Some (Some fetched1m, fetched5m)
            ∧ accepted1m = List.filter inMarketHours fetched1m
            ∧ accepted5m = List.filter inMarketHours (default [] fetched5m))
       ∨ (marketHoursOnly = false
          ∧ provider (30 * 24) = Some (Some accepted1m, Some accepted5m))).
Proof.
  intros T provider a1 a5 u Hacquired.
  destruct (acquireCandles_accepted provider a1 a5 u Hacquired)
    as (H1 & H5 & [(-> & Hround)|(-> & Hlast)]).
  - split; [done|]. split; [done|]. left. split; [done|]. split; [|done].
    destruct Hround as (attempt & f1 & f5 & _ & _ & -> & ->).
    intros c [Hc|Hc]%elem_of_app; apply list_elem_of_In, List.filter_In in Hc;
      by destruct Hc.
  - split; [done|]. split; [done|]. by right.
Qed.

Lemma acquireCandles_guarantee_witness :
  acquireCandles Scenarios.night_provider_fifty
  = Some (Scenarios.night1m, Scenarios.night5m_fifty, false)
  ∧ 200 ≤ length Scenarios.night1m ∧ 50 ≤ length Scenarios.night5m_fifty.
Proof.
  assert (acquireCandles Scenarios.night_provider_fifty
          = Some (Scenarios.night1m, Scenarios.night5m_fifty, false))
    as Hacquired by (by vm_compute).
  split; [exact Hacquired|].
  destruct (acquireCandles_guarantee _ _ _ _ _ Hacquired) as (H1 & H5 & _).
  exact (conj H1 H5).
Defined.
End AcquisitionTheorems.

(** ** The indicators of an accepted data set *)

Section AllIndicators.
Import CandleIndicators.
Context {T : Type} `{JsNumber T}.


Lemma calculateEMA_short (candles : list (Acquisition.candle (T := T))) period :
  length candles < period →
  number_or_null (calculateEMA candles period) = JNull.
Proof.
  intros Hlen.
  rewrite calculateEMA_manual, calculateManualEMA_null;
    rewrite ?length_fmap; [done|by right].
Qed.



End AllIndicators.

Section AllIndicatorsTheorems.
Import CandleIndicators.


End AllIndicatorsTheorems.

(** ** The seven rules on computed indicators *)

Section SevenRules.
Import Conditions CandleIndicators.
Context {T : Type} `{JsNumber T}.

Lemma ema5m200_short (candles1m candles5m : list (Acquisition.candle (T := T))) :
  length candles5m < 200 →
  ema5m200 (indicators (calculateAllIndicators candles1m candles5m)) = JNull.
Proof.
  intros Hlen. unfold calculateAllIndicators.
  destruct (calculateLODHOD candles1m) as [low high].
  cbn [indicators ema5m200]. by apply calculateEMA_short.
Qed.
End SevenRules.

Section SevenRulesTheorems.
Import Conditions CandleIndicators.

(** X6. With fewer than 200 five-minute candles (the acquisition accepts
    50) [calculateAllIndicators] leaves [ema5m200] null, so the seven-rule
    service never reports all conditions met on its result: the rule
    [ema200AboveEma18_5m] is false and has its failure record, whatever
    the prices are.  The service returns such a verdict after any
    evaluations and resets. *)
Theorem seven_rules_need_200_coarse_candles :
  ∀ (T : Type) (N : JsNumber T)
    (candles1m candles5m : list (Acquisition.candle (T := T))) price,
    length candles5m < 200 →
    let indicatorData :=
      indicatorData_of (calculateAllIndicators candles1m candles5m) price in
    (∀ st st' verdict,
       PolygonConditionsService.evaluateConditions st indicatorData
       = (st', Normal verdict) →
       allConditionsMet verdict = false
       ∧ condition_value (conditions verdict) "ema200AboveEma18_5m" = false
       ∧ "ema200AboveEma18_5m" ∈ (condition <$> failedConditions verdict))
    ∧ ∀ requests : list (request T),
        ∃ st' verdict,
          PolygonConditionsService.evaluateConditions
            (PolygonConditionsService.serve
               PolygonConditionsService.initial_statistics requests)
            indicatorData
          = (st', Normal verdict)
          ∧ allConditionsMet verdict = false.
Proof.
  intros T N candles1m candles5m price Hlen indicatorData.
  assert (∀ st st' verdict,
            PolygonConditionsService.evaluateConditions st indicatorData
            = (st', Normal verdict) →
            allConditionsMet verdict = false
            ∧ condition_value (conditions verdict) "ema200AboveEma18_5m" = false
            ∧ "ema200AboveEma18_5m" ∈ (condition <$> failedConditions verdict))
    as Hfails.
  { intros st st' verdict Heval.
    pose proof (service_verdict _ _ PolygonConditionsService.rule_operands _
                  full_conclude full_keys full_keys_nodup full_operands
                  st indicatorData st' verdict Heval)
      as (_ & _ & _ & _ & Hnull).
    destruct (Hnull "ema200AboveEma18_5m"
                (Conditions.ema5m200 (Conditions.indicators indicatorData))
                (Conditions.ema5m18 (Conditions.indicators indicatorData)))
      as (Hvalue & _ & Hrecord & _ & Hmet).
    { unfold PolygonConditionsService.rule_operands. do 6 right. left. }
    { unfold indicatorData, indicatorData_of, evaluator_bundle.
      cbn [Conditions.indicators Conditions.ema5m200].
      by rewrite ema5m200_short. }
    done. }
  split; [exact Hfails|]. intros requests.
  destruct (service_returns _ _ PolygonConditionsService.rule_operands _
              full_conclude full_keys full_keys_nodup full_operands
              (PolygonConditionsService.serve
                 PolygonConditionsService.initial_statistics requests)
              indicatorData)
    as (st' & verdict & Heval & _).
  { apply consistent_ready, full_serve_consistent. }
  exists st', verdict. split; [done|].
  by destruct (Hfails _ _ _ Heval).
Qed.

Lemma seven_rules_need_200_coarse_candles_witness :
  length Scenarios.night5m_fifty < 200
  ∧ ∃ st' verdict,
      PolygonConditionsService.evaluateConditions
        (PolygonConditionsService.serve
           PolygonConditionsService.initial_statistics [])
        (indicatorData_of
           (calculateAllIndicators Scenarios.night1m Scenarios.night5m_fifty)
           JNull)
      = (st', Normal verdict)
      ∧ allConditionsMet verdict = false.
Proof.
  assert (length Scenarios.night5m_fifty < 200) as Hlen by (vm_compute; lia).
  split; [exact Hlen|].
  exact (proj2 (seven_rules_need_200_coarse_candles float binary64
                  Scenarios.night1m Scenarios.night5m_fifty JNull Hlen) []).
Defined.
End SevenRulesTheorems.

(** ** Processing an alert *)

Section ProcessAlert.
Import Conditions Server.
Context {T : Type} `{JsNumber T}.

(** An evaluation of the three-rule service keeps the set of counters,
    and how it completes depends on the statistics only through that
    set. *)
Lemma simplified_evaluate_dom (st : Statistics) (d : IndicatorData T) :
  dom (conditionCounts (ConditionsService.evaluateConditions st d).1)
  = dom (conditionCounts st).
Proof.
  destruct (simplified_conclude d) as (failed & debugInfo & Heval & _).
  rewrite Heval. apply conclude_counts.
Qed.

Lemma simplified_evaluate_completion (st st' : Statistics) (d : IndicatorData T) :
  dom (conditionCounts st) = dom (conditionCounts st') →
  (ConditionsService.evaluateConditions st d).2
  = (ConditionsService.evaluateConditions st' d).2.
Proof.
  intros Hdom.
  destruct (simplified_conclude d) as (failed & debugInfo & Heval & _).
  rewrite !Heval. by apply conclude_completion.
Qed.

(** Once the statistics were reset, the counters stay those of the
    reset. *)
Lemma simplified_serve_reset_dom (requests : list (request T)) :
  ∀ st, Reset ∈ requests →
        dom (conditionCounts (ConditionsService.serve st requests))
        = dom (conditionCounts (ConditionsService.resetStatistics st)).
Proof.
  induction requests as [|r requests IH] using rev_ind; intros st Hreset.
  - by apply elem_of_nil in Hreset.
  - unfold ConditionsService.serve, serve_with. rewrite foldl_app. cbn [foldl].
    fold (serve_with (T := T) ConditionsService.evaluateConditions
            ConditionsService.resetStatistics st requests).
    fold (ConditionsService.serve st requests).
    destruct r as [d|]; [|done].
    rewrite simplified_evaluate_dom. apply IH.
    apply elem_of_app in Hreset as [Hreset|Hreset]; [done|].
    by apply list_elem_of_singleton in Hreset.
Qed.

(** So every later evaluation throws. *)
Lemma simplified_serve_reset_throws (requests : list (request T)) st d :
  Reset ∈ requests →
  (ConditionsService.evaluateConditions (ConditionsService.serve st requests) d).2
  = Throw TypeError.
Proof.
  intros Hreset.
  rewrite (simplified_evaluate_completion _ (ConditionsService.resetStatistics st))
    by (by apply simplified_serve_reset_dom).
  apply simplified_reset_then_throws.
Qed.

(** [processAlertNormally] keeps the set of counters. *)
Lemma processAlertNormally_dom (st : Statistics) (run : run T) alert flag :
  dom (conditionCounts (processAlertNormally st run alert flag).1)
  = dom (conditionCounts st).
Proof.
  unfold processAlertNormally.
  destruct (negb (extracts run)); [done|].
  destruct (flag_truthy flag && negb (nasdaq_listed run)); [done|].
  destruct (Acquisition.acquireCandles (provider run)) as [[[c1 c5] u]|]; [|done].
  destruct (negb (timestamps_print run)); [done|].
  pose proof (simplified_evaluate_dom st
                (CandleIndicators.indicatorData_of
                   (CandleIndicators.calculateAllIndicators c1 c5)
                   (alert_currentPrice alert))) as Hdom.
  destruct (ConditionsService.evaluateConditions _ _) as [st' [v|e]]; done.
Qed.

(** Where every evaluation throws, no alert is processed. *)
Lemma processAlertNormally_throws (st : Statistics) (run : run T) alert flag :
  (∀ d, (ConditionsService.evaluateConditions st d).2 = Throw TypeError) →
  (processAlertNormally st run alert flag).2 = None.
Proof.
  intros Hthrows. unfold processAlertNormally.
  destruct (negb (extracts run)); [done|].
  destruct (flag_truthy flag && negb (nasdaq_listed run)); [done|].
  destruct (Acquisition.acquireCandles (provider run)) as [[[c1 c5] u]|]; [|done].
  destruct (negb (timestamps_print run)); [done|].
  specialize (Hthrows (CandleIndicators.indicatorData_of
                         (CandleIndicators.calculateAllIndicators c1 c5)
                         (alert_currentPrice alert))).
  destruct (ConditionsService.evaluateConditions _ _) as [st' [v|e]]; done.
Qed.

(** What [processAlertNormally] does where the evaluation returns. *)
Lemma processAlertNormally_returns (st : Statistics) (run : run T) alert flag :
  (∀ d, ∃ st' verdict,
     ConditionsService.evaluateConditions st d = (st', Normal verdict)) →
  let outcome := processAlertNormally st run alert flag in
  (is_Some outcome.2
   ↔ extracts run = true
     ∧ (flag_truthy flag = true → nasdaq_listed run = true)
     ∧ is_Some (Acquisition.acquireCandles (provider run))
     ∧ timestamps_print run = true)
  ∧ (outcome.2 = None → outcome.1 = st)
  ∧ ∀ result,
      outcome.2 = Some result →
      ∃ candles1m candles5m marketHoursOnly verdict,
        Acquisition.acquireCandles (provider run)
        = Some (candles1m, candles5m, marketHoursOnly)
        ∧ ConditionsService.evaluateConditions st
            (CandleIndicators.indicatorData_of
               (CandleIndicators.calculateAllIndicators candles1m candles5m)
               (alert_currentPrice alert))
          = (outcome.1, Normal verdict)
        ∧ result
          = {| processed_price := alert_currentPrice alert;
               indicators :=
                 CandleIndicators.indicators
                   (CandleIndicators.calculateAllIndicators candles1m candles5m);
               processed_evaluation := Evaluated verdict;
               lastCandle :=
                 CandleIndicators.candle_reference
                   (CandleIndicators.lastCandle
                      (CandleIndicators.calculateAllIndicators
                         candles1m candles5m)) |}.
Proof.
  intros Hreturns outcome. unfold outcome, processAlertNormally.
  destruct (extracts run); cbn [negb];
    [|split; [split; [by intros [? ?]|by intros [? _]]|by split]].
  destruct (flag_truthy flag) eqn:Hflag, (nasdaq_listed run) eqn:Hlisted;
    cbn [andb negb];
    try (split; [split; [by intros [? ?]|intros (_ & Hl & _); by specialize (Hl eq_refl)]
                |by split]).
  all: destruct (Acquisition.acquireCandles (provider run)) as [[[c1 c5] u]|];
    [|split; [split; [by intros [? ?]|by intros (_ & _ & [? ?] & _)]|by split]].
  all: destruct (timestamps_print run); cbn [negb];
    [|split; [split; [by intros [? ?]|by intros (_ & _ & _ & ?)]|by split]].
  all: destruct (Hreturns (CandleIndicators.indicatorData_of
                             (CandleIndicators.calculateAllIndicators c1 c5)
                             (alert_currentPrice alert)))
    as (st' & verdict & Heval); rewrite Heval; cbn [fst snd].
  all: split; [split; [intros _; by eauto|by eauto]|].
  all: split; [done|]. all: intros result [= <-].
  all: by exists c1, c5, u, verdict.
Qed.

(** The three-rule service returns a verdict as long as its statistics
    were not reset. *)
Lemma simplified_fresh_returns (inputs : list (IndicatorData T)) d :
  ∃ st' verdict,
    ConditionsService.evaluateConditions
      (ConditionsService.serve ConditionsService.initial_statistics
         (Evaluate <$> inputs)) d
    = (st', Normal verdict)
    ∧ totalEvaluations st'
      = S (totalEvaluations
             (ConditionsService.serve ConditionsService.initial_statistics
                (Evaluate <$> inputs)))
    ∧ totalPassed st'
      = (if allConditionsMet verdict
         then S (totalPassed
                   (ConditionsService.serve ConditionsService.initial_statistics
                      (Evaluate <$> inputs)))
         else totalPassed
                (ConditionsService.serve ConditionsService.initial_statistics
                   (Evaluate <$> inputs))).
Proof.
  destruct (service_returns _ _ ConditionsService.rule_operands _
              simplified_conclude simplified_keys simplified_keys_nodup
              simplified_operands
              (ConditionsService.serve ConditionsService.initial_statistics
                 (Evaluate <$> inputs)) d)
    as (st' & v & Heval & _ & Hcount & Hpassed & _).
  { apply consistent_ready, simplified_serve_consistent. }
  by exists st', v.
Qed.

Lemma simplified_fresh_processes (inputs : list (IndicatorData T)) :
  ∀ d, ∃ st' verdict,
    ConditionsService.evaluateConditions
      (ConditionsService.serve ConditionsService.initial_statistics
         (Evaluate <$> inputs)) d
    = (st', Normal verdict).
Proof.
  intros d. destruct (simplified_fresh_returns inputs d) as (st' & v & Heval & _).
  by exists st', v.
Qed.
End ProcessAlert.

Section ProcessAlertTheorems.
Import Conditions Server.

(** X7. Once [resetStatistics] of [conditions.js] has run (the statistics
    reset endpoint), no alert is processed any more: every evaluation
    throws on the missing counter of [priceAboveVwap], so
    [processAlertNormally] returns [null] for every alert, whatever the
    market data, and [processAlert] returns [null] for every alert that is
    not a valid example alert, also on its second try of a forced valid
    alert.  This holds after any further evaluations and resets. *)
Theorem reset_disables_processing :
  ∀ (T : Type) (N : JsNumber T) (requests : list (request T)),
    Reset ∈ requests →
    let st := ConditionsService.serve ConditionsService.initial_statistics
                requests in
    (∀ d, (ConditionsService.evaluateConditions st d).2 = Throw TypeError)
    ∧ (∀ run alert flag, (processAlertNormally st run alert flag).2 = None)
    ∧ ∀ extracts0 first second alert flag,
        is_type alert "valid_example_alert" = false →
        (processAlert st extracts0 first second alert flag).2 = None.
Proof.
  intros T N requests Hreset st.
  assert (∀ d, (ConditionsService.evaluateConditions st d).2 = Throw TypeError)
    as Hthrows by (intros d; by apply simplified_serve_reset_throws).
  split; [exact Hthrows|].
  split; [intros run alert flag; by apply processAlertNormally_throws|].
  intros extracts0 first second alert flag Hexample.
  unfold processAlert. destruct extracts0; cbn [negb]; [|done].
  rewrite Hexample.
  destruct (is_type alert "forced_valid_alert"
            || is_type alert "forced_valid_alert_fallback");
    [|by apply processAlertNormally_throws].
  pose proof (processAlertNormally_throws st first alert flag Hthrows) as Hfirst.
  pose proof (processAlertNormally_dom st first alert flag) as Hdom.
  destruct (processAlertNormally st first alert flag) as [st1 result].
  cbn [fst snd] in Hfirst, Hdom. subst result.
  apply processAlertNormally_throws. intros d.
  rewrite (simplified_evaluate_completion st1 st) by done. apply Hthrows.
Qed.

Lemma reset_disables_processing_witness :
  let run : run float :=
    {| extracts := true; nasdaq_listed := true;
       provider := Scenarios.night_provider_fifty;
       timestamps_print := true |} in
  let alert : alert float :=
    {| close := JNum 5%float; price := JNull; alert_type := None |} in
  @Reset float ∈ [@Reset float]
  ∧ (processAlertNormally
       (ConditionsService.serve ConditionsService.initial_statistics [Reset])
       run alert (FlagBoolean false)).2 = None.
Proof.
  intros run alert.
  assert (@Reset float ∈ [@Reset float]) as Hreset by (by left).
  split; [exact Hreset|].
  exact (proj1 (proj2 (reset_disables_processing float binary64 [Reset] Hreset))
           run alert (FlagBoolean false)).
Defined.

(** X8. In the three-rule service without a reset, [processAlertNormally]
    returns a result exactly when the ticker and timestamp are extracted,
    the NASDAQ check (made only for a truthy second argument) passes, the
    acquisition accepts a data set and the timestamps print.  The result
    then carries the price [alert.close || alert.price || null], the
    indicators of the accepted candles and the verdict of
    [evaluateConditions] on them, and the statistics count that one
    evaluation; an alert that yields [null] leaves the statistics as they
    were. *)
Theorem processAlertNormally_outcome :
  ∀ (T : Type) (N : JsNumber T) (inputs : list (IndicatorData T))
    (run : run T) (alert : alert T) (flag : js_flag),
    let st := ConditionsService.serve ConditionsService.initial_statistics
                (Evaluate <$> inputs) in
    let outcome := processAlertNormally st run alert flag in
    (is_Some outcome.2
     ↔ extracts run = true
       ∧ (flag_truthy flag = true → nasdaq_listed run = true)
       ∧ is_Some (Acquisition.acquireCandles (provider run))
       ∧ timestamps_print run = true)
    ∧ (outcome.2 = None → outcome.1 = st)
    ∧ ∀ result,
        outcome.2 = Some result →
        totalEvaluations outcome.1 = S (totalEvaluations st)
        ∧ ∃ candles1m candles5m marketHoursOnly verdict,
            Acquisition.acquireCandles (provider run)
            = Some (candles1m, candles5m, marketHoursOnly)
            ∧ ConditionsService.evaluateConditions st
                (CandleIndicators.indicatorData_of
                   (CandleIndicators.calculateAllIndicators candles1m candles5m)
                   (alert_currentPrice alert))
              = (outcome.1, Normal verdict)
            ∧ result
              = {| processed_price := alert_currentPrice alert;
                   indicators :=
                     CandleIndicators.indicators
                       (CandleIndicators.calculateAllIndicators
                          candles1m candles5m);
                   processed_evaluation := Evaluated verdict;
                   lastCandle :=
                     CandleIndicators.candle_reference
                       (CandleIndicators.lastCandle
                          (CandleIndicators.calculateAllIndicators
                             candles1m candles5m)) |}.
Proof.
  intros T N inputs run alert flag st outcome.
  destruct (processAlertNormally_returns st run alert flag
              (simplified_fresh_processes inputs))
    as (Hdefined & Hnull & Hresult).
  split; [exact Hdefined|]. split; [exact Hnull|].
  intros result Hsome.
  destruct (Hresult result Hsome) as (c1 & c5 & u & verdict & Hacq & Heval & ->).
  split; [|by exists c1, c5, u, verdict].
  destruct (simplified_fresh_returns inputs
              (CandleIndicators.indicatorData_of
                 (CandleIndicators.calculateAllIndicators c1 c5)
                 (alert_currentPrice alert)))
    as (st' & v & Heval' & Hcount & _).
  fold st in Heval', Hcount. fold outcome in Heval. rewrite Heval in Heval'.
  injection Heval' as -> _. exact Hcount.
Qed.

(** X9. A forced valid alert, in the three-rule service without a reset:
    when its first run of [processAlertNormally] yields a result,
    [processAlert] returns that result with the literal 7/7 evaluation
    (all conditions met), while the statistics have counted the real
    verdict: one more evaluation, and one more pass only if the real
    verdict met all conditions.  When the first run yields [null] the
    alert is run a second time, from unchanged statistics, and what comes
    back then carries its real verdict. *)
Theorem forced_valid_alert_counted_by_real_verdict :
  ∀ (T : Type) (N : JsNumber T) (inputs : list (IndicatorData T))
    (first second : run T) (alert : alert T) (flag : js_flag),
    is_type alert "forced_valid_alert"
    || is_type alert "forced_valid_alert_fallback" = true →
    let st := ConditionsService.serve ConditionsService.initial_statistics
                (Evaluate <$> inputs) in
    let normal := processAlertNormally st first alert flag in
    (∀ result,
       normal.2 = Some result →
       processAlert st true first second alert flag
       = (normal.1, Some (force_valid result))
       ∧ evaluation_allConditionsMet (processed_evaluation (force_valid result))
         = true
       ∧ evaluation_score (processed_evaluation (force_valid result)) = "7/7"
       ∧ ∃ verdict,
           processed_evaluation result = Evaluated verdict
           ∧ totalEvaluations normal.1 = S (totalEvaluations st)
           ∧ totalPassed normal.1
             = totalPassed st + (if allConditionsMet verdict then 1 else 0))
    ∧ (normal.2 = None →
       processAlert st true first second alert flag
       = processAlertNormally st second alert flag
       ∧ ∀ st' result,
           processAlert st true first second alert flag = (st', Some result) →
           ∃ verdict, processed_evaluation result = Evaluated verdict).
Proof.
  intros T N inputs first second alert flag Hforced st normal.
  assert (is_type alert "valid_example_alert" = false) as Hexample.
  { unfold is_type in *. apply bool_decide_eq_false. intros Htype.
    rewrite Htype in Hforced.
    by rewrite !bool_decide_eq_false_2 in Hforced by done. }
  assert (processAlert st true first second alert flag
          = match normal.2 with
            | Some result => (normal.1, Some (force_valid result))
            | None => processAlertNormally normal.1 second alert flag
            end) as Hunfold.
  { unfold processAlert. cbn [negb]. rewrite Hexample, Hforced.
    unfold normal. by destruct (processAlertNormally st first alert flag) as [? [?|]]. }
  destruct (processAlertNormally_returns st first alert flag
              (simplified_fresh_processes inputs))
    as (_ & Hnull & Hresult).
  fold normal in Hnull, Hresult.
  split.
  - intros result Hsome. rewrite Hunfold, Hsome.
    split; [done|]. split; [done|]. split; [done|].
    destruct (Hresult result Hsome)
      as (c1 & c5 & u & verdict & _ & Heval & ->).
    exists verdict. split; [done|].
    destruct (simplified_fresh_returns inputs
                (CandleIndicators.indicatorData_of
                   (CandleIndicators.calculateAllIndicators c1 c5)
                   (alert_currentPrice alert)))
      as (st' & v & Heval' & Hcount & Hpassed).
    fold st in Heval', Hcount, Hpassed.
    rewrite Heval in Heval'. injection Heval' as -> ->.
    split; [done|]. rewrite Hpassed. destruct (allConditionsMet v); lia.
  - intros Hnone. rewrite Hunfold, Hnone, (Hnull Hnone).
    split; [done|]. intros st' result Hsecond.
    destruct (processAlertNormally_returns st second alert flag
                (simplified_fresh_processes inputs))
      as (_ & _ & Hresult2).
    destruct (Hresult2 result) as (c1 & c5 & u & verdict & _ & _ & ->);
      [by rewrite Hsecond|].
    by exists verdict.
Qed.

Lemma forced_valid_alert_counted_by_real_verdict_witness :
  let run : run float :=
    {| extracts := true; nasdaq_listed := true;
       provider := Scenarios.night_provider_fifty;
       timestamps_print := true |} in
  let alert : alert float :=
    {| close := JNum 5%float; price := JNull;
       alert_type := Some "forced_valid_alert" |} in
  let st := ConditionsService.serve ConditionsService.initial_statistics
              (Evaluate <$> []) in
  is_type alert "forced_valid_alert"
  || is_type alert "forced_valid_alert_fallback" = true
  ∧ ∃ result,
      (processAlertNormally st run alert (FlagBoolean false)).2 = Some result
      ∧ processAlert st true run run alert (FlagBoolean false)
        = ((processAlertNormally st run alert (FlagBoolean false)).1,
           Some (force_valid result)).
Proof.
  intros run alert st.
  assert (is_type alert "forced_valid_alert"
          || is_type alert "forced_valid_alert_fallback" = true) as Hforced
    by reflexivity.
  split; [exact Hforced|].
  assert (is_Some (processAlertNormally st run alert (FlagBoolean false)).2)
    as [result Hresult].
  { apply (processAlertNormally_returns st run alert (FlagBoolean false)
             (simplified_fresh_processes [])).
    split; [reflexivity|]. split; [done|]. split; [|reflexivity].
    eexists. by vm_compute. }
  exists result. split; [exact Hresult|].
  exact (proj1 (proj1 (forced_valid_alert_counted_by_real_verdict float binary64
                         [] run run alert (FlagBoolean false) Hforced)
                  result Hresult)).
Defined.
End ProcessAlertTheorems.

(** ** The route of processed alerts *)

Section ListFacts.
Context {A : Type}.

Lemma length_omap_le {B : Type} (f : A → option B) (l : list A) :
  length (omap f l) ≤ length l.
Proof.
  induction l as [|x l IH]; [done|]. cbn. destruct (f x); cbn; lia.
Qed.

(** The two filters of a list by a test and by its negation split it. *)
Lemma filter_negb_partition (test : A → bool) (l : list A) :
  List.filter test l ++ List.filter (λ x, negb (test x)) l ≡ₚ l
  ∧ length (List.filter test l) + length (List.filter (λ x, negb (test x)) l)
    = length l.
Proof.
  induction l as [|x l [IHperm IHlen]]; [done|].
  cbn [List.filter]. destruct (test x); cbn [negb].
  - split; [by constructor|cbn; lia].
  - split; [|rewrite !length_cons; lia].
    rewrite <- Permutation_middle. by constructor.
Qed.
End ListFacts.

Section Route.
Import Server.
Context {T : Type}.
Variable processAlert_at : nat → alert T → js_flag → option (processed T).

(** The batches of five, one after the other, process every position once,
    each alert with its index in its batch. *)
Lemma batch_loop_results (alertsToProcess : list (alert T)) fuel :
  ∀ i results,
    i mod BATCH_SIZE = 0 →
    length alertsToProcess ≤ i + fuel →
    batch_loop processAlert_at fuel i alertsToProcess results
    = Some (results
            ++ omap (λ result, result)
                 (imap (λ index alert,
                          processAlert_at (i + index) alert
                            (FlagNumber ((i + index) mod BATCH_SIZE)))
                       (drop i alertsToProcess))).
Proof.
  unfold BATCH_SIZE.
  induction fuel as [|fuel IH]; intros i results Hi Hfuel.
  - cbn [batch_loop]. rewrite bool_decide_eq_false_2 by lia. cbn [negb].
    rewrite drop_ge by lia. cbn. by rewrite app_nil_r.
  - cbn [batch_loop]. case_bool_decide as Hlt; cbn [negb].
    2: { rewrite drop_ge by lia. cbn. by rewrite app_nil_r. }
    unfold BATCH_SIZE.
    assert ((i + 5) mod 5 = 0) as Hnext
      by (rewrite <- Nat.Div0.add_mod_idemp_l, Hi; done).
    rewrite (IH (i + 5) _ Hnext) by lia.
    rewrite <- app_assoc. do 2 f_equal.
    rewrite <- omap_app. f_equal.
    set (batch := drop i alertsToProcess).
    assert (drop (i + 5) alertsToProcess = drop 5 batch) as ->
      by (unfold batch; rewrite drop_drop; done).
    rewrite <- (take_drop 5 batch) at 3.
    rewrite imap_app. f_equal.
    + unfold map_processAlert. apply imap_ext. intros index a Hindex. cbv beta.
      apply lookup_lt_Some in Hindex. rewrite length_take in Hindex.
      do 2 f_equal. rewrite <- Nat.Div0.add_mod_idemp_l, Hi. cbn [Nat.add].
      symmetry. apply Nat.mod_small. lia.
    + destruct (decide (length batch ≤ 5)) as [Hshort|Hlong].
      * by rewrite (drop_ge batch 5) by done.
      * apply imap_ext. intros index a _. cbv beta.
        rewrite length_take, Nat.min_l by lia.
        by rewrite Nat.add_assoc.
Qed.

Lemma batch_loop_route (alertsToProcess : list (alert T)) :
  batch_loop processAlert_at (length alertsToProcess) 0 alertsToProcess []
  = Some (route_results processAlert_at alertsToProcess).
Proof.
  rewrite batch_loop_results by (done || lia).
  by rewrite drop_0.
Qed.
End Route.

Section RouteTheorems.
Import Server.

(** X10. The route [/api/alerts/processed] loses and duplicates nothing:
    whatever each call of [processAlert] returns, the loop over batches of
    five ends, and collects the results that are not [null], in the order
    of the alerts, the alert at position [j] having been processed with
    second argument [j mod 5] (its index in its batch).  Each collected
    result is in exactly one of [valid] and [filtered], by its
    [evaluation.allConditionsMet]; [total] and [processed] are their
    number, and [skipped] is the number of alerts that returned [null]. *)
Theorem processed_route_partitions :
  ∀ (T : Type) (processAlert_at : nat → alert T → js_flag → option (processed T))
    (alertsToProcess : list (alert T)),
    let results := route_results processAlert_at alertsToProcess in
    let met := λ result : processed T,
      evaluation_allConditionsMet (processed_evaluation result) in
    ∃ response,
      processed_route processAlert_at alertsToProcess = Some response
      ∧ valid response = List.filter met results
      ∧ filtered response = List.filter (λ result, negb (met result)) results
      ∧ valid response ++ filtered response ≡ₚ results
      ∧ total response = length results
      ∧ processed_count response = length results
      ∧ length (valid response) + length (filtered response) = total response
      ∧ (skipped response
         = Z.of_nat (length alertsToProcess) - Z.of_nat (total response))%Z
      ∧ (0 ≤ skipped response)%Z.
Proof.
  intros T processAlert_at alerts results met.
  pose proof (filter_negb_partition met results) as [Hperm Hlen].
  assert (length results ≤ length alerts) as Hle.
  { unfold results, route_results.
    etrans; [apply length_omap_le|]. by rewrite length_imap. }
  unfold processed_route. case_bool_decide as Hempty.
  - destruct alerts; [|done].
    eexists. split; [reflexivity|]. by cbn.
  - rewrite batch_loop_route. cbn [mbind option_bind].
    eexists. split; [reflexivity|].
    cbn [valid filtered total processed_count skipped].
    fold results. repeat split; try done. lia.
Qed.

(** X11. The second argument that the route passes to [processAlert] is
    the index of the alert in its batch, and [processAlert] reads it as
    [validateNASDAQ]: at a position that is not a multiple of five, an
    alert (other than a valid example alert) whose ticker fails the NASDAQ
    check is dropped before any market data is fetched, and the statistics
    stay as they were; at a multiple of five the check is not made, and
    the outcome does not depend on it. *)
Theorem batch_index_decides_nasdaq_check :
  ∀ (T : Type) (N : JsNumber T) (st : Conditions.Statistics) extracts0
    (first second : run T) (alert : alert T) (position : nat),
    let flag := FlagNumber (position mod BATCH_SIZE) in
    (position mod BATCH_SIZE ≠ 0 →
     is_type alert "valid_example_alert" = false →
     nasdaq_listed first = false → nasdaq_listed second = false →
     processAlert st extracts0 first second alert flag = (st, None))
    ∧ (position mod BATCH_SIZE = 0 →
       ∀ listed1 listed2,
         processAlert st extracts0 (with_nasdaq_listed listed1 first)
           (with_nasdaq_listed listed2 second) alert flag
         = processAlert st extracts0 first second alert flag).
Proof.
  intros T N st extracts0 first second alert position flag.
  assert (∀ st run, flag_truthy flag = true → nasdaq_listed run = false →
                    processAlertNormally st run alert flag = (st, None))
    as Hdropped.
  { intros st0 run Hflag Hlisted. unfold processAlertNormally.
    rewrite Hflag, Hlisted. by destruct (extracts run). }
  assert (∀ st run listed, flag_truthy flag = false →
                           processAlertNormally st (with_nasdaq_listed listed run)
                             alert flag
                           = processAlertNormally st run alert flag)
    as Hunchecked.
  { intros st0 run listed Hflag. unfold processAlertNormally.
    by rewrite Hflag. }
  split.
  - intros Hposition Hexample Hfirst Hsecond.
    assert (flag_truthy flag = true) as Hflag
      by (unfold flag, flag_truthy; by rewrite bool_decide_eq_false_2).
    unfold processAlert. rewrite Hexample.
    destruct extracts0; cbn [negb]; [|done].
    rewrite !(Hdropped st first Hflag Hfirst).
    rewrite (Hdropped st second Hflag Hsecond).
    by destruct (_ || _).
  - intros Hposition listed1 listed2.
    assert (flag_truthy flag = false) as Hflag
      by (unfold flag, flag_truthy; by rewrite bool_decide_eq_true_2).
    unfold processAlert.
    rewrite !(Hunchecked _ first listed1 Hflag).
    destruct (processAlertNormally st first alert flag) as [st1 [result|]];
      [done|].
    by rewrite !(Hunchecked _ second listed2 Hflag).
Qed.

Lemma batch_index_decides_nasdaq_check_witness :
  let unlisted : run float :=
    {| extracts := true; nasdaq_listed := false;
       provider := Scenarios.night_provider_fifty;
       timestamps_print := true |} in
  let alert : alert float :=
    {| close := JNum 5%float; price := JNull; alert_type := None |} in
  7 mod BATCH_SIZE ≠ 0
  ∧ processAlert ConditionsService.initial_statistics true unlisted unlisted
      alert (FlagNumber (7 mod BATCH_SIZE))
    = (ConditionsService.initial_statistics, None).
Proof.
  intros unlisted alert.
  assert (7 mod BATCH_SIZE ≠ 0) as Hposition by (by vm_compute).
  split; [exact Hposition|].
  exact (proj1 (batch_index_decides_nasdaq_check float binary64
                  ConditionsService.initial_statistics true unlisted unlisted
                  alert 7)
           Hposition eq_refl eq_refl eq_refl).
Defined.
End RouteTheorems.

(** ** The valid example alert *)

Section ExampleAlert.
Import Conditions Server.
Local Open Scope R_scope.

(** In real arithmetic the tolerant comparison with the default
    tolerance is the test [a - b > |b| * 0.0001]. *)
Lemma isGreaterThanWithTolerance_default_real (a b : R) :
  isGreaterThanWithTolerance (JNum a) (JNum b) None = true
  ↔ a - b > Rabs b * 0.0001.
Proof.
  unfold isGreaterThanWithTolerance.
  cbn [is_nullish orb to_number default num_gt num_sub num_mul num_abs
       lit_0_0001 exact_real].
  destruct (Rlt_dec _ _); split; (done || lra).
Qed.

(** A literal with two decimals, as a real number. *)
Lemma decimal_two_real (mantissa : nat) :
  decimal (T := R) mantissa 2 = IZR (Z.of_nat mantissa) / 100.
Proof.
  unfold decimal. cbn [num_div num_of_nat exact_real Nat.pow Nat.mul Nat.add].
  by rewrite !INR_IZR_INZ.
Qed.

Lemma truthy_positive_real (x : R) : 0 < x → truthy (JNum x) = true.
Proof.
  intros Hx. cbn [truthy num_falsy exact_real].
  destruct (Req_dec_T x 0); [lra|done].
Qed.

(** The rules on the indicators that [createValidExampleAlert] makes up
    for a positive price. *)
Lemma example_rule_values (alert : alert R) (p : R) :
  price alert = JNum p → 0 < p →
  ConditionsService.rule_values (example_data alert)
  = [("macd5mPositive", true); ("ema18Above200_1m", true);
     ("priceAboveVwap", true)]%string
  ∧ PolygonConditionsService.rule_values (example_data alert)
    = [("macd5mPositive", true); ("macd1mPositive", true);
       ("ema18Above200_1m", true); ("ema18AboveVwap_1m", true);
       ("vwapAboveEma200_1m", true); ("closeAboveEma18_1m", true);
       ("ema200AboveEma18_5m", false)]%string.
Proof.
  intros Hprice Hp.
  assert (∀ a b : R, a - b > Rabs b * 0.0001 →
                     isGreaterThanWithTolerance (JNum a) (JNum b) None = true)
    as Htrue by (intros a b; apply isGreaterThanWithTolerance_default_real).
  assert (∀ a b : R, ¬ a - b > Rabs b * 0.0001 →
                     isGreaterThanWithTolerance (JNum a) (JNum b) None = false)
    as Hfalse.
  { intros a b Hnot. apply not_true_is_false.
    by rewrite isGreaterThanWithTolerance_default_real. }
  assert (∀ x : R, 1e-10 < x → isGreaterThan (JNum x) (JNum 0) None = true)
    as Hpositive by (intros x Hx; apply isGreaterThan_real; lra).
  assert (∀ x : R, 0 < x → Rabs (p * x) = p * x) as Habs
    by (intros x Hx; apply Rabs_pos_eq, Rmult_le_pos; lra).
  unfold ConditionsService.rule_values, PolygonConditionsService.rule_values,
    example_data, closePrice_of, createValidExampleAlert,
    CandleIndicators.evaluator_bundle.
  cbn [Conditions.indicators Conditions.lastCandle Conditions.currentPrice
       Conditions.ema1m18 Conditions.ema1m200 Conditions.ema5m18
       Conditions.ema5m200 Conditions.macd1m Conditions.macd5m Conditions.vwap1m
       indicators lastCandle processed_price
       CandleIndicators.ema1m18 CandleIndicators.ema1m200
       CandleIndicators.ema5m18 CandleIndicators.ema5m200
       CandleIndicators.macd1m CandleIndicators.macd5m CandleIndicators.vwap1m
       or_else truthy optional_close].
  rewrite Hprice. cbn [to_number num_mul exact_real num_of_nat INR].
  unfold getMACDHistogram, getMACDValue.
  cbn [macd_truthy typeof_object negb orb macd_field histogram macd].
  rewrite !decimal_two_real.
  repeat match goal with
         | |- context [Z.of_nat ?n] =>
             let z := eval vm_compute in (Z.of_nat n) in
             change (Z.of_nat n) with z
         end.
  unfold or_else.
  rewrite !truthy_positive_real by lra.
  rewrite !Hpositive by lra.
  rewrite !Htrue by (rewrite Habs by lra; lra).
  rewrite Hfalse by (rewrite Habs by lra; lra).
  done.
Qed.

(** A verdict that a service returns is made from the results of its
    rules. *)
Lemma simplified_verdict_made {T : Type} `{JsNumber T} st (d : IndicatorData T) st' v :
  ConditionsService.evaluateConditions st d = (st', Normal v) →
  ∃ failed debugInfo,
    v = make_verdict (ConditionsService.rule_values d, failed) debugInfo
    ∧ condition <$> failed
      = (filter (λ kv, kv.2 = false) (ConditionsService.rule_values d)).*1.
Proof.
  destruct (simplified_conclude d) as (failed & debugInfo & Heval & Hfailed).
  rewrite Heval. unfold conclude.
  destruct (updateStatistics _ _ _) as [? []]; [|done].
  intros [= _ <-]. by exists failed, debugInfo.
Qed.

Lemma full_verdict_made {T : Type} `{JsNumber T} st (d : IndicatorData T) st' v :
  PolygonConditionsService.evaluateConditions st d = (st', Normal v) →
  ∃ failed debugInfo,
    v = make_verdict (PolygonConditionsService.rule_values d, failed) debugInfo
    ∧ condition <$> failed
      = (filter (λ kv, kv.2 = false) (PolygonConditionsService.rule_values d)).*1.
Proof.
  destruct (full_conclude d) as (failed & debugInfo & Heval & Hfailed).
  rewrite Heval. unfold conclude.
  destruct (updateStatistics _ _ _) as [? []]; [|done].
  intros [= _ <-]. by exists failed, debugInfo.
Qed.
End ExampleAlert.

Section ExampleAlertTheorems.
Import Conditions Server.
Local Open Scope string_scope.

(** X12. [createValidExampleAlert] labels its result 7/7, all conditions
    met.  In real arithmetic and for every positive price, the indicators
    it makes up do pass the three rules of [conditions.js], but not the
    seven rules of the other service: there [ema200AboveEma18_5m] is false
    (EMA 200 (5m) is 0.90 times the price, EMA 18 (5m) 0.99 times), so an
    evaluation of the made-up data returns 6/7, not all met.  Both
    services return these verdicts from their initial statistics. *)
Theorem example_alert_fails_seventh_rule :
  ∀ (alert : alert R) (p : R),
    price alert = JNum p → (0 < p)%R →
    evaluation_score (processed_evaluation (createValidExampleAlert alert)) = "7/7"
    ∧ evaluation_allConditionsMet
        (processed_evaluation (createValidExampleAlert alert)) = true
    ∧ (∀ st st' verdict,
         ConditionsService.evaluateConditions st (example_data alert)
         = (st', Normal verdict) →
         conditions verdict
         = [("macd5mPositive", true); ("ema18Above200_1m", true);
            ("priceAboveVwap", true)]
         ∧ allConditionsMet verdict = true
         ∧ score verdict = "3/3")
    ∧ (∀ st st' verdict,
         PolygonConditionsService.evaluateConditions st (example_data alert)
         = (st', Normal verdict) →
         conditions verdict
         = [("macd5mPositive", true); ("macd1mPositive", true);
            ("ema18Above200_1m", true); ("ema18AboveVwap_1m", true);
            ("vwapAboveEma200_1m", true); ("closeAboveEma18_1m", true);
            ("ema200AboveEma18_5m", false)]
         ∧ passedConditions verdict = 6
         ∧ allConditionsMet verdict = false
         ∧ score verdict = "6/7")
    ∧ (∃ st' verdict,
         ConditionsService.evaluateConditions
           ConditionsService.initial_statistics (example_data alert)
         = (st', Normal verdict))
    ∧ (∃ st' verdict,
         PolygonConditionsService.evaluateConditions
           PolygonConditionsService.initial_statistics (example_data alert)
         = (st', Normal verdict)).
Proof.
  intros alert p Hprice Hp.
  destruct (example_rule_values alert p Hprice Hp) as [Hthree Hseven].
  split; [done|]. split; [done|]. split; [|split; [|split]].
  - intros st st' verdict Heval.
    apply simplified_verdict_made in Heval as (failed & debugInfo & -> & _).
    rewrite Hthree. split; [done|]. split; by vm_compute.
  - intros st st' verdict Heval.
    apply full_verdict_made in Heval as (failed & debugInfo & -> & _).
    rewrite Hseven. split; [done|]. repeat split; by vm_compute.
  - destruct (service_returns _ _ ConditionsService.rule_operands _
                simplified_conclude simplified_keys simplified_keys_nodup
                simplified_operands ConditionsService.initial_statistics
                (example_data alert))
      as (st' & v & Heval & _).
    { apply consistent_ready, simplified_initial_consistent. }
    by exists st', v.
  - destruct (service_returns _ _ PolygonConditionsService.rule_operands _
                full_conclude full_keys full_keys_nodup full_operands
                PolygonConditionsService.initial_statistics
                (example_data alert))
      as (st' & v & Heval & _).
    { apply consistent_ready, full_initial_consistent. }
    by exists st', v.
Qed.

Lemma example_alert_fails_seventh_rule_witness :
  let alert : alert R :=
    {| close := JNull; price := JNum 100%R;
       alert_type := Some "valid_example_alert" |} in
  (0 < 100)%R
  ∧ ∃ st' verdict,
      PolygonConditionsService.evaluateConditions
        PolygonConditionsService.initial_statistics (example_data alert)
      = (st', Normal verdict)
      ∧ allConditionsMet verdict = false
      ∧ score verdict = "6/7".
Proof.
  intros alert.
  assert (0 < 100)%R as Hp by lra.
  split; [exact Hp|].
  pose proof (example_alert_fails_seventh_rule alert 100%R eq_refl Hp)
    as (_ & _ & _ & Hseven & _ & Hreturns).
  destruct Hreturns as (st' & verdict & Heval).
  exists st', verdict. split; [exact Heval|].
  destruct (Hseven _ _ _ Heval) as (_ & _ & Hmet & Hscore).
  exact (conj Hmet Hscore).
Defined.
End ExampleAlertTheorems.

(** The quotients that stand for the decimal literals of
    [createValidExampleAlert] are, in doubles, the literals themselves. *)
Lemma decimal_literals_binary64 :
  Server.decimal 99 2 = 0.99%float ∧ Server.decimal 98 2 = 0.98%float
  ∧ Server.decimal 97 2 = 0.97%float ∧ Server.decimal 96 2 = 0.96%float
  ∧ Server.decimal 95 2 = 0.95%float ∧ Server.decimal 92 2 = 0.92%float
  ∧ Server.decimal 90 2 = 0.90%float ∧ Server.decimal 85 2 = 0.85%float
  ∧ Server.decimal 108 2 = 1.08%float ∧ Server.decimal 25 2 = 0.25%float
  ∧ Server.decimal 20 2 = 0.20%float ∧ Server.decimal 15 2 = 0.15%float
  ∧ Server.decimal 12 2 = 0.12%float ∧ Server.decimal 5 2 = 0.05%float
  ∧ Server.decimal 3 2 = 0.03%float.
Proof. repeat split; by vm_compute. Qed.

(** ** The EMA and the MACD of the Polygon service *)

Section PolygonEma.
Import PolygonService.
Context {T : Type} `{JsNumber T}.

Lemma polygon_calculateEMA_null (values : list T) span :
  length values = 0 ∨ length values < span →
  calculateEMA values span = None.
Proof.
  intros Hnull. unfold calculateEMA.
  repeat case_bool_decide; try done; lia.
Qed.

(** On a non-empty array of at least [span] values the loop is the
    recursion seeded with the first value. *)
Lemma polygon_calculateEMA_value (values : list T) span :
  length values ≠ 0 → span ≤ length values →
  calculateEMA values span = Some (ema_first_seeded values span).
Proof.
  intros Hne Hlen. unfold calculateEMA.
  rewrite bool_decide_eq_false_2 by done.
  rewrite bool_decide_eq_false_2 by lia.
  f_equal. unfold ema_first_seeded.
  rewrite (for_range_read
             (λ ema v, (#2 / (#span + #1) * v
                        + (#1 - #2 / (#span + #1)) * ema)%js)) by done.
  by rewrite take_ge by (rewrite length_drop; lia).
Qed.

Lemma polygon_calculateEMA_is_Some (values : list T) span :
  is_Some (calculateEMA values span)
  ↔ length values ≠ 0 ∧ span ≤ length values.
Proof.
  split.
  - intros [ema Hema]. unfold calculateEMA in Hema.
    repeat case_bool_decide; try done. lia.
  - intros [Hne Hlen]. rewrite polygon_calculateEMA_value by done. eauto.
Qed.

(** The loop of [calculateMACDWithEMA] over indices at which both
    averages exist pushes one entry per index onto each array. *)
Lemma macd_with_ema_loop (closes : list T) fast slow (indices : list nat) :
  1 ≤ fast → fast ≤ slow →
  (∀ i, i ∈ indices → slow ≤ S i ∧ i < length closes) →
  ∀ arrays,
    foldl (λ arrays i,
             match calculateEMA (take (i + 1) closes) fast,
                   calculateEMA (take (i + 1) closes) slow with
             | Some fastEMA, Some slowEMA =>
                 {| fastEMAs := fastEMAs arrays ++ [fastEMA];
                    slowEMAs := slowEMAs arrays ++ [slowEMA];
                    macdLine_of := macdLine_of arrays ++ [(fastEMA - slowEMA)%js] |}
             | _, _ => arrays
             end)
          arrays indices
    = {| fastEMAs :=
           fastEMAs arrays
           ++ ((λ i, ema_first_seeded (take (S i) closes) fast) <$> indices);
         slowEMAs :=
           slowEMAs arrays
           ++ ((λ i, ema_first_seeded (take (S i) closes) slow) <$> indices);
         macdLine_of :=
           macdLine_of arrays ++ (macd_entry closes fast slow <$> indices) |}.
Proof.
  intros Hfast Hslow.
  induction indices as [|i indices IH]; intros Hindices arrays.
  - cbn. rewrite !app_nil_r. by destruct arrays.
  - destruct (Hindices i) as [Hlow Hhigh]; [by left|].
    cbn [foldl]. rewrite Nat.add_1_r.
    rewrite !polygon_calculateEMA_value by (rewrite length_take; lia).
    rewrite IH by (intros j Hj; apply Hindices; by right).
    cbn [fastEMAs slowEMAs macdLine_of fmap list_fmap].
    unfold macd_entry. by rewrite <- !app_assoc.
Qed.
End PolygonEma.

Section PolygonMacd.
Import PolygonService.
Context {T : Type} `{JsNumber T}.

Lemma calculateMACDWithEMA_null (candles : list (Acquisition.candle (T := T)))
    fast slow signal :
  length candles = 0 ∨ length candles < slow + signal →
  calculateMACDWithEMA candles fast slow signal = None.
Proof.
  intros Hnull. unfold calculateMACDWithEMA. rewrite length_fmap.
  repeat case_bool_decide; try done; lia.
Qed.

Lemma calculateMACDWithEMA_value (candles : list (Acquisition.candle (T := T)))
    fast slow signal :
  1 ≤ fast → fast ≤ slow → slow + signal ≤ length candles →
  let closes := Acquisition.close <$> candles in
  let line :=
    macd_entry closes fast slow
    <$> seq (slow - 1) (length closes - (slow - 1)) in
  calculateMACDWithEMA candles fast slow signal
  = Some {| macd := (ema_first_seeded closes fast
                     - ema_first_seeded closes slow)%js;
            signal := ema_first_seeded line signal;
            histogram := ((ema_first_seeded closes fast
                           - ema_first_seeded closes slow)
                          - ema_first_seeded line signal)%js;
            lastClose := read closes (length closes - 1);
            candleCount := length closes;
            fastEMA := ema_first_seeded closes fast;
            slowEMA := ema_first_seeded closes slow;
            macdLine := line;
            signalLine := ema_first_seeded line signal |}.
Proof.
  intros Hfast Hslow Hlen closes line.
  assert (length closes = length candles) as Hcloses
    by (unfold closes; by rewrite length_fmap).
  unfold calculateMACDWithEMA. fold closes.
  rewrite bool_decide_eq_false_2 by lia.
  rewrite bool_decide_eq_false_2 by lia.
  unfold for_range.
  rewrite (macd_with_ema_loop closes fast slow) by
    (done || (intros i Hi%elem_of_seq; lia)).
  cbn [macdLine_of fastEMAs slowEMAs app]. fold line.
  assert (length line = length closes - (slow - 1)) as Hline
    by (unfold line; by rewrite length_fmap, length_seq).
  rewrite bool_decide_eq_false_2 by lia.
  rewrite polygon_calculateEMA_value by lia.
  assert (∀ f : nat → T,
            read (f <$> seq (slow - 1) (length closes - (slow - 1)))
              (length (f <$> seq (slow - 1) (length closes - (slow - 1))) - 1)
            = f (length closes - 1)) as Hlast.
  { intros f. unfold read. rewrite length_fmap, length_seq.
    rewrite list_lookup_fmap, lookup_seq_lt by lia. cbn. f_equal. lia. }
  assert (read line (length line - 1)
          = (ema_first_seeded closes fast - ema_first_seeded closes slow)%js)
    as Hlatest.
  { unfold line. rewrite Hlast. unfold macd_entry.
    replace (S (length closes - 1)) with (length closes) by lia.
    by rewrite take_ge by done. }
  rewrite !Hlatest. rewrite !Hlast.
  replace (S (length closes - 1)) with (length closes) by lia.
  by rewrite take_ge by done.
Qed.
End PolygonMacd.

Section PolygonReal.
Import PolygonService.
Local Open Scope R_scope.

(** In real arithmetic, for a span of at least 1, a step of the recursion
    stays between any two bounds of the average and the value. *)
Lemma ema_first_step_bounds (span : nat) (lo hi ema value : R) :
  (1 ≤ span)%nat →
  lo <= ema <= hi → lo <= value <= hi →
  lo <= ema_first_step span ema value <= hi.
Proof.
  intros Hspan Hema Hvalue. unfold ema_first_step.
  cbn [num_add num_sub num_mul num_div num_of_nat exact_real].
  assert (1 <= INR span) as Hreal.
  { change 1 with (INR 1). by apply le_INR. }
  change (INR 2) with (1 + 1). change (INR 1) with 1.
  set (alpha := (1 + 1) / (INR span + 1)).
  assert (0 < alpha <= 1) as [Hpositive Hone].
  { unfold alpha. split.
    - apply Rdiv_lt_0_compat; lra.
    - apply Rmult_le_reg_r with (INR span + 1); [lra|].
      unfold Rdiv. rewrite Rmult_assoc, Rinv_l by lra. lra. }
  split; nra.
Qed.

Lemma ema_first_seeded_bounds (values : list R) (span : nat) (lo hi : R) :
  (1 ≤ span)%nat → values ≠ [] →
  (∀ value, value ∈ values → lo <= value <= hi) →
  lo <= ema_first_seeded values span <= hi.
Proof.
  intros Hspan Hne Hvalues. unfold ema_first_seeded.
  destruct values as [|first values]; [done|].
  cbn [read lookup list_lookup default drop].
  assert (lo <= first <= hi) as Hfirst by (apply Hvalues; by left).
  assert (∀ value, value ∈ values → lo <= value <= hi) as Hrest
    by (intros value Hvalue; apply Hvalues; by right).
  clear Hvalues Hne. revert first Hfirst.
  induction values as [|value values IH]; intros ema Hema; [done|].
  cbn [foldl]. apply IH.
  - intros v Hv. apply Hrest. by right.
  - apply ema_first_step_bounds; [done|done|]. apply Hrest. by left.
Qed.
End PolygonReal.

Section PolygonTheorems.
Import PolygonService.

(** X13. [calculateEMA] of the Polygon service returns [null] exactly for
    an empty array or one shorter than the span; otherwise it is the
    recursion [ema = alpha*value + (1-alpha)*ema] with
    [alpha = 2/(span+1)], started from the first value (not from the
    average of the first [span] values, as the indicators service does),
    in any arithmetic.  In real arithmetic, for a span of at least 1, the
    result lies between any two bounds of the values; on a constant series
    it is that constant. *)
Theorem polygon_calculateEMA_first_seeded :
  (∀ (T : Type) (N : JsNumber T) (values : list T) (span : nat),
     (calculateEMA values span = None
      ↔ length values = 0 ∨ length values < span)
     ∧ (length values ≠ 0 → span ≤ length values →
        calculateEMA values span = Some (ema_first_seeded values span)))
  ∧ (∀ (values : list R) (span : nat) (lo hi ema : R),
       1 ≤ span →
       (∀ value, value ∈ values → (lo <= value <= hi)%R) →
       calculateEMA values span = Some ema →
       (lo <= ema <= hi)%R)
  ∧ (∀ (n span : nat) (c : R),
       1 ≤ span → span ≤ S n →
       calculateEMA (replicate (S n) c) span = Some c).
Proof.
  assert (∀ (values : list R) (span : nat) (lo hi ema : R),
            1 ≤ span →
            (∀ value, value ∈ values → (lo <= value <= hi)%R) →
            calculateEMA values span = Some ema →
            (lo <= ema <= hi)%R) as Hbounds.
  { intros values span lo hi ema Hspan Hvalues Hema.
    assert (is_Some (calculateEMA values span)) as [Hne Hlen]%polygon_calculateEMA_is_Some
      by (by rewrite Hema).
    rewrite polygon_calculateEMA_value in Hema by done.
    injection Hema as <-. apply ema_first_seeded_bounds; [done| |done].
    by destruct values. }
  split; [|split; [exact Hbounds|]].
  - intros T N values span. split.
    + split.
      * intros Hnull.
        destruct (decide (length values = 0)) as [|Hne]; [by left|].
        destruct (decide (length values < span)) as [|Hge]; [by right|].
        rewrite polygon_calculateEMA_value in Hnull by (done || lia). done.
      * apply polygon_calculateEMA_null.
    + apply polygon_calculateEMA_value.
  - intros n span c Hspan Hlen.
    assert (calculateEMA (replicate (S n) c) span
            = Some (ema_first_seeded (replicate (S n) c) span)) as Hvalue
      by (apply polygon_calculateEMA_value; rewrite length_replicate; lia).
    rewrite Hvalue. f_equal.
    assert (c <= ema_first_seeded (replicate (S n) c) span <= c)%R; [|lra].
    apply (Hbounds (replicate (S n) c) span); [done| |done].
    intros value Hvalue'%elem_of_replicate. destruct Hvalue' as [-> _]. lra.
Qed.

Lemma polygon_calculateEMA_first_seeded_witness :
  (length [1; 2; 3]%float ≠ 0 ∧ 2 ≤ length [1; 2; 3]%float
   ∧ calculateEMA [1; 2; 3]%float 2
     = Some (ema_first_seeded [1; 2; 3]%float 2))
  ∧ (1 ≤ 2 ∧ 2 ≤ 3 ∧ calculateEMA (replicate 3 7%R) 2 = Some 7%R).
Proof.
  pose proof polygon_calculateEMA_first_seeded as (Hany & _ & Hconstant).
  split.
  - split; [simpl; lia|]. split; [simpl; lia|].
    apply (Hany float binary64); simpl; lia.
  - split; [lia|]. split; [lia|]. apply Hconstant; lia.
Defined.

(** X14. [calculateMACDWithEMA], for periods with [1 <= fast <= slow], in
    any arithmetic: it returns [null] exactly when there are fewer than
    [slow + signal] candles.  Otherwise its MACD line has one entry for
    each index from [slow - 1] on, each the difference of the fast and the
    slow first-seeded EMA of the closes up to that index; [macd] is the
    difference for all closes, [signal] the first-seeded EMA of the line,
    and [histogram] is [macd - signal]. *)
Theorem calculateMACDWithEMA_line :
  ∀ (T : Type) (N : JsNumber T) (candles : list (Acquisition.candle (T := T)))
    (fast slow signalPeriod : nat),
    1 ≤ fast → fast ≤ slow →
    let closes := Acquisition.close <$> candles in
    (calculateMACDWithEMA candles fast slow signalPeriod = None
     ↔ length candles < slow + signalPeriod)
    ∧ (slow + signalPeriod ≤ length candles →
       ∃ result,
         calculateMACDWithEMA candles fast slow signalPeriod = Some result
         ∧ macdLine result
           = (macd_entry closes fast slow
              <$> seq (slow - 1) (length candles - (slow - 1)))
         ∧ length (macdLine result) = S (length candles - slow)
         ∧ macd result
           = (ema_first_seeded closes fast - ema_first_seeded closes slow)%js
         ∧ calculateEMA (macdLine result) signalPeriod = Some (signal result)
         ∧ signal result = ema_first_seeded (macdLine result) signalPeriod
         ∧ histogram result = (macd result - signal result)%js
         ∧ candleCount result = length candles).
Proof.
  intros T N candles fast slow signalPeriod Hfast Hslow closes.
  assert (length closes = length candles) as Hcloses
    by (unfold closes; by rewrite length_fmap).
  split.
  - split.
    + intros Hnull.
      destruct (decide (length candles < slow + signalPeriod)) as [|Hge]; [done|].
      rewrite calculateMACDWithEMA_value in Hnull by lia. done.
    + intros Hshort. apply calculateMACDWithEMA_null. by right.
  - intros Hlen. eexists. split; [by apply calculateMACDWithEMA_value|].
    cbn [macdLine macd signal histogram candleCount]. fold closes.
    rewrite Hcloses.
    assert (length (macd_entry closes fast slow
                    <$> seq (slow - 1) (length candles - (slow - 1)))
            = S (length candles - slow)) as Hline
      by (rewrite length_fmap, length_seq; lia).
    repeat split; try done.
    apply polygon_calculateEMA_value; lia.
Qed.

Lemma calculateMACDWithEMA_line_witness :
  1 ≤ 12 ∧ 12 ≤ 26 ∧ 26 + 9 ≤ length Scenarios.night1m
  ∧ ∃ result,
      calculateMACDWithEMA Scenarios.night1m 12 26 9 = Some result
      ∧ length (macdLine result) = S (length Scenarios.night1m - 26)
      ∧ histogram result = (macd result - signal result)%js.
Proof.
  assert (1 ≤ 12) as Hfast by lia.
  assert (12 ≤ 26) as Hslow by lia.
  assert (26 + 9 ≤ length Scenarios.night1m) as Hlen by (vm_compute; lia).
  split; [exact Hfast|]. split; [exact Hslow|]. split; [exact Hlen|].
  destruct (proj2 (calculateMACDWithEMA_line float binary64 Scenarios.night1m
                     12 26 9 Hfast Hslow) Hlen)
    as (result & Hresult & _ & Hline & _ & _ & _ & Hhistogram & _).
  exists result. split; [exact Hresult|]. split; [exact Hline|exact Hhistogram].
Defined.
End PolygonTheorems.

(** ** The summary of a verdict *)

Section Summary.
Import Conditions StatisticsReport.
Context {T : Type} `{JsNumber T}.

Lemma count_failed_passed (values : list (string * bool)) :
  length (filter (λ kv, kv.2 = false) values) + count_passed values
  = count_total values.
Proof.
  unfold count_passed, count_total. rewrite !length_fmap.
  induction values as [|[key value] values IH]; [done|].
  rewrite filter_cons. cbn [fmap list_fmap snd List.filter length].
  destruct value; cbn [snd].
  - rewrite decide_False by done. cbn [length]. lia.
  - rewrite decide_True by done. cbn [length]. lia.
Qed.

(** A verdict made from the results of the rules and from failure records
    in step with the false ones. *)
Lemma made_verdict_summary (values : list (string * bool))
    (failed : list (failed_condition T)) debugInfo :
  condition <$> failed = (filter (λ kv, kv.2 = false) values).*1 →
  let summary := getConditionSummary (make_verdict (values, failed) debugInfo) in
  failedCount summary + count_passed values = count_total values
  ∧ (allMet summary = true ↔ failedCount summary = 0)
  ∧ condition <$> summary_failedConditions summary
    = (filter (λ kv, kv.2 = false) values).*1
  ∧ summary_score summary
    = (pretty (count_passed values) +:+ "/" +:+ pretty (count_total values))%string.
Proof.
  intros Hfailed summary.
  assert (failedCount summary = length (filter (λ kv, kv.2 = false) values))
    as Hcount.
  { unfold summary, getConditionSummary.
    cbn [failedCount make_verdict failedConditions snd].
    by rewrite <- (length_fmap condition), Hfailed, length_fmap. }
  pose proof (count_failed_passed values) as Hsum.
  split; [lia|]. split; [|by split].
  unfold summary, getConditionSummary in *.
  cbn [allMet failedCount make_verdict allConditionsMet failedConditions fst snd]
    in *.
  rewrite bool_decide_eq_true. lia.
Qed.
End Summary.

Section SummaryTheorems.
Import Conditions StatisticsReport.

(** X15. For every verdict that either service returns,
    [getConditionSummary] reports in [failedCount] exactly the rules that
    did not pass: [failedCount + passedConditions = totalConditions],
    [allMet] holds exactly when [failedCount] is 0, the failure records
    are those of the false rules, in rule order, and [score] is
    [passed/total]. *)
Theorem getConditionSummary_counts_failures :
  ∀ (T : Type) (N : JsNumber T) (d : IndicatorData T) st st' verdict,
    ConditionsService.evaluateConditions st d = (st', Normal verdict)
    ∨ PolygonConditionsService.evaluateConditions st d = (st', Normal verdict) →
    let summary := getConditionSummary verdict in
    failedCount summary + passedConditions verdict = totalConditions verdict
    ∧ (allMet summary = true ↔ failedCount summary = 0)
    ∧ condition <$> summary_failedConditions summary
      = (filter (λ kv, kv.2 = false) (Conditions.conditions verdict)).*1
    ∧ summary_score summary
      = (pretty (passedConditions verdict) +:+ "/"
         +:+ pretty (totalConditions verdict))%string.
Proof.
  intros T N d st st' verdict
    [(failed & debugInfo & -> & Hfailed)%simplified_verdict_made
    |(failed & debugInfo & -> & Hfailed)%full_verdict_made];
    by apply made_verdict_summary.
Qed.

Lemma getConditionSummary_counts_failures_witness :
  ∃ st' verdict,
    ConditionsService.evaluateConditions ConditionsService.initial_statistics
      (Scenarios.data_with_price JNull) = (st', Normal verdict)
    ∧ failedCount (getConditionSummary verdict) + passedConditions verdict
      = totalConditions verdict.
Proof.
  destruct (simplified_fresh_processes (T := float) [] (Scenarios.data_with_price JNull))
    as (st' & verdict & Heval).
  exists st', verdict. split; [exact Heval|].
  exact (proj1 (getConditionSummary_counts_failures float binary64 _ _ _ _
                  (or_introl Heval))).
Defined.
End SummaryTheorems.

(** ** The statistics report *)

Section ServiceTally.
Import Conditions.
Context {T : Type} `{JsNumber T}.

Variable evaluate :
  Statistics → IndicatorData T → Statistics * completion (Verdict T).
Variable reset : Statistics → Statistics.
Variable values : IndicatorData T → list (string * bool).
Variable keys : list string.

Hypothesis evaluate_conclude :
  ∀ d, ∃ failed debugInfo,
    (∀ st, evaluate st d = conclude st (values d, failed) debugInfo)
    ∧ condition <$> failed = (filter (λ kv, kv.2 = false) (values d)).*1.
Hypothesis values_keys : ∀ d, (values d).*1 = keys.
Hypothesis keys_nodup : NoDup keys.

(** One evaluation, in a state with a counter for every rule. *)
Lemma evaluate_tally st d :
  (∀ key, key ∈ keys → is_Some (conditionCounts st !! key)) →
  totalPassed (evaluate st d).1
  = (if StatisticsReport.all_rules_met values d then S (totalPassed st) else totalPassed st)
  ∧ dom (conditionCounts (evaluate st d).1) = dom (conditionCounts st)
  ∧ ∀ key, key ∈ keys →
      conditionCounts (evaluate st d).1 !! key
      = bump (condition_value (values d) key) <$> conditionCounts st !! key.
Proof.
  intros Hready.
  destruct (evaluate_conclude d) as (failed & debugInfo & Heval & _).
  rewrite Heval.
  destruct (conclude_counts st (values d, failed) debugInfo) as (_ & Hpassed & Hdom).
  split; [exact Hpassed|]. split; [exact Hdom|].
  destruct (conclude_normal st (values d, failed) debugInfo)
    as (cc' & Hrun & Hlookup).
  { cbn. by rewrite values_keys. }
  { cbn. by rewrite values_keys. }
  intros key Hkey. rewrite Hrun. cbn [fst conditionCounts].
  rewrite Hlookup. cbn [fst]. by rewrite decide_True by (by rewrite values_keys).
Qed.

(** The statistics after a sequence of evaluations, from counters at
    zero: each rule has been counted once per input, on the side of its
    result. *)
Lemma serve_tally st0 (inputs : list (IndicatorData T)) :
  totalPassed st0 = 0 →
  (∀ key, key ∈ keys → conditionCounts st0 !! key = Some zero_counts) →
  let st := serve_with evaluate reset st0 (Evaluate <$> inputs) in
  totalPassed st = length (List.filter (StatisticsReport.all_rules_met values) inputs)
  ∧ dom (conditionCounts st) = dom (conditionCounts st0)
  ∧ ∀ key, key ∈ keys →
      conditionCounts st !! key = Some (StatisticsReport.rule_tally values key inputs).
Proof.
  intros Hpassed0 Hzero.
  induction inputs as [|d inputs IH] using rev_ind.
  - cbn. split; [done|]. split; [done|]. intros key Hkey. by rewrite Hzero.
  - destruct IH as (Hpassed & Hdom & Hcounts).
    unfold serve_with. rewrite fmap_app, foldl_app. cbn [fmap list_fmap foldl].
    fold (serve_with evaluate reset st0 (Evaluate <$> inputs)).
    destruct (evaluate_tally (serve_with evaluate reset st0 (Evaluate <$> inputs)) d)
      as (Hpassed' & Hdom' & Hcounts').
    { intros key Hkey. rewrite Hcounts by done. eauto. }
    cbv zeta. split; [|split].
    + rewrite Hpassed', Hpassed, List.filter_app, length_app. cbn [List.filter].
      destruct (StatisticsReport.all_rules_met values d); cbn [length]; lia.
    + by rewrite Hdom'.
    + intros key Hkey. rewrite Hcounts', Hcounts by done.
      cbn [fmap option_fmap option_map]. f_equal.
      unfold StatisticsReport.rule_tally. rewrite !filter_app, !length_app, !filter_cons, !filter_nil.
      destruct (condition_value (values d) key) eqn:Hvalue; cbn [bump passed failed].
      * rewrite decide_True, decide_False by done. cbn [length]. f_equal; lia.
      * rewrite decide_False, decide_True by done. cbn [length]. f_equal; lia.
Qed.

Lemma rule_tally_total key (inputs : list (IndicatorData T)) :
  passed (StatisticsReport.rule_tally values key inputs) + failed (StatisticsReport.rule_tally values key inputs)
  = length inputs.
Proof.
  unfold StatisticsReport.rule_tally. cbn [passed failed].
  induction inputs as [|d inputs IH]; [done|].
  rewrite !filter_cons.
  destruct (condition_value (values d) key).
  - rewrite decide_True, decide_False by done. cbn [length]. lia.
  - rewrite decide_False, decide_True by done. cbn [length]. lia.
Qed.

(** The report of such statistics. *)
Lemma getStatistics_tally conditionNames literals st0 (inputs : list (IndicatorData T)) :
  totalEvaluations st0 = 0 → totalPassed st0 = 0 →
  (∀ key, key ∈ keys → conditionCounts st0 !! key = Some zero_counts) →
  StatisticsReport.counter_keys literals st0 = keys →
  let st := serve_with evaluate reset st0 (Evaluate <$> inputs) in
  let report := StatisticsReport.getStatistics (T := T) conditionNames literals st in
  StatisticsReport.totalEvaluations report = length inputs
  ∧ StatisticsReport.totalPassed report
    = length (List.filter (StatisticsReport.all_rules_met values) inputs)
  ∧ StatisticsReport.totalFailed report
    = Z.of_nat (length (List.filter (λ d, negb (StatisticsReport.all_rules_met values d)) inputs))
  ∧ StatisticsReport.conditions report
    = (StatisticsReport.tally_entry conditionNames values inputs <$> keys).
Proof.
  intros Hevaluations0 Hpassed0 Hzero Hkeys st report.
  destruct (serve_tally st0 inputs Hpassed0 Hzero) as (Hpassed & Hdom & Hcounts).
  fold st in Hpassed, Hdom, Hcounts.
  assert (Conditions.totalEvaluations st = length inputs) as Hevaluations.
  { unfold st. rewrite (serve_evaluations evaluate reset values evaluate_conclude).
    lia. }
  destruct (filter_negb_partition (StatisticsReport.all_rules_met values) inputs) as [_ Hsplit].
  unfold report, StatisticsReport.getStatistics.
  cbn [StatisticsReport.totalEvaluations StatisticsReport.totalPassed
       StatisticsReport.totalFailed StatisticsReport.conditions].
  split; [done|]. split; [done|]. split; [lia|].
  assert (StatisticsReport.counter_keys literals st = keys) as ->
    by (unfold StatisticsReport.counter_keys in *; by rewrite Hdom).
  clear Hkeys. 
  assert (∀ key, key ∈ keys →
                 StatisticsReport.condition_entry (T := T) conditionNames st key
                 = Some (StatisticsReport.tally_entry conditionNames values inputs key)) as Hentry.
  { intros key Hkey. unfold StatisticsReport.condition_entry, StatisticsReport.tally_entry.
    rewrite (Hcounts key Hkey). cbn [mbind option_bind].
    by rewrite rule_tally_total. }
  assert (∀ l : list string,
            (∀ key, key ∈ l →
                    StatisticsReport.condition_entry (T := T) conditionNames st key
                    = Some (StatisticsReport.tally_entry conditionNames values
                              inputs key)) →
            omap (StatisticsReport.condition_entry conditionNames st) l
            = (StatisticsReport.tally_entry conditionNames values inputs <$> l))
    as Hlist.
  { induction l as [|key l IH]; intros Hl; [done|].
    cbn [omap list_omap fmap list_fmap].
    rewrite Hl by (by left). f_equal.
    apply IH. intros key' Hkey'. apply Hl. by right. }
  by apply Hlist.
Qed.
End ServiceTally.

Section ReportTheorems.
Import Conditions.

Lemma simplified_initial_zero key :
  key ∈ ConditionsService.rule_keys →
  conditionCounts ConditionsService.initial_statistics !! key = Some zero_counts.
Proof. intros Hkey. by_rule Hkey; subst key; by vm_compute. Qed.

Lemma full_initial_zero key :
  key ∈ PolygonConditionsService.rule_keys →
  conditionCounts PolygonConditionsService.initial_statistics !! key
  = Some zero_counts.
Proof. intros Hkey. by_rule Hkey; subst key; by vm_compute. Qed.

Lemma simplified_initial_keys :
  StatisticsReport.counter_keys StatisticsReport.simplified_literals
    ConditionsService.initial_statistics
  = ConditionsService.rule_keys.
Proof. by vm_compute. Qed.

Lemma full_initial_keys :
  StatisticsReport.counter_keys PolygonConditionsService.rule_keys
    PolygonConditionsService.initial_statistics
  = PolygonConditionsService.rule_keys.
Proof. by vm_compute. Qed.

(** X16. After any sequence of evaluations of a new service (no reset),
    [getStatistics] reports what happened: [totalEvaluations] is the
    number of inputs, [totalPassed] the number of inputs that met all
    rules and [totalFailed] the number of the others; [conditions] has one
    entry per rule, in rule order, with its name, the numbers of inputs on
    which the rule was true and false, and their sum, the number of
    inputs, as [total].  For both services. *)
Theorem getStatistics_reports_tallies :
  ∀ (T : Type) (N : JsNumber T) (inputs : list (IndicatorData T)),
    (let report :=
       StatisticsReport.getStatistics (T := T) ConditionsService.conditionNames
         StatisticsReport.simplified_literals
         (ConditionsService.serve ConditionsService.initial_statistics
            (Evaluate <$> inputs)) in
     StatisticsReport.totalEvaluations report = length inputs
     ∧ StatisticsReport.totalPassed report
       = length (List.filter
                   (StatisticsReport.all_rules_met ConditionsService.rule_values)
                   inputs)
     ∧ StatisticsReport.totalFailed report
       = Z.of_nat
           (length (List.filter
                      (λ d, negb (StatisticsReport.all_rules_met
                                    ConditionsService.rule_values d))
                      inputs))
     ∧ StatisticsReport.conditions report
       = (StatisticsReport.tally_entry ConditionsService.conditionNames
            ConditionsService.rule_values inputs
          <$> ConditionsService.rule_keys))
    ∧ (let report :=
         StatisticsReport.getStatistics (T := T)
           PolygonConditionsService.conditionNames
           PolygonConditionsService.rule_keys
           (PolygonConditionsService.serve
              PolygonConditionsService.initial_statistics
              (Evaluate <$> inputs)) in
       StatisticsReport.totalEvaluations report = length inputs
       ∧ StatisticsReport.totalPassed report
         = length (List.filter
                     (StatisticsReport.all_rules_met
                        PolygonConditionsService.rule_values)
                     inputs)
       ∧ StatisticsReport.totalFailed report
         = Z.of_nat
             (length (List.filter
                        (λ d, negb (StatisticsReport.all_rules_met
                                      PolygonConditionsService.rule_values d))
                        inputs))
       ∧ StatisticsReport.conditions report
         = (StatisticsReport.tally_entry PolygonConditionsService.conditionNames
              PolygonConditionsService.rule_values inputs
            <$> PolygonConditionsService.rule_keys))
    ∧ (∀ key, key ∈ ConditionsService.rule_keys →
              is_Some (ConditionsService.conditionNames !! key))
    ∧ (∀ key, key ∈ PolygonConditionsService.rule_keys →
              is_Some (PolygonConditionsService.conditionNames !! key)).
Proof.
  intros T N inputs. split; [|split; [|split]].
  - apply (getStatistics_tally _ ConditionsService.resetStatistics _ _
             simplified_conclude simplified_keys simplified_keys_nodup);
      [done|done|apply simplified_initial_zero|apply simplified_initial_keys].
  - apply (getStatistics_tally _ PolygonConditionsService.resetStatistics _ _
             full_conclude full_keys full_keys_nodup);
      [done|done|apply full_initial_zero|apply full_initial_keys].
  - intros key Hkey. by_rule Hkey; subst key; eexists; vm_compute; reflexivity.
  - intros key Hkey. by_rule Hkey; subst key; eexists; vm_compute; reflexivity.
Qed.
End ReportTheorems.

(** ** The conditions that fail most often *)

Section TopFailing.
Import StatisticsReport.
Context {T : Type}.

Lemma insert_by_failed_perm (e : condition_report T) (sorted : list (condition_report T)) :
  insert_by_failed e sorted ≡ₚ e :: sorted.
Proof.
  induction sorted as [|next sorted IH]; [done|].
  cbn [insert_by_failed]. case_bool_decide; [|done].
  rewrite IH. apply perm_swap.
Qed.

Lemma sort_by_failed_perm (entries : list (condition_report T)) :
  sort_by_failed entries ≡ₚ entries.
Proof.
  induction entries as [|e entries IH]; [done|].
  cbn [sort_by_failed foldr].
  rewrite insert_by_failed_perm. by constructor.
Qed.

Lemma insert_by_failed_sorted (e : condition_report T) (sorted : list (condition_report T)) :
  StronglySorted (λ a b : condition_report T, failed b ≤ failed a) sorted →
  StronglySorted (λ a b : condition_report T, failed b ≤ failed a) (insert_by_failed e sorted).
Proof.
  induction 1 as [|next sorted Hsorted IH Hnext]; cbn [insert_by_failed].
  - repeat constructor.
  - case_bool_decide as Hlt.
    + constructor; [done|].
      rewrite insert_by_failed_perm. constructor; [lia|done].
    + constructor; [by constructor|].
      constructor; [lia|].
      eapply Forall_impl; [exact Hnext|]. intros b Hb. cbv beta in *. lia.
Qed.

Lemma sort_by_failed_sorted (entries : list (condition_report T)) :
  StronglySorted (λ a b : condition_report T, failed b ≤ failed a) (sort_by_failed entries).
Proof.
  induction entries as [|e entries IH]; [constructor|].
  by apply insert_by_failed_sorted.
Qed.

(** The sort keeps the order of the entries that failed equally often. *)
Lemma insert_by_failed_stable (n : nat) (e : condition_report T) (sorted : list (condition_report T)) :
  filter (λ x : condition_report T, failed x = n) (insert_by_failed e sorted)
  = filter (λ x : condition_report T, failed x = n) (e :: sorted).
Proof.
  induction sorted as [|next sorted IH]; [done|].
  cbn [insert_by_failed]. case_bool_decide as Hlt; [|done].
  rewrite filter_cons, IH, !filter_cons.
  destruct (decide (failed next = n)), (decide (failed e = n)); try done. lia.
Qed.

Lemma sort_by_failed_stable (n : nat) (entries : list (condition_report T)) :
  filter (λ x : condition_report T, failed x = n) (sort_by_failed entries)
  = filter (λ x : condition_report T, failed x = n) entries.
Proof.
  induction entries as [|e entries IH]; [done|].
  cbn [sort_by_failed foldr].
  rewrite insert_by_failed_stable, !filter_cons.
  fold (sort_by_failed entries). by rewrite IH.
Qed.
End TopFailing.

Section TopFailingTheorems.

(** X17. [getTopFailingConditions(limit)], in any state of the
    statistics: it returns the first [limit] entries (all of them if there
    are fewer) of a rearrangement of the entries of the report that is
    ordered by decreasing [failed] and keeps the report's order among
    entries with equal [failed]; so no entry left out failed more often
    than one returned. *)
Theorem getTopFailingConditions_sorted :
  ∀ (T : Type) (N : JsNumber T) conditionNames literals
    (st : Conditions.Statistics) (limit : nat),
    let entries :=
      (StatisticsReport.conditions
         (StatisticsReport.getStatistics (T := T) conditionNames literals st)).*2 in
    let top :=
      StatisticsReport.getTopFailingConditions (T := T) conditionNames literals
        st limit in
    ∃ rest,
      top ++ rest ≡ₚ entries
      ∧ length top = limit `min` length entries
      ∧ StronglySorted
          (λ a b, StatisticsReport.failed b ≤ StatisticsReport.failed a)
          (top ++ rest)
      ∧ (∀ a b, a ∈ top → b ∈ rest →
                StatisticsReport.failed b ≤ StatisticsReport.failed a)
      ∧ ∀ n, filter (λ e, StatisticsReport.failed e = n) (top ++ rest)
             = filter (λ e, StatisticsReport.failed e = n) entries.
Proof.
  intros T N conditionNames literals st limit entries top.
  exists (drop limit (StatisticsReport.sort_by_failed entries)).
  unfold top, StatisticsReport.getTopFailingConditions. fold entries.
  pose proof (sort_by_failed_sorted entries) as Hsorted.
  rewrite take_drop.
  split; [apply sort_by_failed_perm|].
  split; [by rewrite length_take, (Permutation_length (sort_by_failed_perm entries))|].
  split; [done|]. split; [|intros n; apply sort_by_failed_stable].
  intros a b Ha Hb.
  rewrite <- (take_drop limit (StatisticsReport.sort_by_failed entries)) in Hsorted.
  by apply (StronglySorted_app_1_elem_of _ _ _ a b Hsorted).
Qed.
End TopFailingTheorems.

(** ** The report after a reset *)

Section ReportKeys.
Import Conditions.
Context {T : Type} `{JsNumber T}.

(** The report has one entry for each key with a counter, under that
    key and with the name registered for it, if any. *)
Lemma report_entries conditionNames literals (st : Statistics) :
  (StatisticsReport.conditions
     (StatisticsReport.getStatistics (T := T) conditionNames literals st)).*1
  = StatisticsReport.counter_keys literals st
  ∧ ∀ key entry,
      (key, entry)
      ∈ StatisticsReport.conditions
          (StatisticsReport.getStatistics (T := T) conditionNames literals st) →
      StatisticsReport.name entry = conditionNames !! key.
Proof.
  unfold StatisticsReport.getStatistics. cbn [StatisticsReport.conditions].
  assert (∀ key, key ∈ StatisticsReport.counter_keys literals st →
                 is_Some (conditionCounts st !! key)) as Hpresent.
  { intros key [Hkey _]%list_elem_of_filter. by apply elem_of_dom. }
  induction (StatisticsReport.counter_keys literals st) as [|key keys IH].
  - split; [done|]. intros key entry Hin. by apply elem_of_nil in Hin.
  - destruct (Hpresent key) as [c Hc]; [by left|].
    destruct IH as [IHkeys IHnames]; [intros k Hk; apply Hpresent; by right|].
    cbn [omap list_omap].
    destruct (StatisticsReport.condition_entry conditionNames st key)
      as [[k e]|] eqn:Hentry;
      unfold StatisticsReport.condition_entry in Hentry; rewrite Hc in Hentry;
      cbn [mbind option_bind] in Hentry; [|done].
    injection Hentry as <- <-. cbn [fmap list_fmap fst]. split.
    + by rewrite IHkeys.
    + intros key' entry [[= -> ->]|Hin]%elem_of_cons; [done|by apply IHnames].
Qed.
End ReportKeys.

Section ReportAfterReset.
Import Conditions.
Local Open Scope string_scope.

(** X18. Once [resetStatistics] of [conditions.js] has run, and whatever
    is evaluated afterwards, the report of [getStatistics] lists the seven
    keys of the reset literal: [priceAboveVwap], a rule of this service,
    is not among them, and of the seven only [macd5mPositive] and
    [ema18Above200_1m] have a name; the other five are reported with an
    undefined name. *)
Theorem getStatistics_after_reset :
  ∀ (T : Type) (N : JsNumber T) (requests : list (request T)),
    Reset ∈ requests →
    let report :=
      StatisticsReport.getStatistics (T := T) ConditionsService.conditionNames
        StatisticsReport.simplified_literals
        (ConditionsService.serve ConditionsService.initial_statistics requests) in
    (StatisticsReport.conditions report).*1
    = ["macd5mPositive"; "macd1mPositive"; "ema18Above200_1m";
       "ema18AboveVwap_1m"; "vwapAboveEma200_1m"; "closeAboveEma18_1m";
       "ema200AboveEma18_5m"]
    ∧ ("priceAboveVwap" ∉ (StatisticsReport.conditions report).*1)
    ∧ ∀ key entry,
        (key, entry) ∈ StatisticsReport.conditions report →
        (is_Some (StatisticsReport.name entry)
         ↔ key = "macd5mPositive" ∨ key = "ema18Above200_1m").
Proof.
  intros T N requests Hreset report.
  destruct (report_entries (T := T) ConditionsService.conditionNames
              StatisticsReport.simplified_literals
              (ConditionsService.serve ConditionsService.initial_statistics
                 requests)) as [Hkeys Hnames].
  fold report in Hkeys, Hnames.
  assert ((StatisticsReport.conditions report).*1
          = ["macd5mPositive"; "macd1mPositive"; "ema18Above200_1m";
             "ema18AboveVwap_1m"; "vwapAboveEma200_1m"; "closeAboveEma18_1m";
             "ema200AboveEma18_5m"]) as Hseven.
  { rewrite Hkeys. unfold StatisticsReport.counter_keys.
    rewrite (simplified_serve_reset_dom requests _ Hreset). by vm_compute. }
  split; [exact Hseven|]. split.
  - rewrite Hseven. intros Hin. by_rule Hin; discriminate.
  - intros key entry Hin. rewrite (Hnames key entry Hin).
    assert (key ∈ (StatisticsReport.conditions report).*1) as Hkey
      by (apply list_elem_of_fmap; by exists (key, entry)).
    rewrite Hseven in Hkey.
    by_rule Hkey; subst key; vm_compute; split;
      try (intros [? [=]]); try (intros [[=]|[=]]); eauto.
Qed.

Lemma getStatistics_after_reset_witness :
  @Reset float ∈ [@Reset float]
  ∧ "priceAboveVwap"
    ∉ (StatisticsReport.conditions
         (StatisticsReport.getStatistics (T := float)
            ConditionsService.conditionNames
            StatisticsReport.simplified_literals
            (ConditionsService.serve ConditionsService.initial_statistics
               [Reset]))).*1.
Proof.
  assert (@Reset float ∈ [@Reset float]) as Hreset by (by left).
  split; [exact Hreset|].
  exact (proj1 (proj2 (getStatistics_after_reset float binary64 [Reset] Hreset))).
Defined.
End ReportAfterReset.

(** ** The toplist service *)

Section Toplist.
Import ToplistService.
Context {row : Type}.

(** [run] from any count of scheduled reconnections. *)
Lemma run_snoc (s : service row) (events : list (event row)) (e : event row) :
  run s (events ++ [e])
  = ((handle (run s events).1 e).1,
     if (handle (run s events).1 e).2
     then S (run s events).2 else (run s events).2).
Proof.
  unfold run. rewrite foldl_app. cbn [foldl].
  destruct (foldl _ _ events) as [s' scheduled]. cbn [fst snd].
  by destruct (handle s' e) as [s'' again].
Qed.

Lemma handle_toplistData (s : service row) (e : event row) :
  is_own_update e = false →
  toplistData (handle s e).1 = toplistData s.
Proof.
  destruct e as [| |[| |config_id rows|]| | |sent]; try done.
  - cbn [is_own_update handle handleMessage fst]. intros Hother.
    unfold handleToplistUpdate. by rewrite Hother.
  - intros _. cbn [handle]. unfold handleReconnect.
    by case_bool_decide.
  - intros _. cbn [handle]. by destruct (ws s), (isConnected s), sent.
Qed.

Lemma handle_reconnectAttempts (s : service row) (e : event row) :
  reconnectAttempts s ≤ maxReconnectAttempts →
  reconnectAttempts (handle s e).1 ≤ maxReconnectAttempts
  ∧ (e = Open → reconnectAttempts (handle s e).1 = 0)
  ∧ (e ≠ Open →
     reconnectAttempts (handle s e).1
     = (if (handle s e).2 then S (reconnectAttempts s) else reconnectAttempts s))
  ∧ ((handle s e).2 = true
     ↔ e = Close ∧ reconnectAttempts s < maxReconnectAttempts).
Proof.
  intros Hbound. unfold maxReconnectAttempts in *.
  destruct e as [| |[| |config_id rows|]| | |sent];
    cbn [handle handleMessage fst snd];
    unfold handleToplistUpdate, handleReconnect, maxReconnectAttempts;
    cbn [reconnectAttempts];
    repeat case_bool_decide;
    try (destruct (ws s), (isConnected s), sent);
    cbn [negb andb fst snd reconnectAttempts];
    (split; [lia|]); (split; [done|]); (split; [done|]);
    split; try done; try (by intros [? _]); try (intros [_ ?]; lia);
    try (intros _; split; [done|lia]).
Qed.
End Toplist.

Section ToplistRuns.
Import ToplistService.
Context {row : Type}.

Lemma run_fst_foldl (s : service row) (events : list (event row)) :
  (run s events).1 = foldl (λ s e, (handle s e).1) s events.
Proof.
  induction events as [|e events IH] using rev_ind; [done|].
  by rewrite run_snoc, foldl_app, IH.
Qed.

Lemma run_fst_app (s : service row) (before after : list (event row)) :
  (run s (before ++ after)).1 = (run (run s before).1 after).1.
Proof. by rewrite !run_fst_foldl, foldl_app. Qed.

Lemma run_fst_cons (s : service row) e (events : list (event row)) :
  (run s (e :: events)).1 = (run (handle s e).1 events).1.
Proof. by rewrite !run_fst_foldl. Qed.

(** Events other than an update for the service's own configuration
    leave the stored rows alone. *)
Lemma run_toplistData (s : service row) (events : list (event row)) :
  (∀ e, e ∈ events → is_own_update e = false) →
  toplistData (run s events).1 = toplistData s.
Proof.
  revert s. induction events as [|e events IH]; intros s Hother; [done|].
  rewrite run_fst_cons, IH by (intros e' He'; apply Hother; by right).
  apply handle_toplistData, Hother. by left.
Qed.

(** The count of reconnection attempts along any events. *)
Lemma run_reconnectAttempts (s : service row) (events : list (event row)) :
  reconnectAttempts s ≤ maxReconnectAttempts →
  reconnectAttempts (run s events).1 ≤ maxReconnectAttempts
  ∧ (Open ∉ events →
     reconnectAttempts (run s events).1
     = reconnectAttempts s + (run s events).2).
Proof.
  intros Hbound.
  induction events as [|e events [IHbound IHcount]] using rev_ind.
  - cbn. split; [done|]. intros _. lia.
  - rewrite run_snoc. cbn [fst snd].
    destruct (handle_reconnectAttempts (run s events).1 e IHbound)
      as (Hbound' & _ & Hstep & _).
    split; [done|]. intros Hopen.
    rewrite Hstep by (intros ->; apply Hopen, elem_of_app; right; by left).
    rewrite IHcount by (intros Hin; apply Hopen, elem_of_app; by left).
    destruct (handle _ e).2; lia.
Qed.
End ToplistRuns.

Section ToplistTheorems.
Import ToplistService.

(** X19. The toplist service never counts more than
    [maxReconnectAttempts] (5) reconnection attempts, whatever the socket
    does.  Between two [open] events every reconnection that a [close]
    schedules is counted, so at most five are scheduled; with the count at
    five a [close] schedules nothing any more, and only an [open] (which
    resets the count to 0) lets the service reconnect again.  A
    [disconnect()] does not reset the count. *)
Theorem toplist_reconnections_bounded :
  ∀ (row : Type) (s : service row) (events : list (event row)),
    reconnectAttempts s ≤ maxReconnectAttempts →
    reconnectAttempts (run s events).1 ≤ maxReconnectAttempts
    ∧ (Open ∉ events →
       reconnectAttempts (run s events).1
       = reconnectAttempts s + (run s events).2
       ∧ (run s events).2 ≤ maxReconnectAttempts - reconnectAttempts s)
    ∧ (∀ e, (handle (run s events).1 e).2 = true
            ↔ e = Close
              ∧ reconnectAttempts (run s events).1 < maxReconnectAttempts)
    ∧ reconnectAttempts (handle (run s events).1 Open).1 = 0
    ∧ ∀ sent, reconnectAttempts (handle (run s events).1 (Disconnect sent)).1
              = reconnectAttempts (run s events).1.
Proof.
  intros row s events Hbound.
  destruct (run_reconnectAttempts s events Hbound) as [Hbound' Hcount].
  split; [done|]. split.
  { intros Hopen. specialize (Hcount Hopen). split; [done|]. lia. }
  split.
  { intros e. by apply handle_reconnectAttempts. }
  split; [done|]. intros sent.
  cbn [handle].
  by destruct (ws (run s events).1), (isConnected (run s events).1), sent.
Qed.

Lemma toplist_reconnections_bounded_witness :
  reconnectAttempts (new_service (row := nat)) ≤ maxReconnectAttempts
  ∧ reconnectAttempts
      (run (new_service (row := nat))
         [Close; Close; Close; Close; Close; Close; Close]).1
    ≤ maxReconnectAttempts.
Proof.
  assert (reconnectAttempts (new_service (row := nat)) ≤ maxReconnectAttempts)
    as Hbound by (vm_compute; lia).
  split; [exact Hbound|].
  exact (proj1 (toplist_reconnections_bounded nat new_service
                  [Close; Close; Close; Close; Close; Close; Close] Hbound)).
Defined.

(** X20. The rows that the toplist service holds are those of the last
    [ToplistUpdate] that carried the service's own [config_id] (none at
    all if that update had no [rows]): updates for another or a missing
    [config_id], confirmations, unknown or unparsable messages and the
    events of the connection, [disconnect()] included, never change
    them. *)
Theorem toplist_holds_last_own_update :
  ∀ (row : Type) (s : service row) (before after : list (event row))
    (rows : option (list row)),
    (∀ e, e ∈ after → is_own_update e = false) →
    toplistData
      (run s (before ++ Message (ToplistUpdate (Some configID) rows) :: after)).1
    = default [] rows
    ∧ toplistData (run s after).1 = toplistData s.
Proof.
  intros row s before after rows Hother. split.
  - rewrite run_fst_app, run_fst_cons, run_toplistData by done.
    cbn [handle handleMessage fst]. unfold handleToplistUpdate.
    by rewrite bool_decide_eq_true_2.
  - by apply run_toplistData.
Qed.

Lemma toplist_holds_last_own_update_witness :
  let foreign : event nat :=
    Message (ToplistUpdate (Some "another config"%string) (Some [7])) in
  (∀ e, e ∈ [foreign; Close; Disconnect true] → is_own_update e = false)
  ∧ toplistData
      (run new_service
         ([Connect; Open]
          ++ Message (ToplistUpdate (Some configID) (Some [1; 2; 3]))
             :: [foreign; Close; Disconnect true])).1
    = [1; 2; 3].
Proof.
  intros foreign.
  assert (∀ e, e ∈ [foreign; Close; Disconnect true] → is_own_update e = false)
    as Hother.
  { intros e He. by_rule He; subst e; reflexivity. }
  split; [exact Hother|].
  exact (proj1 (toplist_holds_last_own_update nat new_service [Connect; Open]
                  [foreign; Close; Disconnect true] (Some [1; 2; 3]) Hother)).
Defined.
End ToplistTheorems.

(** ** The manual EMA and MACD in real arithmetic *)

Section ManualReal.
Import IndicatorsService.
Local Open Scope R_scope.

(** The sum of values between two bounds lies between the bounds times
    their number. *)
Lemma foldl_sum_bounds (values : list R) (lo hi : R) :
  (∀ value, value ∈ values → lo <= value <= hi) →
  ∀ sum count,
    lo * INR count <= sum <= hi * INR count →
    lo * INR (count + length values) <= foldl Rplus sum values
    <= hi * INR (count + length values).
Proof.
  induction values as [|value values IH]; intros Hvalues sum count Hsum.
  - cbn [foldl length]. by rewrite Nat.add_0_r.
  - cbn [foldl length].
    replace (count + S (length values))%nat with (S count + length values)%nat
      by lia.
    apply IH; [intros v Hv; apply Hvalues; by right|].
    rewrite S_INR. destruct (Hvalues value) as [? ?]; [by left|]. lra.
Qed.

Lemma ema_seed_bounds (values : list R) (period : nat) (lo hi : R) :
  (1 ≤ period)%nat → (period ≤ length values)%nat →
  (∀ value, value ∈ values → lo <= value <= hi) →
  lo <= ema_seed values period <= hi.
Proof.
  intros Hperiod Hlen Hvalues. unfold ema_seed.
  cbn [num_add num_div num_of_nat exact_real].
  destruct (foldl_sum_bounds (take period values) lo hi) with (sum := 0) (count := 0%nat)
    as [Hlo Hhi].
  { intros value Hvalue. apply Hvalues. by apply (subseteq_take period values). }
  { cbn [INR]. lra. }
  rewrite length_take, Nat.min_l in Hlo, Hhi by done. cbn [Nat.add] in Hlo, Hhi.
  change (INR 0) with 0.
  assert (0 < INR period) as Hpositive by (apply lt_0_INR; lia).
  split.
  - apply Rmult_le_reg_r with (INR period); [done|].
    unfold Rdiv. rewrite Rmult_assoc, Rinv_l by lra. lra.
  - apply Rmult_le_reg_r with (INR period); [done|].
    unfold Rdiv. rewrite Rmult_assoc, Rinv_l by lra. lra.
Qed.

Lemma ema_step_bounds (period : nat) (lo hi ema value : R) :
  (1 ≤ period)%nat →
  lo <= ema <= hi → lo <= value <= hi →
  lo <= ema_step period ema value <= hi.
Proof.
  intros Hperiod Hema Hvalue. unfold ema_step.
  cbn [num_add num_sub num_mul num_div num_of_nat exact_real].
  assert (1 <= INR period) as Hreal.
  { change 1 with (INR 1). by apply le_INR. }
  change (INR 2) with (1 + 1). change (INR 1) with 1.
  set (alpha := (1 + 1) / (INR period + 1)).
  assert (0 < alpha <= 1) as [Hpositive Hone].
  { unfold alpha. split.
    - apply Rdiv_lt_0_compat; lra.
    - apply Rmult_le_reg_r with (INR period + 1); [lra|].
      unfold Rdiv. rewrite Rmult_assoc, Rinv_l by lra. lra. }
  split; nra.
Qed.

Lemma ema_reference_bounds (values : list R) (period : nat) (lo hi : R) :
  (1 ≤ period)%nat → (period ≤ length values)%nat →
  (∀ value, value ∈ values → lo <= value <= hi) →
  lo <= ema_reference values period <= hi.
Proof.
  intros Hperiod Hlen Hvalues. unfold ema_reference.
  pose proof (ema_seed_bounds values period lo hi Hperiod Hlen Hvalues) as Hseed.
  assert (∀ value, value ∈ drop period values → lo <= value <= hi) as Hrest
    by (intros value Hvalue; apply Hvalues; by apply (subseteq_drop period values)).
  revert Hseed Hrest. generalize (ema_seed values period) (drop period values).
  intros ema rest. revert ema.
  induction rest as [|value rest IH]; intros ema Hema Hrest; [done|].
  cbn [foldl]. apply IH.
  - apply ema_step_bounds; [done|done|]. apply Hrest. by left.
  - intros v Hv. apply Hrest. by right.
Qed.

(** On a constant series the recursion stays at the constant. *)
Lemma ema_reference_constant (n period : nat) (c : R) :
  (1 ≤ period)%nat → (period ≤ n)%nat →
  ema_reference (replicate n c) period = c.
Proof.
  intros Hperiod Hlen.
  assert (c <= ema_reference (replicate n c) period <= c); [|lra].
  apply ema_reference_bounds; [done|by rewrite length_replicate|].
  intros value [-> _]%elem_of_replicate. lra.
Qed.


End ManualReal.

Section ManualTheorems.
Import IndicatorsService.

(** X21. [calculateManualMACD] for any periods with [1 <= fast <= slow],
    in any arithmetic: it returns [null] exactly when there are fewer than
    [slow + signal] closes; otherwise [macd] is the difference of the fast
    and the slow seeded EMA of the closes, [signal] the seeded EMA of the
    MACD line (whose entries start at index [slow - 1]), and [histogram]
    is [macd - signal]. *)
Theorem calculateManualMACD_any_periods :
  ∀ (T : Type) (N : JsNumber T) (closes : list T)
    (fast slow signalPeriod : nat),
    1 ≤ fast → fast ≤ slow →
    (calculateManualMACD closes fast slow signalPeriod = None
     ↔ length closes < slow + signalPeriod)
    ∧ (slow + signalPeriod ≤ length closes →
       ∃ result,
         calculateManualMACD closes fast slow signalPeriod = Some result
         ∧ macd result
           = (ema_reference closes fast - ema_reference closes slow)%js
         ∧ signal result
           = ema_reference (macd_line_reference closes fast slow) signalPeriod
         ∧ histogram result = (macd result - signal result)%js
         ∧ length (macd_line_reference closes fast slow)
           = length closes - (slow - 1)).
Proof.
  intros T N closes fast slow signalPeriod Hfast Hslow. split.
  - split.
    + intros Hnull.
      destruct (decide (length closes < slow + signalPeriod)) as [|Hge]; [done|].
      rewrite calculateManualMACD_value in Hnull by lia. done.
    + intros Hshort. apply calculateManualMACD_null. by right.
  - intros Hlen. eexists. split; [by apply calculateManualMACD_value|].
    cbn [macd signal histogram]. repeat split.
    by apply length_macd_line_reference.
Qed.

Lemma calculateManualMACD_any_periods_witness :
  1 ≤ 5 ∧ 5 ≤ 10 ∧ 10 + 4 ≤ length Scenarios.closes40
  ∧ ∃ result,
      calculateManualMACD Scenarios.closes40 5 10 4 = Some result
      ∧ histogram result = (macd result - signal result)%js.
Proof.
  assert (1 ≤ 5) as Hfast by lia.
  assert (5 ≤ 10) as Hslow by lia.
  assert (10 + 4 ≤ length Scenarios.closes40) as Hlen by (vm_compute; lia).
  split; [exact Hfast|]. split; [exact Hslow|]. split; [exact Hlen|].
  destruct (proj2 (calculateManualMACD_any_periods float binary64
                     Scenarios.closes40 5 10 4 Hfast Hslow) Hlen)
    as (result & Hresult & _ & _ & Hhistogram & _).
  exists result. split; [exact Hresult|exact Hhistogram].
Defined.

(** X22. In real arithmetic, for a period of at least 1,
    [calculateManualEMA] never leaves the range of its data: the result
    lies between any two bounds of the values, and on a constant series it
    is that constant. *)
Theorem calculateManualEMA_within_range :
  (∀ (values : list R) (period : nat) (lo hi ema : R),
     1 ≤ period →
     (∀ value, value ∈ values → (lo <= value <= hi)%R) →
     calculateManualEMA values period = Some ema →
     (lo <= ema <= hi)%R)
  ∧ (∀ (n period : nat) (c : R),
       1 ≤ period → period ≤ n →
       calculateManualEMA (replicate n c) period = Some c).
Proof.
  split.
  - intros values period lo hi ema Hperiod Hvalues Hema.
    assert (is_Some (calculateManualEMA values period))
      as [Hne Hlen]%calculateManualEMA_is_Some by (by rewrite Hema).
    rewrite calculateManualEMA_value in Hema by done.
    injection Hema as <-. by apply ema_reference_bounds.
  - intros n period c Hperiod Hlen.
    rewrite calculateManualEMA_value by (rewrite length_replicate; lia).
    f_equal. by apply ema_reference_constant.
Qed.

Lemma calculateManualEMA_within_range_witness :
  1 ≤ 2 ∧ 2 ≤ 3 ∧ calculateManualEMA (replicate 3 7%R) 2 = Some 7%R.
Proof.
  split; [lia|]. split; [lia|].
  apply (proj2 calculateManualEMA_within_range); lia.
Defined.


End ManualTheorems.

(** ** The checks of the last timestamps *)

Section DataChecksFacts.
Import DataChecks.
Local Open Scope Z_scope.

Lemma new_Date_Some (t t' : Z) :
  new_Date t = Some t' ↔ t' = t ∧ -8640000000000000 ≤ t ≤ 8640000000000000.
Proof.
  unfold new_Date, Acquisition.validDate.
  case_bool_decide as Hrange; split.
  - intros [= <-]. done.
  - intros [-> _]. done.
  - done.
  - intros [_ Hvalid]. done.
Qed.

(** The minutes floored to the timeframe, as the code computes them. *)
Lemma flooredMinutes_bounds (minutes timeframe : Z) :
  0 < timeframe → 0 ≤ minutes →
  0 ≤ minutes / timeframe * timeframe ≤ minutes
  ∧ minutes < minutes / timeframe * timeframe + timeframe.
Proof.
  intros Htimeframe Hminutes.
  pose proof (Z.mul_div_le minutes timeframe Htimeframe).
  pose proof (Z.mul_succ_div_gt minutes timeframe Htimeframe).
  pose proof (Z.div_pos minutes timeframe Hminutes Htimeframe).
  nia.
Qed.

Lemma normalizeToTimeframe_local (host : zone) (t : Z) (timeframe : nat) :
  timeframe ≠ 0%nat →
  normalizeToTimeframe host (Some t) timeframe
  = new_Date (UTC host (floored_local (LocalTime host t) (Z.of_nat timeframe))).
Proof.
  intros Htimeframe. unfold normalizeToTimeframe.
  rewrite bool_decide_eq_false_2 by done. done.
Qed.

Lemma floored_local_bounds (local timeframe : Z) :
  0 < timeframe →
  floored_local local timeframe ≤ local
  < floored_local local timeframe + timeframe * 60000.
Proof.
  intros Htimeframe. unfold floored_local.
  set (minutes := (local / 60000) mod 60).
  assert (0 ≤ minutes < 60) as Hminutes by (apply Z.mod_pos_bound; lia).
  destruct (flooredMinutes_bounds minutes timeframe) as [[? ?] ?]; [lia..|].
  assert (minutes * 60000 ≤ local mod 3600000 < (minutes + 1) * 60000)
    as Hlocal.
  { unfold minutes.
    pose proof (Z.div_mod local 60000).
    pose proof (Z.mod_pos_bound local 60000).
    pose proof (Z.div_mod (local / 60000) 60).
    pose proof (Z.mod_pos_bound (local / 60000) 60).
    pose proof (Z.div_mod local 3600000).
    pose proof (Z.mod_pos_bound local 3600000).
    assert (local / 3600000 = local / 60000 / 60) as Hhour
      by (rewrite Z.div_div by lia; done).
    lia. }
  nia.
Qed.

Lemma floored_local_hour (local timeframe : Z) :
  0 < timeframe →
  ∃ count, 0 ≤ count
    ∧ floored_local local timeframe
      = local - local mod 3600000 + count * (timeframe * 60000).
Proof.
  intros Htimeframe. exists ((local / 60000) mod 60 / timeframe). split.
  - apply Z.div_pos; [|done]. apply Z.mod_pos_bound. lia.
  - unfold floored_local. lia.
Qed.

(** When the timeframe divides the hour, the floored local time is a
    multiple of the timeframe. *)
Lemma floored_local_multiple (local timeframe : Z) :
  0 < timeframe → (timeframe | 60) →
  floored_local local timeframe mod (timeframe * 60000) = 0.
Proof.
  intros Htimeframe [k Hk].
  destruct (floored_local_hour local timeframe Htimeframe)
    as (count & _ & ->).
  assert (local - local mod 3600000 = local / 3600000 * 60 * 60000) as ->
    by (pose proof (Z.div_mod local 3600000); lia).
  rewrite Hk.
  replace (local / 3600000 * (k * timeframe) * 60000
           + count * (timeframe * 60000))
    with ((local / 3600000 * k + count) * (timeframe * 60000)) by ring.
  apply Z.mod_mul. lia.
Qed.

Lemma floored_local_five (local : Z) :
  floored_local local 5 = local - local mod 300000.
Proof.
  assert ((5 | 60)) as Hdivides by (by exists 12).
  pose proof (floored_local_bounds local 5 eq_refl) as Hbounds.
  pose proof (floored_local_multiple local 5 eq_refl Hdivides) as Hmultiple.
  change (5 * 60000) with 300000 in *.
  pose proof (Z.div_mod (floored_local local 5) 300000).
  pose proof (Z.div_mod local 300000).
  pose proof (Z.mod_pos_bound local 300000).
  lia.
Qed.
(** [verifyTimeAlignment] with a last candle in both series, read off
    the two normalized dates. *)
Lemma verifyTimeAlignment_last {T : Type} (host : zone)
    (candles1m candles5m : list (Acquisition.candle (T := T))) c1 c5 :
  last candles1m = Some c1 → last candles5m = Some c5 →
  verifyTimeAlignment host candles1m candles5m
  = match normalizeToTimeframe host (new_Date (Acquisition.timestamp c1)) 5,
          normalizeToTimeframe host (new_Date (Acquisition.timestamp c5)) 5
    with
    | Some time1m, Some time5m =>
        Some (if bool_decide (60 * 1000 < Z.abs (time1m - time5m))
              then AlignmentIssue else AlignmentVerified)
    | _, _ => None
    end.
Proof.
  intros Hc1 Hc5. unfold verifyTimeAlignment. rewrite Hc1, Hc5.
  destruct (new_Date (Acquisition.timestamp c1)) as [t1|];
    destruct (new_Date (Acquisition.timestamp c5)) as [t5|];
    change (normalizeToTimeframe host None 5) with (@None Z).
  - destruct (normalizeToTimeframe host (Some t1) 5),
      (normalizeToTimeframe host (Some t5) 5); try done.
    by case_bool_decide.
  - by destruct (normalizeToTimeframe host (Some t1) 5).
  - done.
  - done.
Qed.

(** With offsets that are multiples of five minutes, so is a date
    normalized to five minutes. *)
Lemma normalizeToTimeframe_five_multiple (host : zone) (timestamp : date)
    (time : Z) :
  (∀ t, (300000 | utc_offset host t)) →
  normalizeToTimeframe host timestamp 5 = Some time →
  (300000 | time).
Proof.
  intros Hutc Htime. destruct timestamp as [t|]; [|done].
  rewrite normalizeToTimeframe_local in Htime by done.
  apply new_Date_Some in Htime as [-> _].
  change (Z.of_nat 5) with 5. rewrite floored_local_five.
  unfold UTC. apply Z.divide_sub_r; [|apply Hutc].
  apply Z.mod_divide; [lia|].
  rewrite Zminus_mod, Z.mod_mod, Z.sub_diag by lia. done.
Qed.
(** In a zone at a fixed offset, normalizing to five minutes removes the
    remainder of the local time modulo five minutes. *)
Lemma normalizeToTimeframe_five_fixed (offset t : Z) :
  normalizeToTimeframe (fixed_zone offset) (Some t) 5
  = new_Date (t - (t + offset) mod 300000).
Proof.
  rewrite normalizeToTimeframe_local by done.
  change (Z.of_nat 5) with 5. rewrite floored_local_five.
  unfold UTC, LocalTime, fixed_zone; cbn [utc_offset local_offset].
  f_equal. lia.
Qed.

Lemma hoursSince_stale (now t : Z) :
  maxStaleHours < hoursSince now t ↔ 88200000 ≤ now - t.
Proof.
  unfold maxStaleHours, hoursSince.
  change (1000 * 60 * 60) with 3600000. change (2 * 3600000) with 7200000.
  pose proof (Z.div_mod (2 * (now - t) + 3600000) 7200000).
  pose proof (Z.mod_pos_bound (2 * (now - t) + 3600000) 7200000).
  lia.
Qed.
End DataChecksFacts.

Section DataChecksTheorems.
Import DataChecks.
Local Open Scope Z_scope.

(** X24. [normalizeToTimeframe] floors the local time of a date to the
    timeframe, counted from the start of the local hour: for a timeframe
    of at least one minute, the date it returns is the UTC time of a
    local time [floored] that lies a whole number of timeframes after the
    start of the local hour and less than one timeframe before the local
    time of the argument; when the timeframe divides 60, [floored] is a
    multiple of the timeframe.  An invalid date and a timeframe of 0 give
    an invalid date. *)
Theorem normalizeToTimeframe_floors_local_time :
  ∀ (host : zone) (t : Z) (timeframeMinutes : nat) (normalized : Z),
    normalizeToTimeframe host (Some t) timeframeMinutes = Some normalized →
    normalizeToTimeframe host None timeframeMinutes = None
    ∧ timeframeMinutes ≠ 0%nat
    ∧ ∃ floored count,
        normalized = UTC host floored
        ∧ 0 ≤ count
        ∧ floored
          = LocalTime host t - LocalTime host t mod 3600000
            + count * (Z.of_nat timeframeMinutes * 60000)
        ∧ floored ≤ LocalTime host t
          < floored + Z.of_nat timeframeMinutes * 60000
        ∧ ((Z.of_nat timeframeMinutes | 60) →
           floored mod (Z.of_nat timeframeMinutes * 60000) = 0).
Proof.
  intros host t timeframeMinutes normalized Hnormalized.
  split; [done|].
  assert (timeframeMinutes ≠ 0%nat) as Htimeframe.
  { intros ->. done. }
  split; [done|].
  rewrite normalizeToTimeframe_local in Hnormalized by done.
  apply new_Date_Some in Hnormalized as [-> _].
  assert (0 < Z.of_nat timeframeMinutes) as Hpositive by lia.
  destruct (floored_local_hour (LocalTime host t) _ Hpositive)
    as (count & Hcount & Hfloored).
  exists (floored_local (LocalTime host t) (Z.of_nat timeframeMinutes)), count.
  split; [done|]. split; [done|]. split; [done|].
  split; [by apply floored_local_bounds|].
  by apply floored_local_multiple.
Qed.

Lemma normalizeToTimeframe_floors_local_time_witness :
  normalizeToTimeframe (fixed_zone (-18000000)) (Some 1700000123456) 5
  = Some 1700000100000
  ∧ ∃ floored,
      1700000100000 = UTC (fixed_zone (-18000000)) floored
      ∧ floored mod (Z.of_nat 5 * 60000) = 0.
Proof.
  assert (normalizeToTimeframe (fixed_zone (-18000000)) (Some 1700000123456) 5
          = Some 1700000100000) as Hnormalized by (vm_compute; reflexivity).
  split; [exact Hnormalized|].
  destruct (normalizeToTimeframe_floors_local_time _ _ _ _ Hnormalized)
    as (_ & _ & floored & count & Hutc & _ & _ & _ & Hmultiple).
  exists floored. split; [exact Hutc|].
  apply Hmultiple. by exists 12.
Defined.

(** X25. The tolerance of one minute of [verifyTimeAlignment] never
    decides.  When the offset of the host's zone from local time to UTC
    is always a multiple of five minutes and the last two timestamps and
    their normalized dates are valid, the two normalized times are equal or at least five minutes
    apart, and the check logs that the alignment is verified exactly when
    they are equal.  With an empty series it logs that it cannot verify,
    and it throws exactly when both series have a last candle and one of
    the four dates is invalid. *)
Theorem verifyTimeAlignment_tolerance_never_decides :
  ∀ (T : Type) (host : zone)
    (candles1m candles5m : list (Acquisition.candle (T := T))),
    (∀ t, (300000 | utc_offset host t)) →
    (verifyTimeAlignment host candles1m candles5m = Some CannotVerify
     ↔ candles1m = [] ∨ candles5m = [])
    ∧ ∀ c1 c5,
        last candles1m = Some c1 → last candles5m = Some c5 →
        let normalized1m :=
          normalizeToTimeframe host (new_Date (Acquisition.timestamp c1)) 5 in
        let normalized5m :=
          normalizeToTimeframe host (new_Date (Acquisition.timestamp c5)) 5 in
        (verifyTimeAlignment host candles1m candles5m = None
         ↔ normalized1m = None ∨ normalized5m = None)
        ∧ ∀ time1m time5m,
            normalized1m = Some time1m → normalized5m = Some time5m →
            (time1m = time5m ∨ 300000 ≤ Z.abs (time1m - time5m))
            ∧ verifyTimeAlignment host candles1m candles5m
              = Some (if bool_decide (time1m = time5m)
                      then AlignmentVerified else AlignmentIssue).
Proof.
  intros T host candles1m candles5m Hutc. split.
  - split.
    + intros Hcannot.
      destruct (last candles1m) as [c1|] eqn:Hc1;
        [|left; by apply last_None].
      destruct (last candles5m) as [c5|] eqn:Hc5;
        [|right; by apply last_None].
      rewrite (verifyTimeAlignment_last host _ _ c1 c5 Hc1 Hc5) in Hcannot.
      destruct (normalizeToTimeframe host
                  (new_Date (Acquisition.timestamp c1)) 5); [|done].
      destruct (normalizeToTimeframe host
                  (new_Date (Acquisition.timestamp c5)) 5); [|done].
      by case_bool_decide.
    + unfold verifyTimeAlignment. intros [-> | ->]; [done|].
      by destruct (last candles1m).
  - intros c1 c5 Hc1 Hc5 normalized1m normalized5m.
    rewrite (verifyTimeAlignment_last host _ _ c1 c5 Hc1 Hc5).
    fold normalized1m normalized5m. split.
    + destruct normalized1m as [time1m|], normalized5m as [time5m|].
      * split; [done|]. by intros [?|?].
      * split; [by right|done].
      * split; [by left|done].
      * split; [by left|done].
    + intros time1m time5m H1 H5. rewrite H1, H5.
      destruct (normalizeToTimeframe_five_multiple host _ _ Hutc H1)
        as [k1 ->].
      destruct (normalizeToTimeframe_five_multiple host _ _ Hutc H5)
        as [k5 ->].
      split; [lia|].
      case_bool_decide as Hdiff; case_bool_decide as Hequal; try done; lia.
Qed.

Lemma verifyTimeAlignment_tolerance_never_decides_witness :
  (∀ t, (300000 | utc_offset (fixed_zone (-18000000)) t))
  ∧ verifyTimeAlignment (fixed_zone (-18000000))
      [TimeScenarios.flat_candle 1700000400000]
      [TimeScenarios.flat_candle 1700000100000]
    = Some AlignmentIssue.
Proof.
  assert (∀ t : Z, (300000 | utc_offset (fixed_zone (-18000000)) t))
    as Hutc by (intros t; by exists (-60)).
  split; [exact Hutc|].
  assert (last [TimeScenarios.flat_candle 1700000400000]
          = Some (TimeScenarios.flat_candle 1700000400000)) as Hc1 by reflexivity.
  assert (last [TimeScenarios.flat_candle 1700000100000]
          = Some (TimeScenarios.flat_candle 1700000100000)) as Hc5 by reflexivity.
  apply (proj2 (proj2 (verifyTimeAlignment_tolerance_never_decides float
                  (fixed_zone (-18000000)) _ _ Hutc) _ _ Hc1 Hc5)
           1700000400000 1700000100000);
    vm_compute; reflexivity.
Defined.

(** X26. In a zone at a fixed offset from UTC, when [verifyTimeAlignment]
    reaches its verdict, it logs that the alignment is verified exactly
    when the last one-minute candle and the last five-minute candle lie
    in the same five-minute interval of local time, and an alignment
    issue otherwise. *)
Theorem verifyTimeAlignment_same_interval :
  ∀ (T : Type) (offset : Z)
    (candles1m candles5m : list (Acquisition.candle (T := T)))
    (c1 c5 : Acquisition.candle (T := T)) (verdict : alignment),
    last candles1m = Some c1 → last candles5m = Some c5 →
    verifyTimeAlignment (fixed_zone offset) candles1m candles5m
    = Some verdict →
    verdict
    = if bool_decide ((Acquisition.timestamp c1 + offset) / 300000
                      = (Acquisition.timestamp c5 + offset) / 300000)
      then AlignmentVerified else AlignmentIssue.
Proof.
  intros T offset candles1m candles5m c1 c5 verdict Hc1 Hc5.
  rewrite (verifyTimeAlignment_last _ _ _ c1 c5 Hc1 Hc5).
  destruct (new_Date (Acquisition.timestamp c1)) as [t1|] eqn:Ht1; [|done].
  apply new_Date_Some in Ht1 as [-> _].
  destruct (new_Date (Acquisition.timestamp c5)) as [t5|] eqn:Ht5.
  2: { change (normalizeToTimeframe (fixed_zone offset) None 5)
         with (@None Z).
       by destruct (normalizeToTimeframe _ _ _). }
  apply new_Date_Some in Ht5 as [-> _].
  rewrite !normalizeToTimeframe_five_fixed.
  destruct (new_Date (_ - _)) as [time1m|] eqn:H1; [|done].
  apply new_Date_Some in H1 as [-> _].
  destruct (new_Date (_ - _)) as [time5m|] eqn:H5; [|done].
  apply new_Date_Some in H5 as [-> _].
  intros [= <-].
  set (t1 := Acquisition.timestamp c1). set (t5 := Acquisition.timestamp c5).
  pose proof (Z.div_mod (t1 + offset) 300000).
  pose proof (Z.mod_pos_bound (t1 + offset) 300000).
  pose proof (Z.div_mod (t5 + offset) 300000).
  pose proof (Z.mod_pos_bound (t5 + offset) 300000).
  case_bool_decide as Hdiff; case_bool_decide as Hsame; try done; lia.
Qed.

Lemma verifyTimeAlignment_same_interval_witness :
  last [TimeScenarios.flat_candle 1700000340000]
  = Some (TimeScenarios.flat_candle 1700000340000)
  ∧ last [TimeScenarios.flat_candle 1700000100000]
    = Some (TimeScenarios.flat_candle 1700000100000)
  ∧ verifyTimeAlignment (fixed_zone 3600000)
      [TimeScenarios.flat_candle 1700000340000]
      [TimeScenarios.flat_candle 1700000100000]
    = Some AlignmentVerified
  ∧ AlignmentVerified
    = if bool_decide ((1700000340000 + 3600000) / 300000
                      = (1700000100000 + 3600000) / 300000)
      then AlignmentVerified else AlignmentIssue.
Proof.
  assert (last [TimeScenarios.flat_candle 1700000340000]
          = Some (TimeScenarios.flat_candle 1700000340000)) as Hc1
    by reflexivity.
  assert (last [TimeScenarios.flat_candle 1700000100000]
          = Some (TimeScenarios.flat_candle 1700000100000)) as Hc5
    by reflexivity.
  assert (verifyTimeAlignment (fixed_zone 3600000)
            [TimeScenarios.flat_candle 1700000340000]
            [TimeScenarios.flat_candle 1700000100000]
          = Some AlignmentVerified) as Hverdict by (vm_compute; reflexivity).
  split; [exact Hc1|]. split; [exact Hc5|]. split; [exact Hverdict|].
  exact (verifyTimeAlignment_same_interval float 3600000 _ _ _ _ _
           Hc1 Hc5 Hverdict).
Defined.

(** X27. [validateDataFreshness] warns that a series is old exactly when
    its last candle is at least 24 hours and 30 minutes older than the
    current time, because it rounds the age to whole hours before
    comparing it with 24.  With an empty series it logs that it cannot
    validate; with a last candle in both series it throws exactly when
    one of the two timestamps is an invalid date. *)
Theorem validateDataFreshness_rounds_hours :
  ∀ (T : Type) (now : Z)
    (candles1m candles5m : list (Acquisition.candle (T := T))),
    (validateDataFreshness now candles1m candles5m = Some CannotValidate
     ↔ candles1m = [] ∨ candles5m = [])
    ∧ ∀ c1 c5,
        last candles1m = Some c1 → last candles5m = Some c5 →
        (validateDataFreshness now candles1m candles5m = None
         ↔ Acquisition.validDate (Acquisition.timestamp c1) = false
           ∨ Acquisition.validDate (Acquisition.timestamp c5) = false)
        ∧ ∀ stale1m stale5m,
            validateDataFreshness now candles1m candles5m
            = Some (Checked stale1m stale5m) →
            (stale1m = true
             ↔ 24 * 3600000 + 1800000 ≤ now - Acquisition.timestamp c1)
            ∧ (stale5m = true
               ↔ 24 * 3600000 + 1800000 ≤ now - Acquisition.timestamp c5).
Proof.
  intros T now candles1m candles5m. unfold validateDataFreshness, new_Date.
  split.
  - split.
    + intros Hcannot.
      destruct (last candles1m) as [c1|] eqn:Hc1;
        [|left; by apply last_None].
      destruct (last candles5m) as [c5|] eqn:Hc5;
        [|right; by apply last_None].
      destruct (Acquisition.validDate (Acquisition.timestamp c1)); [|done].
      by destruct (Acquisition.validDate (Acquisition.timestamp c5)).
    + intros [-> | ->]; [done|]. by destruct (last candles1m).
  - intros c1 c5 -> ->.
    destruct (Acquisition.validDate (Acquisition.timestamp c1)),
      (Acquisition.validDate (Acquisition.timestamp c5)).
    + split; [split; [done|by intros [?|?]]|].
      intros stale1m stale5m [= <- <-].
      rewrite !bool_decide_eq_true, !hoursSince_stale. done.
    + split; [split; [by right|done]|done].
    + split; [split; [by left|done]|done].
    + split; [split; [by left|done]|done].
Qed.

Lemma validateDataFreshness_rounds_hours_witness :
  last [TimeScenarios.flat_candle 1700000000000]
  = Some (TimeScenarios.flat_candle 1700000000000)
  ∧ last [TimeScenarios.flat_candle 1699999000000]
    = Some (TimeScenarios.flat_candle 1699999000000)
  ∧ validateDataFreshness 1700088000000
      [TimeScenarios.flat_candle 1700000000000]
      [TimeScenarios.flat_candle 1699999000000]
    = Some (Checked false true)
  ∧ (true = true ↔ 24 * 3600000 + 1800000 ≤ 1700088000000 - 1699999000000).
Proof.
  assert (last [TimeScenarios.flat_candle 1700000000000]
          = Some (TimeScenarios.flat_candle 1700000000000)) as Hc1
    by reflexivity.
  assert (last [TimeScenarios.flat_candle 1699999000000]
          = Some (TimeScenarios.flat_candle 1699999000000)) as Hc5
    by reflexivity.
  assert (validateDataFreshness 1700088000000
            [TimeScenarios.flat_candle 1700000000000]
            [TimeScenarios.flat_candle 1699999000000]
          = Some (Checked false true)) as Hchecked by (vm_compute; reflexivity).
  split; [exact Hc1|]. split; [exact Hc5|]. split; [exact Hchecked|].
  exact (proj2 (proj2 (proj2 (validateDataFreshness_rounds_hours float
                  1700088000000 _ _) _ _ Hc1 Hc5) _ _ Hchecked)).
Defined.
End DataChecksTheorems.
